(** * bfl-api: the task poller, the request facade and the origin validator

    A shallow embedding of [src/api.ts] (class [BflAPI]: constructor,
    [_redactApiKey], [_sanitizeErrorMessage], [_makeRequest], [getResult],
    [waitForResult]), of [pause] from [src/utils.js] and of the constants of
    [src/config.js], and a model of the origin validator of section 4.2 of
    the specification, followed by their properties.

    JavaScript values are modelled as follows.
    - strings: [string]; [s.includes(t)], [s.startsWith(t)], [s.slice(-n)],
      [s.toUpperCase()] are the functions of module [Js];
    - numbers that count (retry counter, HTTP status, call counters): [nat]
      or [Z]; numbers that measure seconds ([timeout], [pollInterval],
      the back-off delay): [Q];
    - [Date.now()] and [axios.get] are the two sources of input: the k-th
      call of each is answered by an oracle of the environment [Env];
    - what the code does to the outside (requests issued, [pause] calls,
      logger calls) is recorded, in order, in the [World];
    - exceptions: a computation of the monad [M] ends in [Val] or [Throw],
      and [try_catch] is the JavaScript [try { } catch { }].
    The spinner of [waitForResult] only writes to the terminal and is left
    out (the tests run with [showSpinner: false]). *)

From Stdlib Require Import String Ascii List NArith ZArith QArith Lia Bool DecimalString.
Import ListNotations.
Open Scope string_scope.

(** ** JavaScript string primitives *)

Module Js.

(** [s.startsWith(p)] *)
Definition startsWith (s p : string) : bool := String.prefix p s.

(** [s.includes(sub)]: [sub] occurs in [s] at some offset. *)
Fixpoint includes (s sub : string) : bool :=
  if String.prefix sub s then true
  else match s with
       | EmptyString => false
       | String _ s' => includes s' sub
       end.

(** [s.slice(-n)]: the last [n] characters (all of [s] when it is shorter). *)
Definition slice_last (n : nat) (s : string) : string :=
  substring (String.length s - n) n s.

(** One character of [toUpperCase] / [toLowerCase]: the mapping of the ASCII
    letters. A character is a code unit below 256. On a string of ASCII
    characters the two functions are JavaScript's. A code unit above 127 is
    left as it is, where JavaScript maps some of them to another character
    above 127 and [toUpperCase] turns U+00DF into [SS]. So no such character
    becomes an ASCII character under [toLowerCase], which is what
    [promptToFilename] calls; and under [toUpperCase] none but U+00DF does,
    whose [SS] is no part of [GET] or [POST], which is what [_makeRequest]
    compares with. *)
Definition upper_ascii (c : ascii) : ascii :=
  let n := nat_of_ascii c in
  if andb (97 <=? n)%nat (n <=? 122)%nat then ascii_of_nat (n - 32) else c.

Definition lower_ascii (c : ascii) : ascii :=
  let n := nat_of_ascii c in
  if andb (65 <=? n)%nat (n <=? 90)%nat then ascii_of_nat (n + 32) else c.

Fixpoint toUpperCase (s : string) : string :=
  match s with
  | EmptyString => EmptyString
  | String c s' => String (upper_ascii c) (toUpperCase s')
  end.

Fixpoint toLowerCase (s : string) : string :=
  match s with
  | EmptyString => EmptyString
  | String c s' => String (lower_ascii c) (toLowerCase s')
  end.

(** Truthiness of a string: the empty string is falsy. *)
Definition truthy (s : string) : bool :=
  match s with EmptyString => false | _ => true end.

(** Truthiness of a possibly [null]/[undefined] string. *)
Definition truthy_opt (o : option string) : bool :=
  match o with Some s => truthy s | None => false end.

(** [a || b] on possibly absent strings: the first truthy operand, else [b]. *)
Definition or_else (a : option string) (b : option string) : option string :=
  if truthy_opt a then a else b.

(** Template-literal rendering of an integer. *)
Definition show_Z (z : Z) : string := NilZero.string_of_int (Z.to_int z).
Definition show_nat (n : nat) : string := show_Z (Z.of_nat n).

End Js.


(** ** Data of [src/api.ts] *)

(** The body of an HTTP error response as [_sanitizeErrorMessage] reads it:
    [detail] may be a string or an object (kept with its [JSON.stringify]
    rendering), [error] is a string. *)
Inductive JsDetail :=
| DetailString (s : string)
| DetailObject (json : string).

Record ErrorData := mkErrorData {
  data_detail : option JsDetail;
  data_error : option string
}.

Record AxiosResponse := mkAxiosResponse {
  resp_status : Z;
  resp_data : option ErrorData
}.

(** A thrown value: an [Error] object with its [message], and the [response]
    that axios attaches when the server answered with a failure status.
    [new Error(msg)] has no [response]. *)
Record JsError := mkJsError {
  message : string;
  response : option AxiosResponse
}.

Definition Error (msg : string) : JsError := mkJsError msg None.

(** [TaskResult]: what the status endpoint answers. *)
Record ResultBody := mkResultBody {
  sample : option string;
  result_error : option string
}.

Record TaskResult := mkTaskResult {
  id : string;
  status : string;
  result : option ResultBody
}.

(** The arguments of one [axios.get(url, config)] / [axios.post(url, data,
    config)] call. A field absent from [config] is [None]. *)
Record AxiosRequest := mkAxiosRequest {
  req_method : string;
  req_url : string;
  req_data : option string;
  req_headers : list (string * string);
  req_timeout : option Z;
  req_maxRedirects : option Z
}.

Inductive LogLevel := Debug | Info | Warn | LogError.

Inductive Logger := ApiLogger | UtilsLogger.

(** One call of a winston logger: level, message and the [headers] metadata
    when given. *)
Record LogEntry := mkLogEntry {
  log_source : Logger;
  log_level : LogLevel;
  log_message : string;
  log_headers : option (list (string * string))
}.

(** What the program did to the outside, in order. *)
Inductive Event :=
| EvRequest (req : AxiosRequest)
| EvPause (seconds : Q).

Record World := mkWorld {
  now_calls : nat;
  axios_calls : nat;
  trace : list Event;
  logs : list LogEntry
}.

Definition world0 : World := mkWorld 0 0 [] [].

(** The environment: the clock, the HTTP server behind axios, the process
    environment, and JavaScript's conversion of a number to text. *)
Record Env := mkEnv {
  date_now : nat -> Z;
  axios_call : nat -> AxiosRequest -> TaskResult + JsError;
  node_env_production : bool;
  env_BFL_API_KEY : option string;
  show_number : Q -> string
}.

(** ** The monad of effects and exceptions *)

Inductive Res (A : Type) :=
| Val (a : A)
| Throw (e : JsError).
Arguments Val {A} a.
Arguments Throw {A} e.

Definition M (A : Type) : Type := World -> Res A * World.

Definition ret {A} (a : A) : M A := fun w => (Val a, w).

Definition bind {A B} (c : M A) (k : A -> M B) : M B :=
  fun w => match c w with
           | (Val a, w') => k a w'
           | (Throw e, w') => (Throw e, w')
           end.

Definition throw {A} (e : JsError) : M A := fun w => (Throw e, w).

(** [try { c } catch (error) { h error }]: the effects of [c] stay. *)
Definition try_catch {A} (c : M A) (h : JsError -> M A) : M A :=
  fun w => match c w with
           | (Val a, w') => (Val a, w')
           | (Throw e, w') => h e w'
           end.

Declare Scope js_scope.
Delimit Scope js_scope with js.
Notation "x <- c ;; k" := (bind c (fun x => k))
  (at level 61, c at next level, right associativity) : js_scope.
Notation "c ;;; k" := (bind c (fun _ => k))
  (at level 61, right associativity) : js_scope.
Open Scope js_scope.

(** [Date.now()] *)
Definition Date_now (env : Env) : M Z :=
  fun w => (Val (date_now env (now_calls w)),
            mkWorld (S (now_calls w)) (axios_calls w) (trace w) (logs w)).

(** [await axios.get(...)] / [await axios.post(...)]: the promise resolves
    with [response.data] or rejects with an error. *)
Definition axios (env : Env) (req : AxiosRequest) : M TaskResult :=
  fun w =>
    let w' := mkWorld (now_calls w) (S (axios_calls w))
                      (trace w ++ [EvRequest req]) (logs w) in
    match axios_call env (axios_calls w) req with
    | inl data => (Val data, w')
    | inr e => (Throw e, w')
    end.

Definition log (src : Logger) (lvl : LogLevel) (msg : string)
    (hdrs : option (list (string * string))) : M unit :=
  fun w => (Val tt, mkWorld (now_calls w) (axios_calls w) (trace w)
                            (logs w ++ [mkLogEntry src lvl msg hdrs])).

(** The line that a logger prints for one call. Both loggers are created
    with the format [printf(({ timestamp, level, message }) =>
    `${timestamp} - ${level.toUpperCase()} - ${message}`)] (the constructor
    of [BflAPI] and the module logger of [src/utils.js]): the metadata of
    the call, such as the [headers] that [_makeRequest] hands over, is not
    part of the line. *)
Definition levelName (l : LogLevel) : string :=
  match l with
  | Debug => "DEBUG"
  | Info => "INFO"
  | Warn => "WARN"
  | LogError => "ERROR"
  end.

Definition printedLine (timestamp : string) (e : LogEntry) : string :=
  timestamp ++ " - " ++ levelName (log_level e) ++ " - " ++ log_message e.

Definition Qltb (a b : Q) : bool := negb (Qle_bool b a).

(** [pause] of [src/utils.js]. *)
Definition pause (env : Env) (seconds : Q) : M unit :=
  if Qltb seconds 0 then throw (Error "Seconds cannot be negative")
  else
    log UtilsLogger Debug ("Pausing for " ++ show_number env seconds ++ " seconds...") None ;;;
    fun w => (Val tt, mkWorld (now_calls w) (axios_calls w)
                              (trace w ++ [EvPause seconds]) (logs w)).

(** ** [src/config.js] *)

Definition BASE_URL : string := "https://api.bfl.ai".
Definition MAX_RETRIES : Z := 3.

Definition dquote : string := String (ascii_of_nat 34) EmptyString.
Definition newline : string := String (ascii_of_nat 10) EmptyString.

Fixpoint join (sep : string) (l : list string) : string :=
  match l with
  | [] => ""
  | [x] => x
  | x :: rest => x ++ sep ++ join sep rest
  end.

Definition apiKeyNotFoundMessage : string :=
  join newline
    [ "BFL_API_KEY not found. Please provide your API key via one of these methods:";
      "";
      "  1. CLI flag:           bfl --api-key YOUR_KEY --flux-dev --prompt "
        ++ dquote ++ "..." ++ dquote;
      "  2. Environment var:    export BFL_API_KEY=YOUR_KEY";
      "  3. Local .env file:    Create .env in current directory with BFL_API_KEY=YOUR_KEY";
      "  4. Global config:      Create ~/.bfl/.env with BFL_API_KEY=YOUR_KEY";
      "";
      "Get your API key at https://api.bfl.ml/" ].

(** [getBflApiKey(cliApiKey = null)]: the CLI key, else the environment
    variable; throws when neither is a non-empty string. *)
Definition getBflApiKey (env : Env) (cliApiKey : option string) : M string :=
  match Js.or_else cliApiKey (env_BFL_API_KEY env) with
  | Some k => if Js.truthy k then ret k else throw (Error apiKeyNotFoundMessage)
  | None => throw (Error apiKeyNotFoundMessage)
  end.

(** ** Class [BflAPI] *)

(** The constructor's options; [None] is an option left [undefined] (or, for
    [apiKey], [null]). *)
Record BflApiOptions := mkBflApiOptions {
  opt_apiKey : option string;
  opt_baseUrl : option string;
  opt_logLevel : option string
}.

(** An instance. Its winston logger is represented by the [logs] of the
    [World]; whether a level is printed is winston's business. *)
Record BflAPI := mkBflAPI {
  apiKey : string;
  baseUrl : string
}.

Definition httpsRequiredMessage : string :=
  "API base URL must use HTTPS protocol for security".

(** [constructor({ apiKey = null, baseUrl = BASE_URL, logLevel = 'INFO' } = {})].
    The logger is created first (no effect on the outside), then the base
    URL is checked, then the key is resolved. *)
Definition BflAPI_constructor (env : Env) (opts : BflApiOptions) : M BflAPI :=
  let baseUrl := match opt_baseUrl opts with Some u => u | None => BASE_URL end in
  if andb (Js.truthy baseUrl) (negb (Js.startsWith baseUrl "https://")) then
    throw (Error httpsRequiredMessage)
  else
    key <- (if Js.truthy_opt (opt_apiKey opts)
            then ret (match opt_apiKey opts with Some k => k | None => "" end)
            else getBflApiKey env None) ;;
    log ApiLogger Info "BflAPI initialized successfully" None ;;;
    ret (mkBflAPI key baseUrl).

Definition apiKeyNotSetMessage : string :=
  "API key not set. Please provide apiKey during initialization " ++
  "or set BFL_API_KEY environment variable.".

(** [_verifyApiKey()] *)
Definition _verifyApiKey (api : BflAPI) : M unit :=
  if negb (Js.truthy (apiKey api)) then throw (Error apiKeyNotSetMessage)
  else ret tt.

(** [_redactApiKey(apiKey)] *)
Definition _redactApiKey (apiKey : string) : string :=
  if orb (negb (Js.truthy apiKey)) (String.length apiKey <? 8)%nat
  then "[REDACTED]"
  else "xxx..." ++ Js.slice_last 4 apiKey.

Definition genericMessages : list (Z * string) :=
  [ (400, "Invalid request parameters");
    (401, "Authentication failed");
    (403, "Access forbidden");
    (404, "Resource not found");
    (422, "Invalid parameters");
    (429, "Rate limit exceeded");
    (500, "Service error");
    (502, "Service temporarily unavailable");
    (503, "Service temporarily unavailable") ]%Z.

Fixpoint lookupZ (k : Z) (l : list (Z * string)) : option string :=
  match l with
  | [] => None
  | (k', v) :: rest => if (k =? k')%Z then Some v else lookupZ k rest
  end.

(** [_sanitizeErrorMessage(error, status)] *)
Definition _sanitizeErrorMessage (env : Env) (error : JsError) (status : Z) : string :=
  if node_env_production env then
    match lookupZ status genericMessages with
    | Some m => m
    | None => "An error occurred"
    end
  else
    let responseData :=
      match response error with Some r => resp_data r | None => None end in
    (* responseData?.detail || responseData?.error || error.message *)
    let fromDetail :=
      match responseData with
      | Some d =>
          match data_detail d with
          | Some (DetailString s) => if Js.truthy s then Some (DetailString s) else None
          | Some (DetailObject j) => Some (DetailObject j)
          | None => None
          end
      | None => None
      end in
    match fromDetail with
    | Some (DetailObject j) => j
    | Some (DetailString s) => s
    | None =>
        match Js.or_else (match responseData with Some d => data_error d | None => None end)
                         (Some (message error)) with
        | Some s => s
        | None => message error
        end
    end.

(** The headers of [_makeRequest]. *)
Definition requestHeaders (api : BflAPI) : list (string * string) :=
  [ ("accept", "application/json");
    ("x-key", apiKey api);
    ("Content-Type", "application/json") ].

(** [{ ...headers, 'x-key': this._redactApiKey(this.apiKey) }] *)
Definition sanitizedHeaders (api : BflAPI) : list (string * string) :=
  [ ("accept", "application/json");
    ("x-key", _redactApiKey (apiKey api));
    ("Content-Type", "application/json") ].

(** The error that the [catch] block of [_makeRequest] throws for the error
    it caught: a new [Error] chosen by the HTTP status when the server
    answered, the caught error itself otherwise. *)
Definition rethrown (env : Env) (axiosError : JsError) : JsError :=
  match response axiosError with
  | Some r =>
      let status := resp_status r in
      let sanitizedMessage := _sanitizeErrorMessage env axiosError status in
      if (status =? 401)%Z then
        Error "Authentication failed. Please check your API key."
      else if (status =? 422)%Z then
        Error ("Invalid parameters: " ++ sanitizedMessage)
      else if (status =? 429)%Z then
        Error "Rate limit exceeded. Please wait before making more requests."
      else if orb (status =? 502)%Z (status =? 503)%Z then
        Error ("Service temporarily unavailable (" ++ Js.show_Z status
               ++ "). Please retry.")
      else
        Error ("HTTP " ++ Js.show_Z status ++ ": " ++ sanitizedMessage)
  | None => axiosError
  end.

(** The [catch] block of [_makeRequest]. *)
Definition makeRequest_catch (env : Env) (axiosError : JsError) : M TaskResult :=
  log ApiLogger LogError ("API request failed: " ++ message axiosError) None ;;;
  throw (rethrown env axiosError).

(** [_makeRequest(method, endpoint, data = null)] *)
Definition _makeRequest (env : Env) (api : BflAPI)
    (method endpoint : string) (data : option string) : M TaskResult :=
  let url := baseUrl api ++ endpoint in
  let headers := requestHeaders api in
  log ApiLogger Debug ("API request: " ++ method ++ " " ++ endpoint)
      (Some (sanitizedHeaders api)) ;;;
  try_catch
    (resp <-
       (if String.eqb (Js.toUpperCase method) "GET" then
          axios env (mkAxiosRequest "GET" url None headers (Some 30000%Z) (Some 5%Z))
        else if String.eqb (Js.toUpperCase method) "POST" then
          axios env (mkAxiosRequest "POST" url data headers (Some 30000%Z) (Some 5%Z))
        else throw (Error ("Unsupported HTTP method: " ++ method))) ;;
     log ApiLogger Debug ("API request successful: " ++ method ++ " " ++ endpoint) None ;;;
     ret resp)
    (makeRequest_catch env).

(** [getResult(taskId, pollingUrl = null)] *)
Definition getResult (env : Env) (api : BflAPI)
    (taskId : string) (pollingUrl : option string) : M TaskResult :=
  _verifyApiKey api ;;;
  try_catch
    (result <-
       (if Js.truthy_opt pollingUrl then
          (* Use the full polling URL provided by the API *)
          let headers := [ ("accept", "application/json"); ("x-key", apiKey api) ] in
          axios env (mkAxiosRequest "GET"
                       (match pollingUrl with Some u => u | None => "" end)
                       None headers None None)
        else
          (* Fallback to constructing URL *)
          _makeRequest env api "GET" ("/v1/get_result?id=" ++ taskId) None) ;;
     log ApiLogger Debug ("Polled task " ++ taskId ++ ": " ++ status result) None ;;;
     ret result)
    (fun err =>
       log ApiLogger LogError ("Error polling task " ++ taskId ++ ": " ++ message err) None ;;;
       throw err).

(** The request that [getResult] issues: straight to the polling URL when
    one is given, through [_makeRequest] otherwise. *)
Definition statusRequest (api : BflAPI) (taskId : string)
    (pollingUrl : option string) : AxiosRequest :=
  if Js.truthy_opt pollingUrl then
    mkAxiosRequest "GET" (match pollingUrl with Some u => u | None => "" end) None
      [ ("accept", "application/json"); ("x-key", apiKey api) ] None None
  else
    mkAxiosRequest "GET" (baseUrl api ++ "/v1/get_result?id=" ++ taskId) None
      (requestHeaders api) (Some 30000%Z) (Some 5%Z).

(** The error with which [getResult] fails when axios rejects with [e]. *)
Definition thrownByGetResult (env : Env) (pollingUrl : option string)
    (e : JsError) : JsError :=
  if Js.truthy_opt pollingUrl then e else rethrown env e.

(** The options of [waitForResult]; [None] is an option left [undefined]. *)
Record WaitResultOptions := mkWaitResultOptions {
  pollingUrl : option string;
  timeout : option Q;
  pollInterval : option Q;
  maxRetries : option Z;
  showSpinner : option bool
}.

(** [{ pollingUrl = null, timeout = 300, pollInterval = 2,
       maxRetries = MAX_RETRIES, showSpinner = true }] *)
Definition timeout_of (o : WaitResultOptions) : Q :=
  match timeout o with Some t => t | None => 300 end.
Definition pollInterval_of (o : WaitResultOptions) : Q :=
  match pollInterval o with Some t => t | None => 2 end.
Definition maxRetries_of (o : WaitResultOptions) : Z :=
  match maxRetries o with Some n => n | None => MAX_RETRIES end.

Definition noOptions : WaitResultOptions := mkWaitResultOptions None None None None None.

(** How one pass through the inner [try { } catch { }] of the polling loop
    ends: with [return result], by falling out of the [try] (the counter is
    then reset and the poll interval slept), or with [continue] after the
    back-off sleep, carrying the incremented counter. *)
Inductive TryEnd :=
| Return (result : TaskResult)
| FellThrough
| ContinueWith (retries : nat).

Definition isTransient (msg : string) : bool :=
  Js.includes msg "503" || Js.includes msg "502" ||
  Js.includes msg "ECONNRESET" || Js.includes msg "ETIMEDOUT".

Definition isModeration (msg : string) : bool :=
  Js.includes msg "moderated" || Js.includes msg "Content Moderated".

(** [Math.pow(2, retries)] *)
Definition backoff (retries : nat) : Q := inject_Z (2 ^ Z.of_nat retries).

Definition contentModeratedMessage : string :=
  "Content was moderated. Please revise your prompt.".

(** The [catch (error)] block of the polling loop. *)
Definition poll_catch (env : Env) (o : WaitResultOptions) (retries : nat)
    (err : JsError) : M TryEnd :=
  if isModeration (message err) then
    throw err (* Don't retry moderation errors *)
  else if isTransient (message err) && (Z.of_nat retries <? maxRetries_of o)%Z then
    let retries' := S retries in
    log ApiLogger Warn
        ("Transient error (retry " ++ Js.show_nat retries' ++ "/"
         ++ Js.show_Z (maxRetries_of o) ++ "): " ++ message err) None ;;;
    pause env (backoff retries') ;;;
    ret (ContinueWith retries')
  else
    (* Max retries exceeded or non-transient error *)
    throw err.

(** [result.result?.error || 'Unknown error'] *)
Definition errorMsgOf (res : TaskResult) : string :=
  match Js.or_else (match result res with
                    | Some b => result_error b
                    | None => None
                    end) (Some "Unknown error") with
  | Some m => m
  | None => "Unknown error"
  end.

(** The [try] block of the polling loop. *)
Definition poll_try (env : Env) (api : BflAPI) (taskId : string)
    (o : WaitResultOptions) : M TryEnd :=
  res <- getResult env api taskId (pollingUrl o) ;;
  if String.eqb (status res) "Ready" then
    ret (Return res)
  else if String.eqb (status res) "Error" then
    let errorMsg := errorMsgOf res in
    throw (Error ("Generation failed: " ++ errorMsg))
  else if String.eqb (status res) "Content Moderated" then
    throw (Error contentModeratedMessage)
  else
    (* 'Pending', 'Request Moderated' or any other status: continue polling *)
    ret FellThrough.

Definition elapsed_seconds (startTime now : Z) : Q :=
  inject_Z (now - startTime) / 1000.

(** The test [elapsed > timeout] on the clock reading number [k]. *)
Definition timedOut (env : Env) (o : WaitResultOptions) (startTime : Z) (k : nat) : bool :=
  Qltb (timeout_of o) (elapsed_seconds startTime (date_now env k)).

(** [new Error(`Timeout after ${timeout} seconds`)] *)
Definition timeoutError (env : Env) (o : WaitResultOptions) : JsError :=
  Error ("Timeout after " ++ show_number env (timeout_of o) ++ " seconds").

(** One pass through the body of [while (true)]: the result to return, or
    the value of [retries] with which the next pass starts. *)
Definition loopBody (env : Env) (api : BflAPI) (taskId : string)
    (o : WaitResultOptions) (startTime : Z) (retries : nat)
    : M (TaskResult + nat) :=
  now <- Date_now env ;;
  let elapsed := elapsed_seconds startTime now in
  if Qltb (timeout_of o) elapsed then
    throw (timeoutError env o)
  else
    e <- try_catch (poll_try env api taskId o) (poll_catch env o retries) ;;
    match e with
    | Return result => ret (inl result)
    | ContinueWith retries' => ret (inr retries')
    | FellThrough =>
        (* Reset retry count on successful poll; wait before next poll *)
        pause env (pollInterval_of o) ;;;
        ret (inr 0%nat)
    end.

(** The loop, unrolled at most [fuel] times; [None] when it is still
    running after [fuel] passes. *)
Fixpoint pollLoop (fuel : nat) (env : Env) (api : BflAPI) (taskId : string)
    (o : WaitResultOptions) (startTime : Z) (retries : nat)
    : M (option TaskResult) :=
  match fuel with
  | O => ret None
  | S fuel' =>
      r <- loopBody env api taskId o startTime retries ;;
      match r with
      | inl result => ret (Some result)
      | inr retries' => pollLoop fuel' env api taskId o startTime retries'
      end
  end.

(** [waitForResult(taskId, options = {})] *)
Definition waitForResult (fuel : nat) (env : Env) (api : BflAPI)
    (taskId : string) (o : WaitResultOptions) : M (option TaskResult) :=
  startTime <- Date_now env ;;
  pollLoop fuel env api taskId o startTime 0%nat.

(** ** Vocabulary of the statements about the poller *)

(** The two statuses on which the service asks to keep waiting. *)
Definition keepWaiting (s : string) : bool :=
  String.eqb s "Pending" || String.eqb s "Request Moderated".

(** A rejected fetch that the [catch] block classifies as transient and not
    as moderation. *)
Definition transientFailure (env : Env) (o : WaitResultOptions) (e : JsError) : bool :=
  isTransient (message (thrownByGetResult env (pollingUrl o) e)) &&
  negb (isModeration (message (thrownByGetResult env (pollingUrl o) e))).

(** A message that names one of the four marks of a transient failure, and a
    message that reads as moderation. *)
Definition namesTransient (msg : string) : Prop :=
  Js.includes msg "503" = true \/ Js.includes msg "502" = true \/
  Js.includes msg "ECONNRESET" = true \/ Js.includes msg "ETIMEDOUT" = true.

Definition namesModeration (msg : string) : Prop :=
  Js.includes msg "moderated" = true \/ Js.includes msg "Content Moderated" = true.

(** The failures of a status fetch, as axios reports them, that the loop
    retries: an answer with HTTP status 502 or 503 fetched through
    [_makeRequest] (no polling URL); or an error that reaches the loop with
    its own message (a transport error, which has no response, or any error
    of a fetch from the polling URL) when the message names 503, 502,
    ECONNRESET or ETIMEDOUT and does not read as moderation. *)
Definition retriedFailure (o : WaitResultOptions) (e : JsError) : Prop :=
  (Js.truthy_opt (pollingUrl o) = false /\
   exists r, response e = Some r /\ (resp_status r = 502%Z \/ resp_status r = 503%Z))
  \/
  ((Js.truthy_opt (pollingUrl o) = true \/ response e = None) /\
   namesTransient (message e) /\ ~ namesModeration (message e)).

(** What [n] polls that each end in the poll-interval sleep leave in the
    trace. *)
Fixpoint waitingTrace (req : AxiosRequest) (pollInterval : Q) (n : nat) : list Event :=
  match n with
  | O => []
  | S n' => EvRequest req :: EvPause pollInterval :: waitingTrace req pollInterval n'
  end.

(** What [n] failed fetches that are each retried leave in the trace, the
    counter being [retries] before the first of them. *)
Fixpoint retryTrace (req : AxiosRequest) (retries n : nat) : list Event :=
  match n with
  | O => []
  | S n' => EvRequest req :: EvPause (backoff (S retries)) :: retryTrace req (S retries) n'
  end.

(** The requests of a trace. *)
Fixpoint requestsOf (t : list Event) : list AxiosRequest :=
  match t with
  | [] => []
  | EvRequest r :: t' => r :: requestsOf t'
  | EvPause _ :: t' => requestsOf t'
  end.

(** What the loggers print for a list of calls: [shown] tells which calls
    pass the level of their logger, [stamp k] is the timestamp of the call
    number [k]. *)
Fixpoint logOutput (stamp : nat -> string) (shown : Logger -> LogLevel -> bool)
    (k : nat) (entries : list LogEntry) : list string :=
  match entries with
  | [] => []
  | e :: rest =>
      ((if shown (log_source e) (log_level e) then [printedLine (stamp k) e] else [])
       ++ logOutput stamp shown (S k) rest)%list
  end.

(** A server whose answers do not depend on the headers of the request (so
    not on the key in [x-key]): requests with the same method, URL and body
    get the same answer. *)
Definition keyBlind (env : Env) : Prop :=
  forall n r1 r2,
    req_method r1 = req_method r2 -> req_url r1 = req_url r2 ->
    req_data r1 = req_data r2 ->
    axios_call env n r1 = axios_call env n r2.

(** Two lists of logger calls that agree on all that a line shows, two
    worlds that agree on them and on the counters, and two computations
    that, started in such worlds, end alike in such worlds. *)
Definition sameLines (l1 l2 : list LogEntry) : Prop :=
  map (fun e => (log_source e, log_level e, log_message e)) l1
  = map (fun e => (log_source e, log_level e, log_message e)) l2.

Definition sameOutside (w1 w2 : World) : Prop :=
  now_calls w1 = now_calls w2 /\ axios_calls w1 = axios_calls w2 /\
  sameLines (logs w1) (logs w2).

Definition related {A : Type} (c1 c2 : M A) : Prop :=
  forall w1 w2, sameOutside w1 w2 ->
    fst (c1 w1) = fst (c2 w2) /\ sameOutside (snd (c1 w1)) (snd (c2 w2)).

(** The scenarios of the test suite ([test/api.test.js]). *)
Module Fixture.

Definition api : BflAPI := mkBflAPI "test_api_key_for_unit_tests" BASE_URL.

Definition pendingTask : TaskResult := mkTaskResult "task_123" "Pending" None.
Definition requestModeratedTask : TaskResult :=
  mkTaskResult "task_123" "Request Moderated" None.
Definition readyTask : TaskResult :=
  mkTaskResult "task_123" "Ready"
    (Some (mkResultBody (Some "https://example.com/image.png") None)).
Definition errorTask (reason : string) : TaskResult :=
  mkTaskResult "task_123" "Error" (Some (mkResultBody None (Some reason))).
Definition contentModeratedTask : TaskResult :=
  mkTaskResult "task_123" "Content Moderated" None.

(** An environment whose clock reads [clock k] at its k-th reading and whose
    server answers the k-th request with the k-th entry of [script], and
    with [last] once the script is used up. *)
Definition scripted (clock : nat -> Z) (script : list (TaskResult + JsError))
    (last : TaskResult + JsError) : Env :=
  mkEnv clock (fun k _ => nth k script last) false None (fun _ => "").

Definition frozenClock : nat -> Z := fun _ => 0%Z.

Definition fastOptions : WaitResultOptions :=
  mkWaitResultOptions None None (Some (1 # 100)) None (Some false).

End Fixture.

(** ** Origin validator

    [validateImageUrl] is imported by the tests from [src/utils.ts], which
    is not among the sources at hand ([src/utils.js] is an earlier version
    without it). Its definitions below follow section 4.2 of the
    specification, step by step. Where the specification says "parse the
    URL" and "extract the hostname", the definitions follow the URL parser
    of the platform (the WHATWG URL standard) for a URL without a base. *)

(** Every character of [s] satisfies [P]. *)
Fixpoint allChars (P : ascii -> bool) (s : string) : bool :=
  match s with
  | EmptyString => true
  | String c s' => P c && allChars P s'
  end.

(** The character [c] occurs in [s]. *)
Fixpoint hasChar (c : ascii) (s : string) : bool :=
  match s with
  | EmptyString => false
  | String x s' => Ascii.eqb x c || hasChar c s'
  end.

Module Validator.

(** Modelled from the spec: the [reason] taxonomy of an
    [OriginClassification] (section 3); the validator itself is missing from
    the sources. *)
Inductive Reason :=
| NotHttps
| HostnameBlocklisted
| LiteralPrivateAddress
| ResolvesToPrivateAddress
| Ipv4MappedIpv6Bypass
| MalformedUrl
| ResolutionFailed.

(** Modelled from the spec: the classes of address that step 5 tells apart
    (loopback, RFC1918, link-local, unique-local, anything else). *)
Inductive AddressClass :=
| Loopback
| PrivateRange
| LinkLocal
| UniqueLocal
| PublicAddress.

(** Modelled from the spec: what the message of a rejection lets the caller
    tell apart (loopback from other private ranges; "could not be resolved"
    from "Failed to validate domain"). *)
Inductive Detail :=
| NoDetail
| AddressDetail (c : AddressClass)
| CouldNotBeResolved
| FailedToValidateDomain.

(** Modelled from the spec: the [verdict] of an [OriginClassification]. *)
Inductive Verdict :=
| Allowed
| Rejected (reason : Reason) (detail : Detail).

(** Modelled from the spec: the answer of the injected DNS resolver
    (step 6): an address, a "not found"-class error, or another error. *)
Inductive DnsAnswer :=
| DnsAddress (address : string)
| DnsNotFound
| DnsOtherError.

(** *** Text helpers *)

Fixpoint dropn (n : nat) (s : string) : string :=
  match n, s with
  | O, _ => s
  | S n', String _ s' => dropn n' s'
  | S _, EmptyString => EmptyString
  end.

(** Split at the first occurrence of [sep]. *)
Fixpoint splitFirst (sep s : string) : option (string * string) :=
  if String.prefix sep s then Some ("", dropn (String.length sep) s)
  else match s with
       | EmptyString => None
       | String c s' =>
           match splitFirst sep s' with
           | Some (a, b) => Some (String c a, b)
           | None => None
           end
       end.

(** Split at the last occurrence of the character [c]. *)
Fixpoint splitLast (c : ascii) (s : string) : option (string * string) :=
  match s with
  | EmptyString => None
  | String x s' =>
      match splitLast c s' with
      | Some (a, b) => Some (String x a, b)
      | None => if Ascii.eqb x c then Some ("", s') else None
      end
  end.

(** Split at every occurrence of the character [c]. *)
Fixpoint splitOn (c : ascii) (s : string) : list string :=
  match s with
  | EmptyString => [""]
  | String x s' =>
      if Ascii.eqb x c then "" :: splitOn c s'
      else match splitOn c s' with
           | h :: t => String x h :: t
           | [] => [String x ""]
           end
  end.

(** The longest prefix without a character satisfying [stop]. *)
Fixpoint takeUntil (stop : ascii -> bool) (s : string) : string :=
  match s with
  | EmptyString => ""
  | String c s' => if stop c then "" else String c (takeUntil stop s')
  end.

(** What is left after the longest prefix of characters satisfying [skip]. *)
Fixpoint dropWhile (skip : ascii -> bool) (s : string) : string :=
  match s with
  | EmptyString => ""
  | String c s' => if skip c then dropWhile skip s' else s
  end.

(** Without the characters satisfying [skip] at its end. *)
Fixpoint dropWhileEnd (skip : ascii -> bool) (s : string) : string :=
  match s with
  | EmptyString => ""
  | String c s' =>
      match dropWhileEnd skip s' with
      | EmptyString => if skip c then "" else String c ""
      | r => String c r
      end
  end.

(** Without the characters satisfying [skip]. *)
Fixpoint remove (skip : ascii -> bool) (s : string) : string :=
  match s with
  | EmptyString => ""
  | String c s' => if skip c then remove skip s' else String c (remove skip s')
  end.

Definition digitValue (c : ascii) : option N :=
  let n := N_of_ascii c in
  if ((48 <=? n) && (n <=? 57))%N then Some (n - 48)%N else None.

Definition isDigit (c : ascii) : bool :=
  match digitValue c with Some _ => true | None => false end.

Definition octalValue (c : ascii) : option N :=
  let n := N_of_ascii c in
  if ((48 <=? n) && (n <=? 55))%N then Some (n - 48)%N else None.

Definition hexValue (c : ascii) : option N :=
  let n := N_of_ascii c in
  if ((48 <=? n) && (n <=? 57))%N then Some (n - 48)%N
  else if ((97 <=? n) && (n <=? 102))%N then Some (n - 87)%N
  else if ((65 <=? n) && (n <=? 70))%N then Some (n - 55)%N
  else None.

Fixpoint parseDigits (value : ascii -> option N) (base : N) (acc : N) (s : string)
    : option N :=
  match s with
  | EmptyString => Some acc
  | String c s' =>
      match value c with
      | Some d => parseDigits value base (base * acc + d)%N s'
      | None => None
      end
  end.

Fixpoint parseAll (p : string -> option N) (l : list string) : option (list N) :=
  match l with
  | [] => Some []
  | x :: rest =>
      match p x, parseAll p rest with
      | Some n, Some ns => Some (n :: ns)
      | _, _ => None
      end
  end.

(** The text [a.b.c.d] of four octets. *)
Definition dotted (a b c d : N) : string :=
  Js.show_Z (Z.of_N a) ++ "." ++ Js.show_Z (Z.of_N b) ++ "."
  ++ Js.show_Z (Z.of_N c) ++ "." ++ Js.show_Z (Z.of_N d).

(** *** Literal addresses: their text *)

(** Modelled from the spec: one octet of an IPv4 literal, the validator's
    parser being missing: one to three decimal digits without a leading
    zero, at most 255. *)
Definition parseOctet (s : string) : option N :=
  if ((2 <=? String.length s)%nat && Js.startsWith s "0") then None
  else if ((1 <=? String.length s) && (String.length s <=? 3))%nat then
    match parseDigits digitValue 10 0 s with
    | Some n => if (n <=? 255)%N then Some n else None
    | None => None
    end
  else None.

(** Modelled from the spec: one group of an IPv6 literal, the validator's
    parser being missing: one to four hexadecimal digits of either case. *)
Definition parseGroup (s : string) : option N :=
  if ((1 <=? String.length s) && (String.length s <=? 4))%nat
  then parseDigits hexValue 16 0 s
  else None.

(** Modelled from the spec: "the hostname parses directly as an IPv4
    literal": four decimal octets separated by dots. *)
Definition parseIPv4 (s : string) : option (N * N * N * N) :=
  match parseAll parseOctet (splitOn "." s) with
  | Some [a; b; c; d] => Some (a, b, c, d)
  | _ => None
  end.

(** The pieces between the colons of an IPv6 literal: groups, the last of
    which may be a dotted IPv4 address standing for two groups. *)
Fixpoint parsePieces (l : list string) : option (list N) :=
  match l with
  | [] => Some []
  | x :: rest =>
      match rest with
      | [] =>
          if hasChar "." x then
            match parseIPv4 x with
            | Some (a, b, c, d) => Some [256 * a + b; 256 * c + d]%N
            | None => None
            end
          else
            match parseGroup x with
            | Some n => Some [n]
            | None => None
            end
      | _ :: _ =>
          match parseGroup x, parsePieces rest with
          | Some n, Some ns => Some (n :: ns)
          | _, _ => None
          end
      end
  end.

Definition groupsOf (pieces : list string -> option (list N)) (s : string)
    : option (list N) :=
  match s with
  | EmptyString => Some []
  | _ => pieces (splitOn ":" s)
  end.

(** Modelled from the spec: "the hostname parses directly as an IPv6
    literal": eight groups, or fewer around one [::] that stands for one or
    more groups of zeros; the last two groups may be written as a dotted
    IPv4 address. *)
Definition parseIPv6 (s : string) : option (list N) :=
  match splitFirst "::" s with
  | Some (l, r) =>
      match groupsOf (parseAll parseGroup) l, groupsOf parsePieces r with
      | Some gl, Some gr =>
          if (List.length gl + List.length gr <=? 7)%nat
          then Some (gl ++ repeat 0%N (8 - List.length gl - List.length gr) ++ gr)%list
          else None
      | _, _ => None
      end
  | None =>
      match groupsOf parsePieces s with
      | Some g => if (List.length g =? 8)%nat then Some g else None
      | None => None
      end
  end.

(** *** Steps 1 to 3: the URL, its scheme and its hostname *)

(** Modelled from the spec: what steps 2 and 3 read off the parsed URL, the
    validator's use of the URL parser being missing. *)
Record Url := mkUrl {
  scheme : string;
  hostname : string
}.

Definition isControlOrSpace (c : ascii) : bool := (N_of_ascii c <=? 32)%N.

Definition isTabOrNewline (c : ascii) : bool :=
  let n := N_of_ascii c in ((n =? 9) || (n =? 10) || (n =? 13))%N.

Definition isLetter (c : ascii) : bool :=
  let n := N_of_ascii c in
  (((65 <=? n) && (n <=? 90)) || ((97 <=? n) && (n <=? 122)))%N.

Definition isSchemeChar (c : ascii) : bool :=
  isLetter c || isDigit c || Ascii.eqb c "+" || Ascii.eqb c "-" || Ascii.eqb c ".".

Definition isSlash (c : ascii) : bool := Ascii.eqb c "/" || Ascii.eqb c "\".

Definition endsAuthority (c : ascii) : bool :=
  Ascii.eqb c "/" || Ascii.eqb c "?" || Ascii.eqb c "#" || Ascii.eqb c "\".

(** Modelled from the spec: step 1, "Parse the URL", the validator's use of
    the URL parser being missing. The schemes whose URLs have an authority
    after any number of slashes. *)
Definition specialSchemes : list string := [ "http"; "https"; "ws"; "wss"; "ftp" ].

(** Modelled from the spec: step 1, which refuses a malformed host. A
    character that no domain holds: a control character or a space, one of
    [# % / : < > ? @ [ \ ] ^ |], or a character outside ASCII (a domain with
    such characters goes through IDNA, which is not modelled: it is
    refused). *)
Definition forbiddenHostChar (c : ascii) : bool :=
  let n := N_of_ascii c in
  (n <=? 32)%N || (127 <=? n)%N ||
  existsb (Ascii.eqb c) [ "#"; "%"; "/"; ":"; "<"; ">"; "?"; "@"; "["; "\"; "]"; "^"; "|" ]%char.

(** Modelled from the spec: step 3, the hostname of a URL is read with its
    [%XX] sequences replaced by the character they stand for. *)
Fixpoint percentDecode (s : string) : string :=
  match s with
  | EmptyString => ""
  | String c rest =>
      match rest with
      | String h (String l rest') =>
          if Ascii.eqb c "%" then
            match hexValue h, hexValue l with
            | Some a, Some b => String (ascii_of_N (16 * a + b)) (percentDecode rest')
            | _, _ => String c (percentDecode rest)
            end
          else String c (percentDecode rest)
      | _ => String c (percentDecode rest)
      end
  end.

(** Modelled from the spec: step 3, the hostname of a URL whose host is
    an IPv4 address in one of the notations that a URL may use. One part of
    a host that ends in a number: hexadecimal after [0x], octal after
    another leading [0], decimal otherwise. *)
Definition parseIPv4Number (s : string) : option N :=
  if negb (Js.truthy s) then None
  else if Js.startsWith (Js.toLowerCase s) "0x" then parseDigits hexValue 16 0 (dropn 2 s)
  else if ((2 <=? String.length s)%nat && Js.startsWith s "0")
  then parseDigits octalValue 8 0 (dropn 1 s)
  else parseDigits digitValue 10 0 s.

(** Modelled from the spec: step 3. The parts of a host between its dots,
    without one empty last part. *)
Definition hostParts (host : string) : list string :=
  match rev (splitOn "." host) with
  | EmptyString :: part :: parts => rev (part :: parts)
  | _ => splitOn "." host
  end.

(** Modelled from the spec: step 3. The host ends in a number: its last
    part is made of digits, or is a number in hexadecimal or octal
    notation. *)
Definition endsInNumber (host : string) : bool :=
  match rev (hostParts host) with
  | last :: _ =>
      (Js.truthy last && allChars isDigit last) || match parseIPv4Number last with Some _ => true | None => false end
  | [] => false
  end.

(** Modelled from the spec: step 3, the address of such a host. The 32-bit
    value of one to four numbers: each but the last is one octet, the last
    fills the octets that are left ([slots] of them). *)
Fixpoint ipv4Value (slots : nat) (numbers : list N) : option N :=
  match numbers with
  | [] => None
  | n :: rest =>
      match rest, slots with
      | [], S _ => if (n <? 256 ^ N.of_nat slots)%N then Some n else None
      | _ :: _, S slots' =>
          if (n <=? 255)%N then
            match ipv4Value slots' rest with
            | Some v => Some (n * 256 ^ N.of_nat slots' + v)%N
            | None => None
            end
          else None
      | _, O => None
      end
  end.

(** Modelled from the spec: step 3, the hostname of such a URL. A host that
    ends in a number is an IPv4 address in any of the notations above
    ([127.1], [0x7f.0.0.1], [2130706433]); it is returned in dotted decimal
    notation, and the URL is malformed when it is none. *)
Definition parseIPv4Host (host : string) : option string :=
  match parseAll parseIPv4Number (hostParts host) with
  | Some numbers =>
      match ipv4Value 4 numbers with
      | Some v =>
          Some (dotted (v / 16777216) ((v / 65536) mod 256) ((v / 256) mod 256) (v mod 256))%N
      | None => None
      end
  | None => None
  end.

(** Modelled from the spec: step 3, "Extract the hostname". A host in
    brackets has to be an IPv6 literal and is returned as written, with its
    brackets. Any other host is percent-decoded and lower-cased; it is
    refused when it holds a character that no domain holds, and read as an
    IPv4 address when it ends in a number. *)
Definition parseHost (host : string) : option string :=
  match host with
  | EmptyString => None
  | String "[" rest =>
      match splitFirst "]" rest with
      | Some (inner, EmptyString) =>
          match parseIPv6 inner with
          | Some _ => Some host
          | None => None
          end
      | _ => None
      end
  | _ =>
      let domain := Js.toLowerCase (percentDecode host) in
      if negb (allChars (fun c => negb (forbiddenHostChar c)) domain) then None
      else if endsInNumber domain then parseIPv4Host domain
      else Some domain
  end.

(** Modelled from the spec: step 1, which refuses a malformed port. A
    port: digits, at most 65535; it may be empty. *)
Definition portOk (port : string) : bool :=
  match parseDigits digitValue 10 0 port with
  | Some n => (n <=? 65535)%N
  | None => false
  end.

(** Modelled from the spec: step 3, the host of [host], [host:port],
    [[v6]] or [[v6]:port]. *)
Definition parseHostPort (hostport : string) : option string :=
  match hostport with
  | String "[" rest =>
      match splitFirst "]" rest with
      | Some (inner, after) =>
          match after with
          | EmptyString => parseHost ("[" ++ inner ++ "]")
          | String ":" port => if portOk port then parseHost ("[" ++ inner ++ "]") else None
          | _ => None
          end
      | None => None
      end
  | _ =>
      match splitFirst ":" hostport with
      | Some (host, port) => if portOk port then parseHost host else None
      | None => parseHost hostport
      end
  end.

(** Modelled from the spec: step 3, the host is read from the authority
    without its credentials: what follows its last [@]. *)
Definition withoutCredentials (authority : string) : string :=
  match splitLast "@" authority with
  | Some (_, hostport) => hostport
  | None => authority
  end.

(** Modelled from the spec: step 1, "Parse the URL; malformed input is
    rejected". Spaces and control characters around the URL and tabs and
    newlines inside it are dropped. The scheme is what precedes the first
    colon, a letter followed by letters, digits, [+], [-] and [.], in lower
    case. For [http], [https], [ws], [wss] and [ftp] the authority follows
    any number of slashes and backslashes and runs to the next [/], [?],
    [#] or [\]; its host is what follows the credentials (up to the last
    [@]) and precedes the port. A URL of another scheme is not read any
    further. *)
Definition parseUrl (url : string) : option Url :=
  let input := remove isTabOrNewline
                 (dropWhileEnd isControlOrSpace (dropWhile isControlOrSpace url)) in
  match splitFirst ":" input with
  | None => None
  | Some (sch, rest) =>
      match sch with
      | EmptyString => None
      | String c _ =>
          if negb (isLetter c && allChars isSchemeChar sch) then None
          else
            let scheme := Js.toLowerCase sch in
            if negb (existsb (String.eqb scheme) specialSchemes)
            then Some (mkUrl scheme "")
            else
              let authority := takeUntil endsAuthority (dropWhile isSlash rest) in
              match parseHostPort (withoutCredentials authority) with
              | Some host => Some (mkUrl scheme host)
              | None => None
              end
      end
  end.

(** Modelled from the spec: step 3, "If it is a literal bracketed IPv6
    address, unwrap brackets". *)
Definition unwrapBrackets (h : string) : string :=
  match h with
  | String "[" rest =>
      match splitFirst "]" rest with
      | Some (inner, EmptyString) => inner
      | _ => h
      end
  | _ => h
  end.

(** *** Step 4: the hostname blocklist *)

(** Modelled from the spec: the "known-dangerous literal hostnames" that
    step 4 names. *)
Definition blocklist : list string := [ "localhost"; "metadata.google.internal" ].

(** Modelled from the spec: "exact or substring match". *)
Definition blocklisted (h : string) : bool :=
  existsb (fun b => String.eqb h b || Js.includes h b) blocklist.

(** *** Step 5: literal addresses *)

(** Modelled from the spec: loopback [127.0.0.0/8]; RFC1918 [10/8],
    [172.16/12], [192.168/16]; link-local [169.254/16]. *)
Definition classifyIPv4 (ip : N * N * N * N) : AddressClass :=
  let '(a, b, _, _) := ip in
  if (a =? 127)%N then Loopback
  else if (a =? 10)%N then PrivateRange
  else if ((a =? 172) && (16 <=? b) && (b <=? 31))%N then PrivateRange
  else if ((a =? 192) && (b =? 168))%N then PrivateRange
  else if ((a =? 169) && (b =? 254))%N then LinkLocal
  else PublicAddress.

Fixpoint eqbGroups (x y : list N) : bool :=
  match x, y with
  | [], [] => true
  | a :: x', b :: y' => (a =? b)%N && eqbGroups x' y'
  | _, _ => false
  end.

(** Modelled from the spec: loopback [::1]; link-local [fe80::/10] (the top
    ten bits of the first group); unique-local [fc00::/7] (its top seven). *)
Definition classifyIPv6 (g : list N) : AddressClass :=
  if eqbGroups g [0; 0; 0; 0; 0; 0; 0; 1]%N then Loopback
  else match g with
       | g0 :: _ =>
           if (N.shiftr g0 6 =? N.shiftr 65152 6)%N then LinkLocal     (* 0xfe80 *)
           else if (N.shiftr g0 9 =? N.shiftr 64512 9)%N then UniqueLocal (* 0xfc00 *)
           else PublicAddress
       | [] => PublicAddress
       end.

(** Modelled from the spec: IPv4-mapped IPv6 notation [::ffff:a.b.c.d]
    unwrapped "to its embedded IPv4 form". The groups have been read as
    hexadecimal numbers whatever the case of their letters, so [::FFFF:] and
    [::ffff:] are the same here, as are the other ways of writing the
    address ([::ffff:7f00:1], [0:0:0:0:0:ffff:127.0.0.1]). *)
Definition unwrapMapped (g : list N) : option (N * N * N * N) :=
  match g with
  | [g0; g1; g2; g3; g4; g5; hi; lo] =>
      if eqbGroups [g0; g1; g2; g3; g4; g5] [0; 0; 0; 0; 0; 65535]%N
      then Some (hi / 256, hi mod 256, lo / 256, lo mod 256)%N
      else None
  | _ => None
  end.

(** Modelled from the spec: step 6 classifies "the resolved address". An
    address as the resolver reports it may name its interface after a [%]
    ([fe80::1%eth0]). *)
Definition withoutZone (address : string) : string :=
  takeUntil (Ascii.eqb "%") address.

(** Modelled from the spec: step 5. [None] when the text is not a literal
    address; the mapped notation is unwrapped first and its embedded address
    classified as IPv4. *)
Definition classifyLiteral (h : string) : option AddressClass :=
  match parseIPv4 h with
  | Some ip => Some (classifyIPv4 ip)
  | None =>
      match parseIPv6 (withoutZone h) with
      | Some g =>
          match unwrapMapped g with
          | Some ip => Some (classifyIPv4 ip)
          | None => Some (classifyIPv6 g)
          end
      | None => None
      end
  end.

(** Modelled from the spec: the classes that step 5 rejects (all but the
    public one). *)
Definition internal (c : AddressClass) : bool :=
  match c with
  | PublicAddress => false
  | _ => true
  end.

(** *** Steps 1 to 7 *)

(** Modelled from the spec: [validateRemoteOrigin(url)] with its injected
    resolver. The second component lists the hostnames handed to the
    resolver during the call. *)
Definition validateRemoteOrigin (resolve : string -> DnsAnswer) (url : string)
    : Verdict * list string :=
  match parseUrl url with
  | None => (Rejected MalformedUrl NoDetail, [])
  | Some u =>
      if negb (String.eqb (scheme u) "https") then (Rejected NotHttps NoDetail, [])
      else
        let h := unwrapBrackets (hostname u) in
        if blocklisted h then (Rejected HostnameBlocklisted NoDetail, [])
        else
          match classifyLiteral h with
          | Some c =>
              if internal c
              then (Rejected LiteralPrivateAddress (AddressDetail c), [])
              else (Allowed, [])
          | None =>
              match resolve h with
              | DnsNotFound => (Rejected ResolutionFailed CouldNotBeResolved, [h])
              | DnsOtherError => (Rejected ResolutionFailed FailedToValidateDomain, [h])
              | DnsAddress address =>
                  match classifyLiteral address with
                  | Some c =>
                      if internal c
                      then (Rejected ResolvesToPrivateAddress (AddressDetail c), [h])
                      else (Allowed, [h])
                  | None => (Allowed, [h])
                  end
              end
          end
  end.

End Validator.

(** ** Vocabulary of the statements about the validator *)

(** The character [c] is one of [set]. *)
Definition charIn (set : string) (c : ascii) : bool := hasChar c set.

(** Neither a space nor a control character. *)
Definition isVisible (c : ascii) : bool := (32 <? nat_of_ascii c)%nat.

(** The number that a text of digits writes in a base: the digit at
    position [i] from the right counts [base ^ i] times. *)
Fixpoint indexOf (c : ascii) (s : string) : option N :=
  match s with
  | EmptyString => None
  | String x s' =>
      if Ascii.eqb x c then Some 0%N
      else match indexOf c s' with Some i => Some (i + 1)%N | None => None end
  end.

Fixpoint numberOf (digit : ascii -> option N) (base : N) (t : string) : option N :=
  match t with
  | EmptyString => Some 0%N
  | String c t' =>
      match digit c, numberOf digit base t' with
      | Some d, Some n => Some (d * base ^ N.of_nat (String.length t') + n)%N
      | _, _ => None
      end
  end.

Definition decimalDigit (c : ascii) : option N := indexOf c "0123456789".

Definition hexDigit (c : ascii) : option N :=
  indexOf (Js.lower_ascii c) "0123456789abcdef".

Definition decimalNumber : string -> option N := numberOf decimalDigit 10.
Definition hexNumber : string -> option N := numberOf hexDigit 16.

(** A character of an authority: visible and none of [/ ? # \]. *)
Definition isAuthorityChar (c : ascii) : bool :=
  isVisible c && negb (charIn "/?#\" c).

(** The credentials and the port of a URL, as they stand around the
    host. *)
Definition credentialsText (credentials : option string) : string :=
  match credentials with Some u => u ++ "@" | None => "" end.

Definition portText (port : option string) : string :=
  match port with Some p => ":" ++ p | None => "" end.

(** The text of a URL: a scheme, a colon, slashes, an authority made of
    optional credentials, a host and an optional port, and the rest. *)
Definition urlText (sch slashes : string) (credentials : option string) (host : string)
    (port : option string) (rest : string) : string :=
  sch ++ ":" ++ slashes ++ credentialsText credentials ++ host ++ portText port ++ rest.

(** What the parts of an [https] URL around its host have to be: the scheme
    is [https] in any letter case; the slashes are any number of [/] and
    [\]; the credentials are characters of an authority ([@] among them);
    the port is written in digits and is at most 65535; the rest is empty
    or starts a path, a query or a fragment, and is made of visible
    characters. *)
Definition httpsParts (sch slashes : string) (credentials : option string)
    (port : option string) (rest : string) : bool :=
  String.eqb (Js.toLowerCase sch) "https"
  && allChars (charIn "/\") slashes
  && match credentials with
     | Some u => allChars isAuthorityChar u
     | None => true
     end
  && match port with
     | Some p => match decimalNumber p with Some n => (n <=? 65535)%N | None => false end
     | None => true
     end
  && match rest with EmptyString => true | String c _ => charIn "/?#\" c end
  && allChars isVisible rest.

(** A domain name: labels separated by dots, with or without a dot at the
    end. A label is made of visible ASCII characters other than the dot and
    those that no host holds ([# % / : < > ? @ [ \ ] ^ |]); the last label
    is not empty and is not a number. *)
Definition isLabelChar (c : ascii) : bool :=
  isVisible c && (nat_of_ascii c <? 127)%nat && negb (charIn "#%/:<>?@[\]^|." c).

(** A label that is a number in a host: digits only, or [0x] followed by
    hexadecimal digits only. *)
Definition isNumberLabel (t : string) : bool :=
  allChars (charIn "0123456789") t
  || match t with
     | String z (String x r) =>
         Ascii.eqb z "0" && charIn "xX" x && allChars (charIn "0123456789abcdefABCDEF") r
     | _ => false
     end.

Definition domainText (labels : list string) (last : string) (dot : bool) : string :=
  String.concat "." (labels ++ [last]) ++ (if dot then "." else "").

Definition domainParts (labels : list string) (last : string) : bool :=
  forallb (allChars isLabelChar) labels && allChars isLabelChar last
  && Js.truthy last && negb (isNumberLabel last).

(** An IP address: the four octets of version 4, the eight groups of
    version 6. *)
Inductive IpAddress :=
| IPv4 (a b c d : N)
| IPv6 (groups : list N).

(** [t] writes the group [n]: one to four hexadecimal digits, of either
    case. *)
Definition groupText (n : N) (t : string) : Prop :=
  (1 <= String.length t <= 4)%nat /\ hexNumber t = Some n.

(** [t] writes the two groups [hi] and [lo] as a dotted IPv4 address. *)
Definition quadText (hi lo : N) (t : string) : Prop :=
  exists a b c d,
    (a < 256 /\ b < 256 /\ c < 256 /\ d < 256)%N /\
    hi = (256 * a + b)%N /\ lo = (256 * c + d)%N /\ t = Validator.dotted a b c d.

(** The texts between colons that write a run of groups: one for each
    group, or a dotted address for the last two. *)
Inductive piecesText : list N -> list string -> Prop :=
| pieces_nil : piecesText [] []
| pieces_quad (hi lo : N) (t : string) :
    quadText hi lo t -> piecesText [hi; lo] [t]
| pieces_cons (n : N) (t : string) (gs : list N) (ts : list string) :
    groupText n t -> piecesText gs ts -> piecesText (n :: gs) (t :: ts).

(** The texts of an IPv6 address (RFC 4291): its eight groups separated by
    colons, or with [::] in the place of one or more groups that are 0; in
    both, the last two groups may be written as a dotted IPv4 address. *)
Inductive ipv6Text (g : list N) : string -> Prop :=
| text_full (ts : list string) :
    List.length g = 8%nat -> piecesText g ts ->
    ipv6Text g (String.concat ":" ts)
| text_compressed (gl gr : list N) (k : nat) (tl tr : list string) :
    g = (gl ++ repeat 0%N k ++ gr)%list -> List.length g = 8%nat -> (1 <= k)%nat ->
    Forall2 groupText gl tl -> piecesText gr tr ->
    ipv6Text g (String.concat ":" tl ++ "::" ++ String.concat ":" tr).

(** The texts of an address: dotted decimal for version 4; for version 6
    any of the above, with or without the name of an interface after [%]. *)
Inductive textOf : IpAddress -> string -> Prop :=
| text_v4 (a b c d : N) :
    (a < 256)%N -> (b < 256)%N -> (c < 256)%N -> (d < 256)%N ->
    textOf (IPv4 a b c d) (Validator.dotted a b c d)
| text_v6 (g : list N) (t : string) :
    ipv6Text g t -> textOf (IPv6 g) t
| text_v6_zone (g : list N) (t zone : string) :
    ipv6Text g t -> textOf (IPv6 g) (t ++ "%" ++ zone).

(** The loopback, private and link-local ranges of IPv4 written out:
    127.x, 10.x, 172.16-31.x, 192.168.x, 169.254.x. *)
Definition listedIPv4 (a b : N) : Prop :=
  a = 127%N \/ a = 10%N \/ (a = 172%N /\ (16 <= b <= 31)%N) \/
  (a = 192%N /\ b = 168%N) \/ (a = 169%N /\ b = 254%N).

(** The addresses that are internal: the ranges above; [::1], [fe80::/10]
    (first group [fe80] to [febf]) and [fc00::/7] (first group [fc00] to
    [fdff]); and the IPv4-mapped addresses [::ffff:a.b.c.d] of the ranges
    above. *)
Definition internalIp (ip : IpAddress) : Prop :=
  match ip with
  | IPv4 a b _ _ => listedIPv4 a b
  | IPv6 g =>
      g = [0; 0; 0; 0; 0; 0; 0; 1]%N \/
      (exists g0 rest, g = g0 :: rest /\
         ((65152 <= g0 <= 65215)%N \/ (64512 <= g0 <= 65023)%N)) \/
      (exists hi lo, g = [0; 0; 0; 0; 0; 65535; hi; lo]%N /\
         listedIPv4 (hi / 256) (hi mod 256))
  end.

(** ** Vocabulary of the proofs about the validator *)

Definition octetText (a : N) : string := Js.show_Z (Z.of_N a).

(** [P] holds of the [count] numbers from [n] on. *)
Fixpoint checkFrom (P : N -> bool) (n : N) (count : nat) : bool :=
  match count with
  | O => true
  | S k => P n && checkFrom P (N.succ n) k
  end.

(** The characters of a dotted address, of a piece of an IPv6 literal and
    of the literal. *)
Definition isDigitOrDot (c : ascii) : bool := charIn "0123456789." c.
Definition isHexOrDot (c : ascii) : bool := charIn "0123456789abcdefABCDEF." c.
Definition isAddressChar (c : ascii) : bool := isHexOrDot c || Ascii.eqb c ":".

(** A piece between colons: not empty, made of hexadecimal digits and
    dots. *)
Definition pieceOk (t : string) : Prop := t <> "" /\ allChars isHexOrDot t = true.

(** The class that step 5 gives to the groups of an address. *)
Definition classOfGroups (g : list N) : Validator.AddressClass :=
  match Validator.unwrapMapped g with
  | Some ip => Validator.classifyIPv4 ip
  | None => Validator.classifyIPv6 g
  end.

Definition isLabelOrDot (c : ascii) : bool := isLabelChar c || Ascii.eqb c ".".

(** A character of a host or a port: one of an authority, and not [@]. *)
Definition isHostPortChar (c : ascii) : bool :=
  isAuthorityChar c && negb (Ascii.eqb c "@").

(** The verdict on a class of literal address. *)
Definition literalVerdict (c : Validator.AddressClass) : Validator.Verdict :=
  if Validator.internal c
  then Validator.Rejected Validator.LiteralPrivateAddress (Validator.AddressDetail c)
  else Validator.Allowed.

(** ** The generation methods of [BflAPI]

    [src/api.ts], lines 239 to 665. A payload is the object literal the
    method builds, as the list of its properties in the order written; a
    spread [...(c && { k: v })] adds the property when [c] is truthy. *)

(** A JavaScript number: a rational, or one of the three numbers that are
    none. *)
Inductive JsNumber :=
| Finite (q : Q)
| NaN
| Infinity
| NegInfinity.

Inductive JsValue :=
| JUndefined
| JNum (n : JsNumber)
| JStr (s : string)
| JBool (b : bool).

Definition Payload : Type := list (string * JsValue).

(** [...(c && { k: v })] *)
Definition spreadIf (c : bool) (k : string) (v : JsValue) : Payload :=
  if c then [(k, v)] else [].

(** The value of property [k] of an object. *)
Fixpoint payloadGet (k : string) (p : Payload) : option JsValue :=
  match p with
  | [] => None
  | (k', v) :: rest => if String.eqb k k' then Some v else payloadGet k rest
  end.

(** The parameter object handed to a generation method: every property the
    methods read ([FluxDevParams], ..., [Flux2Params] of the types module),
    [None] when the caller left it [undefined]. A method reads its own
    properties and ignores the others. *)
Module Params.

Record t := mk {
  prompt : option string;
  seed : option JsNumber;
  safety_tolerance : option JsNumber;
  output_format : option string;
  width : option JsNumber;
  height : option JsNumber;
  steps : option JsNumber;
  guidance : option JsNumber;
  prompt_upsampling : option bool;
  image_prompt : option string;
  aspect_ratio : option string;
  raw : option bool;
  image_prompt_strength : option JsNumber;
  image : option string;
  mask : option string;
  finetune_id : option string;
  finetune_strength : option JsNumber;
  top : option JsNumber;
  bottom : option JsNumber;
  left : option JsNumber;
  right : option JsNumber;
  input_image : option string;
  input_image_2 : option string;
  input_image_3 : option string;
  input_image_4 : option string;
  input_image_5 : option string;
  input_image_6 : option string;
  input_image_7 : option string;
  input_image_8 : option string
}.

(** The object with no property set. *)
Definition empty : t :=
  mk None None None None None None None None None None None None None None None
     None None None None None None None None None None None None None None.

End Params.

(** A possibly [undefined] value as a payload value. *)
Definition ofStr (o : option string) : JsValue :=
  match o with Some s => JStr s | None => JUndefined end.
Definition ofNum (o : option JsNumber) : JsValue :=
  match o with Some n => JNum n | None => JUndefined end.
Definition ofBool (o : option bool) : JsValue :=
  match o with Some b => JBool b | None => JUndefined end.

(** Truthiness of a possibly [undefined] number: [0] and [NaN] are falsy. *)
Definition truthy_num (o : option JsNumber) : bool :=
  match o with
  | Some (Finite q) => negb (Qeq_bool q 0)
  | Some NaN => false
  | Some Infinity | Some NegInfinity => true
  | None => false
  end.

(** [x !== undefined] *)
Definition defined {A : Type} (o : option A) : bool :=
  match o with Some _ => true | None => false end.

(** [n || d] on numbers, [s || d] on strings, [b || false] on booleans. *)
Definition numOr (o : option JsNumber) (d : Q) : JsValue :=
  if truthy_num o then ofNum o else JNum (Finite d).
Definition strOr (o : option string) (d : string) : JsValue :=
  if Js.truthy_opt o then ofStr o else JStr d.
Definition boolOrFalse (o : option bool) : JsValue :=
  match o with Some true => JBool true | _ => JBool false end.

(** [ModelEndpointKey] and [MODEL_ENDPOINTS] of the configuration. *)
Inductive ModelEndpointKey :=
| flux_dev
| flux_pro
| flux_ultra
| flux_pro_fill
| flux_pro_fill_finetuned
| flux_pro_expand
| kontext_pro
| kontext_max
| flux_2_pro
| flux_2_flex.

Definition MODEL_ENDPOINTS (k : ModelEndpointKey) : string :=
  match k with
  | flux_dev => "/v1/flux-dev"
  | flux_pro => "/v1/flux-pro-1.1"
  | flux_ultra => "/v1/flux-pro-1.1-ultra"
  | flux_pro_fill => "/v1/flux-pro-1.0-fill"
  | flux_pro_fill_finetuned => "/v1/flux-pro-1.0-fill-finetuned"
  | flux_pro_expand => "/v1/flux-pro-1.0-expand"
  | kontext_pro => "/v1/flux-kontext-pro"
  | kontext_max => "/v1/flux-kontext-max"
  | flux_2_pro => "/v1/flux-2-pro"
  | flux_2_flex => "/v1/flux-2-flex"
  end.

(** The payload of [generateFluxDev]. *)
Definition fluxDevPayload (params : Params.t) : Payload :=
  ([ ("prompt", ofStr (Params.prompt params));
     ("width", numOr (Params.width params) 1024);
     ("height", numOr (Params.height params) 768);
     ("steps", numOr (Params.steps params) 28);
     ("guidance", numOr (Params.guidance params) 3) ]
   ++ spreadIf (defined (Params.seed params)) "seed" (ofNum (Params.seed params))
   ++ spreadIf (defined (Params.safety_tolerance params)) "safety_tolerance"
               (ofNum (Params.safety_tolerance params))
   ++ spreadIf (Js.truthy_opt (Params.output_format params)) "output_format"
               (ofStr (Params.output_format params))
   ++ spreadIf (defined (Params.prompt_upsampling params)) "prompt_upsampling"
               (ofBool (Params.prompt_upsampling params)))%list.

(** The payload of [generateFluxPro]. *)
Definition fluxProPayload (params : Params.t) : Payload :=
  ([ ("prompt", ofStr (Params.prompt params));
     ("width", numOr (Params.width params) 1024);
     ("height", numOr (Params.height params) 768) ]
   ++ spreadIf (Js.truthy_opt (Params.image_prompt params)) "image_prompt"
               (ofStr (Params.image_prompt params))
   ++ spreadIf (defined (Params.seed params)) "seed" (ofNum (Params.seed params))
   ++ spreadIf (defined (Params.safety_tolerance params)) "safety_tolerance"
               (ofNum (Params.safety_tolerance params))
   ++ spreadIf (Js.truthy_opt (Params.output_format params)) "output_format"
               (ofStr (Params.output_format params))
   ++ spreadIf (defined (Params.prompt_upsampling params)) "prompt_upsampling"
               (ofBool (Params.prompt_upsampling params)))%list.

(** The payload of [generateFluxProUltra]. *)
Definition fluxProUltraPayload (params : Params.t) : Payload :=
  ([ ("prompt", ofStr (Params.prompt params));
     ("aspect_ratio", strOr (Params.aspect_ratio params) "16:9");
     ("raw", boolOrFalse (Params.raw params)) ]
   ++ spreadIf (Js.truthy_opt (Params.image_prompt params)) "image_prompt"
               (ofStr (Params.image_prompt params))
   ++ spreadIf (defined (Params.image_prompt_strength params)) "image_prompt_strength"
               (ofNum (Params.image_prompt_strength params))
   ++ spreadIf (defined (Params.seed params)) "seed" (ofNum (Params.seed params))
   ++ spreadIf (defined (Params.safety_tolerance params)) "safety_tolerance"
               (ofNum (Params.safety_tolerance params))
   ++ spreadIf (Js.truthy_opt (Params.output_format params)) "output_format"
               (ofStr (Params.output_format params)))%list.

(** The payload of [generateFluxProFill]. *)
Definition fluxProFillPayload (params : Params.t) : Payload :=
  ([ ("image", ofStr (Params.image params));
     ("prompt", ofStr (Params.prompt params)) ]
   ++ spreadIf (Js.truthy_opt (Params.mask params)) "mask" (ofStr (Params.mask params))
   ++ spreadIf (defined (Params.steps params)) "steps" (ofNum (Params.steps params))
   ++ spreadIf (defined (Params.guidance params)) "guidance" (ofNum (Params.guidance params))
   ++ spreadIf (defined (Params.seed params)) "seed" (ofNum (Params.seed params))
   ++ spreadIf (defined (Params.safety_tolerance params)) "safety_tolerance"
               (ofNum (Params.safety_tolerance params))
   ++ spreadIf (Js.truthy_opt (Params.output_format params)) "output_format"
               (ofStr (Params.output_format params))
   ++ spreadIf (defined (Params.prompt_upsampling params)) "prompt_upsampling"
               (ofBool (Params.prompt_upsampling params)))%list.

(** The payload of [generateFluxProFillFinetuned]. *)
Definition fluxProFillFinetunedPayload (params : Params.t) : Payload :=
  ([ ("finetune_id", ofStr (Params.finetune_id params));
     ("image", ofStr (Params.image params));
     ("prompt", strOr (Params.prompt params) "") ]
   ++ spreadIf (Js.truthy_opt (Params.mask params)) "mask" (ofStr (Params.mask params))
   ++ spreadIf (defined (Params.finetune_strength params)) "finetune_strength"
               (ofNum (Params.finetune_strength params))
   ++ spreadIf (defined (Params.steps params)) "steps" (ofNum (Params.steps params))
   ++ spreadIf (defined (Params.guidance params)) "guidance" (ofNum (Params.guidance params))
   ++ spreadIf (defined (Params.seed params)) "seed" (ofNum (Params.seed params))
   ++ spreadIf (defined (Params.safety_tolerance params)) "safety_tolerance"
               (ofNum (Params.safety_tolerance params))
   ++ spreadIf (Js.truthy_opt (Params.output_format params)) "output_format"
               (ofStr (Params.output_format params))
   ++ spreadIf (defined (Params.prompt_upsampling params)) "prompt_upsampling"
               (ofBool (Params.prompt_upsampling params)))%list.

(** The payload of [generateFluxProExpand]. *)
Definition fluxProExpandPayload (params : Params.t) : Payload :=
  ([ ("image", ofStr (Params.image params)) ]
   ++ spreadIf (defined (Params.top params)) "top" (ofNum (Params.top params))
   ++ spreadIf (defined (Params.bottom params)) "bottom" (ofNum (Params.bottom params))
   ++ spreadIf (defined (Params.left params)) "left" (ofNum (Params.left params))
   ++ spreadIf (defined (Params.right params)) "right" (ofNum (Params.right params))
   ++ spreadIf (Js.truthy_opt (Params.prompt params)) "prompt" (ofStr (Params.prompt params))
   ++ spreadIf (defined (Params.steps params)) "steps" (ofNum (Params.steps params))
   ++ spreadIf (defined (Params.guidance params)) "guidance" (ofNum (Params.guidance params))
   ++ spreadIf (defined (Params.seed params)) "seed" (ofNum (Params.seed params))
   ++ spreadIf (defined (Params.safety_tolerance params)) "safety_tolerance"
               (ofNum (Params.safety_tolerance params))
   ++ spreadIf (Js.truthy_opt (Params.output_format params)) "output_format"
               (ofStr (Params.output_format params))
   ++ spreadIf (defined (Params.prompt_upsampling params)) "prompt_upsampling"
               (ofBool (Params.prompt_upsampling params)))%list.

(** The payload of [generateKontextPro] and of [generateKontextMax]. *)
Definition kontextPayload (params : Params.t) : Payload :=
  ([ ("prompt", ofStr (Params.prompt params));
     ("input_image", ofStr (Params.input_image params)) ]
   ++ spreadIf (Js.truthy_opt (Params.input_image_2 params)) "input_image_2"
               (ofStr (Params.input_image_2 params))
   ++ spreadIf (Js.truthy_opt (Params.input_image_3 params)) "input_image_3"
               (ofStr (Params.input_image_3 params))
   ++ spreadIf (Js.truthy_opt (Params.input_image_4 params)) "input_image_4"
               (ofStr (Params.input_image_4 params))
   ++ spreadIf (defined (Params.seed params)) "seed" (ofNum (Params.seed params))
   ++ spreadIf (defined (Params.safety_tolerance params)) "safety_tolerance"
               (ofNum (Params.safety_tolerance params))
   ++ spreadIf (Js.truthy_opt (Params.output_format params)) "output_format"
               (ofStr (Params.output_format params)))%list.

(** The payload of [_generateFlux2]. *)
Definition flux2Payload (params : Params.t) : Payload :=
  ([ ("prompt", ofStr (Params.prompt params)) ]
   ++ (if defined (Params.prompt_upsampling params)
       then [ ("prompt_upsampling", ofBool (Params.prompt_upsampling params)) ]
       else [ ("prompt_upsampling", JBool true) ])
   ++ spreadIf (defined (Params.width params)) "width" (ofNum (Params.width params))
   ++ spreadIf (defined (Params.height params)) "height" (ofNum (Params.height params))
   ++ spreadIf (Js.truthy_opt (Params.input_image params)) "input_image"
               (ofStr (Params.input_image params))
   ++ spreadIf (Js.truthy_opt (Params.input_image_2 params)) "input_image_2"
               (ofStr (Params.input_image_2 params))
   ++ spreadIf (Js.truthy_opt (Params.input_image_3 params)) "input_image_3"
               (ofStr (Params.input_image_3 params))
   ++ spreadIf (Js.truthy_opt (Params.input_image_4 params)) "input_image_4"
               (ofStr (Params.input_image_4 params))
   ++ spreadIf (Js.truthy_opt (Params.input_image_5 params)) "input_image_5"
               (ofStr (Params.input_image_5 params))
   ++ spreadIf (Js.truthy_opt (Params.input_image_6 params)) "input_image_6"
               (ofStr (Params.input_image_6 params))
   ++ spreadIf (Js.truthy_opt (Params.input_image_7 params)) "input_image_7"
               (ofStr (Params.input_image_7 params))
   ++ spreadIf (Js.truthy_opt (Params.input_image_8 params)) "input_image_8"
               (ofStr (Params.input_image_8 params))
   ++ spreadIf (defined (Params.seed params)) "seed" (ofNum (Params.seed params))
   ++ spreadIf (defined (Params.safety_tolerance params)) "safety_tolerance"
               (ofNum (Params.safety_tolerance params))
   ++ spreadIf (Js.truthy_opt (Params.output_format params)) "output_format"
               (ofStr (Params.output_format params)))%list.

Section Generation.

(** The body of a POST is recorded in [req_data] as text: [serialize] is
    the rendering of the payload object that axios sends. *)
Variable serialize : Payload -> string.
Variables (env : Env) (api : BflAPI).

(** [_submitGeneration(modelKey, modelLabel, payload)] *)
Definition _submitGeneration (modelKey : ModelEndpointKey) (modelLabel : string)
    (payload : Payload) : M TaskResult :=
  try_catch
    (result <- _makeRequest env api "POST" (MODEL_ENDPOINTS modelKey)
                 (Some (serialize payload)) ;;
     log ApiLogger Info (modelLabel ++ " generation submitted: " ++ id result) None ;;;
     ret result)
    (fun err =>
       log ApiLogger LogError ("Error generating with " ++ modelLabel ++ ": "
                               ++ message err) None ;;;
       throw err).

(** [if (!x) throw new Error(msg)] *)
Definition require (x : option string) (msg : string) : M unit :=
  if negb (Js.truthy_opt x) then throw (Error msg) else ret tt.

Definition generateFluxDev (params : Params.t) : M TaskResult :=
  _verifyApiKey api ;;;
  _submitGeneration flux_dev "FLUX.1 [dev]" (fluxDevPayload params).

Definition generateFluxPro (params : Params.t) : M TaskResult :=
  _verifyApiKey api ;;;
  _submitGeneration flux_pro "FLUX 1.1 [pro]" (fluxProPayload params).

Definition generateFluxProUltra (params : Params.t) : M TaskResult :=
  _verifyApiKey api ;;;
  _submitGeneration flux_ultra "FLUX 1.1 [pro] Ultra" (fluxProUltraPayload params).

Definition generateFluxProFill (params : Params.t) : M TaskResult :=
  _verifyApiKey api ;;;
  require (Params.image params) "image is required for FLUX.1 Fill [pro]" ;;;
  require (Params.prompt params) "prompt is required for FLUX.1 Fill [pro]" ;;;
  _submitGeneration flux_pro_fill "FLUX.1 Fill [pro]" (fluxProFillPayload params).

Definition generateFluxProFillFinetuned (params : Params.t) : M TaskResult :=
  _verifyApiKey api ;;;
  require (Params.finetune_id params)
          "finetune_id is required for FLUX.1 Fill [pro] finetune" ;;;
  require (Params.image params) "image is required for FLUX.1 Fill [pro] finetune" ;;;
  _submitGeneration flux_pro_fill_finetuned "FLUX.1 Fill [pro] finetune"
                    (fluxProFillFinetunedPayload params).

Definition generateFluxProExpand (params : Params.t) : M TaskResult :=
  _verifyApiKey api ;;;
  require (Params.image params) "image is required for FLUX.1 Expand [pro]" ;;;
  _submitGeneration flux_pro_expand "FLUX.1 Expand [pro]" (fluxProExpandPayload params).

Definition generateKontextPro (params : Params.t) : M TaskResult :=
  _verifyApiKey api ;;;
  require (Params.input_image params) "input_image is required for Kontext Pro" ;;;
  _submitGeneration kontext_pro "Kontext Pro" (kontextPayload params).

Definition generateKontextMax (params : Params.t) : M TaskResult :=
  _verifyApiKey api ;;;
  require (Params.input_image params) "input_image is required for Kontext Max" ;;;
  _submitGeneration kontext_max "Kontext Max" (kontextPayload params).

(** [_generateFlux2(modelKey, modelLabel, params)] *)
Definition _generateFlux2 (modelKey : ModelEndpointKey) (modelLabel : string)
    (params : Params.t) : M TaskResult :=
  _verifyApiKey api ;;;
  _submitGeneration modelKey modelLabel (flux2Payload params).

Definition generateFlux2Pro (params : Params.t) : M TaskResult :=
  _generateFlux2 flux_2_pro "FLUX.2 [PRO]" params.

Definition generateFlux2Flex (params : Params.t) : M TaskResult :=
  _generateFlux2 flux_2_flex "FLUX.2 [FLEX]" params.

End Generation.

(** ** [promptToFilename] of [src/utils.js]

    Characters are code units below 256. [toLowerCase] is [Js.toLowerCase];
    the code units above 127 that JavaScript would also lower-case are
    deleted by the first [replace] whether lower-cased or not. *)

(** The class [\s] among the code units below 256: tab, line feed, vertical
    tab, form feed, carriage return, space and no-break space. *)
Definition isSpace (c : ascii) : bool :=
  let n := nat_of_ascii c in
  ((9 <=? n) && (n <=? 13))%nat || (n =? 32)%nat || (n =? 160)%nat.

Definition isLowerAlnum (c : ascii) : bool :=
  let n := nat_of_ascii c in
  ((97 <=? n) && (n <=? 122))%nat || ((48 <=? n) && (n <=? 57))%nat.

(** [.replace(/[^a-z0-9\s-]/g, '')] *)
Fixpoint removeOthers (s : string) : string :=
  match s with
  | EmptyString => EmptyString
  | String c s' =>
      if isLowerAlnum c || isSpace c || Ascii.eqb c "-"
      then String c (removeOthers s')
      else removeOthers s'
  end.

(** [.replace(/C+/g, r)] for a character class [C]: every maximal run of
    characters of the class becomes one [r]. [inRun] tells that the
    character before was of the class. *)
Fixpoint replaceRuns (cls : ascii -> bool) (r : ascii) (inRun : bool) (s : string)
    : string :=
  match s with
  | EmptyString => EmptyString
  | String c s' =>
      if cls c then
        if inRun then replaceRuns cls r true s'
        else String r (replaceRuns cls r true s')
      else String c (replaceRuns cls r false s')
  end.

Fixpoint stripLeading (c : ascii) (s : string) : string :=
  match s with
  | EmptyString => EmptyString
  | String x s' => if Ascii.eqb x c then stripLeading c s' else s
  end.

Fixpoint stripTrailing (c : ascii) (s : string) : string :=
  match s with
  | EmptyString => EmptyString
  | String x s' =>
      match stripTrailing c s' with
      | EmptyString => if Ascii.eqb x c then EmptyString else String x EmptyString
      | t => String x t
      end
  end.

(** The chain of [replace] calls of [promptToFilename]; the last one,
    [.replace(/^_+|_+$/g, '')], takes off the leading and the trailing run
    of underscores. *)
Definition sanitizePrompt (prompt : string) : string :=
  stripTrailing "_"
    (stripLeading "_"
       (replaceRuns (fun c => Ascii.eqb c "-") "_" false
          (replaceRuns isSpace "_" false
             (removeOthers (Js.toLowerCase prompt))))).

(** [promptToFilename(prompt, maxLength = 50)], [maxLength] a natural
    number. *)
Definition promptToFilename (prompt : string) (maxLength : option nat) : string :=
  let maxLength := match maxLength with Some m => m | None => 50%nat end in
  let filename := sanitizePrompt prompt in
  let filename :=
    if (maxLength <? String.length filename)%nat
    then substring 0 maxLength filename
    else filename in
  if negb (Js.truthy filename) then "image" else filename.

(** An ASCII character. *)
Definition isAscii (c : ascii) : bool := (nat_of_ascii c <? 128)%nat.

(** A character of a file name that [promptToFilename] can return. *)
Definition isFilenameChar (c : ascii) : bool := isLowerAlnum c || Ascii.eqb c "_".

(** The first and the last character of a string. *)
Definition firstChar (s : string) : option ascii :=
  match s with EmptyString => None | String c _ => Some c end.

Fixpoint lastChar (s : string) : option ascii :=
  match s with
  | EmptyString => None
  | String c EmptyString => Some c
  | String _ s' => lastChar s'
  end.

(** ** [validateModelParams] of the configuration

    [src/utils.js], lines 539 to 856. A parameter object is a [Params.t]
    ([None] for a property that is [undefined]), the bounds of the table are
    rationals, and [env] renders the numbers of the messages. *)

Module Constraints.

(** [{ min, max }] and [{ min, max, divisibleBy }]. *)
Record Range := mkRange {
  min : Q;
  max : Q;
  divisibleBy : option Z
}.

(** The constraints of one model; [None] for a property the entry does not
    have. *)
Record t := mk {
  width : option Range;
  height : option Range;
  steps : option Range;
  guidance : option Range;
  aspectRatios : option (list string);
  raw : option (list bool);
  imagePromptStrength : option Range;
  safetyTolerance : option Range;
  finetuneStrength : option Range;
  outputFormats : option (list string);
  top : option Range;
  bottom : option Range;
  left : option Range;
  right : option Range;
  promptMaxLength : option Z;
  maxInputImages : option Z
}.

(** An object with none of these properties. *)
Definition none : t :=
  mk None None None None None None None None None None None None None None None None.

End Constraints.

Definition range (a b : Q) : option Constraints.Range :=
  Some (Constraints.mkRange a b None).
Definition size (a b : Q) (d : Z) : option Constraints.Range :=
  Some (Constraints.mkRange a b (Some d)).

Definition aspectRatioList : list string :=
  ["21:9"; "16:9"; "4:3"; "1:1"; "3:4"; "9:16"; "9:21"].

(** The names that every object inherits from [Object.prototype]. Looking
    one of them up in [MODEL_CONSTRAINTS] finds the inherited function (for
    [__proto__], the prototype itself): a truthy value with none of the
    properties that [validateModelParams] reads. *)
Definition objectPrototypeNames : list string :=
  [ "constructor"; "__defineGetter__"; "__defineSetter__"; "hasOwnProperty";
    "__lookupGetter__"; "__lookupSetter__"; "isPrototypeOf"; "propertyIsEnumerable";
    "toString"; "valueOf"; "__proto__"; "toLocaleString" ].

(** [MODEL_CONSTRAINTS[model]]; [None] is [undefined]. *)
Definition MODEL_CONSTRAINTS (model : string) : option Constraints.t :=
  if String.eqb model "flux-dev" then
    Some (Constraints.mk (size 256 1440 32) (size 256 1440 32) (range 1 50)
            (range (3 # 2) 5) None None None None None None None None None None
            (Some 10000%Z) None)
  else if String.eqb model "flux-pro" then
    Some (Constraints.mk (size 256 1440 32) (size 256 1440 32) None None None None
            None None None None None None None None (Some 10000%Z) None)
  else if String.eqb model "flux-ultra" then
    Some (Constraints.mk None None None None (Some aspectRatioList)
            (Some [true; false]) (range 0 1) None None None None None None None
            (Some 10000%Z) None)
  else if String.eqb model "flux-pro-fill" then
    Some (Constraints.mk None None (range 15 50) (range (3 # 2) 100) None None None
            (range 0 6) None (Some ["jpeg"; "png"]) None None None None
            (Some 10000%Z) None)
  else if String.eqb model "flux-pro-fill-finetuned" then
    Some (Constraints.mk None None (range 15 50) (range (3 # 2) 100) None None None
            (range 0 6) (range 0 2) (Some ["jpeg"; "png"]) None None None None
            (Some 10000%Z) None)
  else if String.eqb model "flux-pro-expand" then
    Some (Constraints.mk None None (range 15 50) (range (3 # 2) 100) None None None
            (range 0 6) None (Some ["jpeg"; "png"])
            (range 0 2048) (range 0 2048) (range 0 2048) (range 0 2048)
            (Some 10000%Z) None)
  else if String.eqb model "kontext-pro" then
    Some (Constraints.mk None None None None (Some aspectRatioList) None None None
            None None None None None None (Some 10000%Z) None)
  else if String.eqb model "kontext-max" then
    Some (Constraints.mk None None None None (Some aspectRatioList) None None None
            None None None None None None (Some 10000%Z) None)
  else if String.eqb model "flux-2-pro" then
    Some (Constraints.mk (size 64 2048 16) (size 64 2048 16) None None None None None
            (range 0 5) None (Some ["jpeg"; "png"]) None None None None
            (Some 10000%Z) (Some 8%Z))
  else if String.eqb model "flux-2-flex" then
    Some (Constraints.mk (size 64 2048 16) (size 64 2048 16) None None None None None
            (range 0 5) None (Some ["jpeg"; "png"]) None None None None
            (Some 10000%Z) (Some 8%Z))
  else if existsb (String.eqb model) objectPrototypeNames then Some Constraints.none
  else None.

(** [{ valid, errors }] *)
Record ValidationResult := mkValidationResult {
  valid : bool;
  errors : list string
}.

(** [x < m] and [x > m] for a number [x] and a rational [m]: a comparison
    with [NaN] is false. *)
Definition ltNum (x : JsNumber) (m : Q) : bool :=
  match x with
  | Finite q => Qltb q m
  | NegInfinity => true
  | NaN | Infinity => false
  end.

Definition gtNum (x : JsNumber) (m : Q) : bool :=
  match x with
  | Finite q => Qltb m q
  | Infinity => true
  | NaN | NegInfinity => false
  end.

(** [x < min || x > max] *)
Definition outOfRange (x : JsNumber) (r : Constraints.Range) : bool :=
  ltNum x (Constraints.min r) || gtNum x (Constraints.max r).

(** [x % d === 0] for a rational [x] and an integer [d]: [x] is an integer
    multiple of [d]. The remainder by 0 is [NaN]. *)
Definition remIsZero (x : Q) (d : Z) : bool :=
  negb (d =? 0)%Z && (Z.rem (Qnum x) (Z.pos (Qden x) * d) =? 0)%Z.

(** [x % divisibleBy !== 0]; the remainder of [NaN] or of an infinity, and
    the remainder by [undefined], are [NaN], which is not 0. *)
Definition notDivisible (x : JsNumber) (d : option Z) : bool :=
  match x, d with
  | Finite q, Some d => negb (remIsZero q d)
  | _, _ => true
  end.

(** The key of a property that the object has. *)
Definition spreadKey {A : Type} (k : string) (x : option A) : list string :=
  match x with Some _ => [k] | None => [] end.

Section ValidateModelParams.
Variable env : Env.
Variables (model : string) (params : Params.t) (constraints : Constraints.t).

Definition betweenMessage (label : string) (r : Constraints.Range) : string :=
  label ++ " must be between " ++ show_number env (Constraints.min r) ++ " and "
        ++ show_number env (Constraints.max r) ++ " for " ++ model.

(** The check of a parameter against [{ min, max }]: skipped when the
    parameter is [undefined] or the model has no such constraint. *)
Definition rangeCheck (label : string) (x : option JsNumber)
    (r : option Constraints.Range) : list string :=
  match x, r with
  | Some v, Some c => if outOfRange v c then [betweenMessage label c] else []
  | _, _ => []
  end.

Definition divisibleMessage (label : string) (r : Constraints.Range) : string :=
  label ++ " must be divisible by "
        ++ match Constraints.divisibleBy r with
           | Some d => Js.show_Z d
           | None => "undefined"
           end
        ++ " for " ++ model.

(** The check of [width] and of [height]: the range, then the divisor. *)
Definition sizeCheck (label : string) (x : option JsNumber)
    (r : option Constraints.Range) : list string :=
  match x, r with
  | Some v, Some c =>
      ((if outOfRange v c then [betweenMessage label c] else [])
       ++ (if notDivisible v (Constraints.divisibleBy c)
           then [divisibleMessage label c]
           else []))%list
  | _, _ => []
  end.

Definition promptCheck : list string :=
  match Params.prompt params, Constraints.promptMaxLength constraints with
  | Some p, Some n =>
      if Js.truthy p && (n <? Z.of_nat (String.length p))%Z
      then ["Prompt exceeds maximum length of " ++ Js.show_Z n
            ++ " characters for " ++ model]
      else []
  | _, _ => []
  end.

(** The check of a string against a list of the model. *)
Definition listCheck (name plural : string) (x : option string)
    (l : option (list string)) : list string :=
  match x, l with
  | Some s, Some allowed =>
      if Js.truthy s && negb (existsb (String.eqb s) allowed)
      then ["Invalid " ++ name ++ " " ++ dquote ++ s ++ dquote ++ " for " ++ model
            ++ ". Valid " ++ plural ++ ": " ++ join ", " allowed]
      else []
  | _, _ => []
  end.

Definition rawCheck : list string :=
  match Params.raw params, Constraints.raw constraints with
  | Some b, Some allowed =>
      if negb (existsb (Bool.eqb b) allowed)
      then ["Invalid raw value for " ++ model ++ ". Must be true or false"]
      else []
  | _, _ => []
  end.

(** The keys of [params] that are [input_image] or [input_image_2] to
    [input_image_8]. *)
Definition imageKeys : list string :=
  (spreadKey "input_image" (Params.input_image params)
   ++ spreadKey "input_image_2" (Params.input_image_2 params)
   ++ spreadKey "input_image_3" (Params.input_image_3 params)
   ++ spreadKey "input_image_4" (Params.input_image_4 params)
   ++ spreadKey "input_image_5" (Params.input_image_5 params)
   ++ spreadKey "input_image_6" (Params.input_image_6 params)
   ++ spreadKey "input_image_7" (Params.input_image_7 params)
   ++ spreadKey "input_image_8" (Params.input_image_8 params))%list.

Definition inputImagesCheck : list string :=
  match Constraints.maxInputImages constraints with
  | Some n =>
      if negb (n =? 0)%Z && (n <? Z.of_nat (List.length imageKeys))%Z
      then ["Maximum " ++ Js.show_Z n ++ " input images allowed for " ++ model
            ++ " (provided " ++ Js.show_nat (List.length imageKeys) ++ ")"]
      else []
  | None => []
  end.

(** The errors in the order the checks push them. *)
Definition collectedErrors : list string :=
  (promptCheck
   ++ sizeCheck "Width" (Params.width params) (Constraints.width constraints)
   ++ sizeCheck "Height" (Params.height params) (Constraints.height constraints)
   ++ rangeCheck "Steps" (Params.steps params) (Constraints.steps constraints)
   ++ rangeCheck "Guidance" (Params.guidance params) (Constraints.guidance constraints)
   ++ listCheck "aspect_ratio" "ratios" (Params.aspect_ratio params)
                (Constraints.aspectRatios constraints)
   ++ rawCheck
   ++ rangeCheck "image_prompt_strength" (Params.image_prompt_strength params)
                 (Constraints.imagePromptStrength constraints)
   ++ rangeCheck "safety_tolerance" (Params.safety_tolerance params)
                 (Constraints.safetyTolerance constraints)
   ++ rangeCheck "finetune_strength" (Params.finetune_strength params)
                 (Constraints.finetuneStrength constraints)
   ++ listCheck "output_format" "formats" (Params.output_format params)
                (Constraints.outputFormats constraints)
   ++ rangeCheck "top" (Params.top params) (Constraints.top constraints)
   ++ rangeCheck "bottom" (Params.bottom params) (Constraints.bottom constraints)
   ++ rangeCheck "left" (Params.left params) (Constraints.left constraints)
   ++ rangeCheck "right" (Params.right params) (Constraints.right constraints)
   ++ inputImagesCheck)%list.

End ValidateModelParams.

(** [validateModelParams(model, params)] *)
Definition validateModelParams (env : Env) (model : string) (params : Params.t)
    : ValidationResult :=
  match MODEL_CONSTRAINTS model with
  | None => mkValidationResult false ["Unknown model: " ++ model]
  | Some constraints =>
      let errors := collectedErrors env model params constraints in
      mkValidationResult (List.length errors =? 0)%nat errors
  end.

(** ** Vocabulary of the further statements *)

(** The request that [_makeRequest] issues for a method it supports, in
    whatever letter case the method is written. *)
Definition facadeRequest (api : BflAPI) (method endpoint : string)
    (data : option string) : option AxiosRequest :=
  if String.eqb (Js.toUpperCase method) "GET" then
    Some (mkAxiosRequest "GET" (baseUrl api ++ endpoint) None (requestHeaders api)
            (Some 30000%Z) (Some 5%Z))
  else if String.eqb (Js.toUpperCase method) "POST" then
    Some (mkAxiosRequest "POST" (baseUrl api ++ endpoint) data (requestHeaders api)
            (Some 30000%Z) (Some 5%Z))
  else None.

(** The sleeps of a trace. *)
Fixpoint pausesOf (t : list Event) : list Q :=
  match t with
  | [] => []
  | EvPause q :: t' => q :: pausesOf t'
  | EvRequest _ :: t' => pausesOf t'
  end.

(** A status on which the loop neither returns nor throws. *)
Definition nonTerminal (s : string) : bool :=
  negb (String.eqb s "Ready") && negb (String.eqb s "Error") &&
  negb (String.eqb s "Content Moderated").

(** The POST that a generation method issues for [payload]. *)
Definition submission (serialize : Payload -> string) (api : BflAPI)
    (modelKey : ModelEndpointKey) (payload : Payload) : AxiosRequest :=
  mkAxiosRequest "POST" (baseUrl api ++ MODEL_ENDPOINTS modelKey)
    (Some (serialize payload)) (requestHeaders api) (Some 30000%Z) (Some 5%Z).

(** The ten public generation methods of [BflAPI], by name, with the
    endpoint key, the payload and the inputs that the source of each one
    names. *)
Inductive GenerationMethod :=
| FluxDev
| FluxPro
| FluxProUltra
| FluxProFill
| FluxProFillFinetuned
| FluxProExpand
| KontextPro
| KontextMax
| Flux2Pro
| Flux2Flex.

Definition generate (serialize : Payload -> string) (env : Env) (api : BflAPI)
    (m : GenerationMethod) : Params.t -> M TaskResult :=
  match m with
  | FluxDev => generateFluxDev serialize env api
  | FluxPro => generateFluxPro serialize env api
  | FluxProUltra => generateFluxProUltra serialize env api
  | FluxProFill => generateFluxProFill serialize env api
  | FluxProFillFinetuned => generateFluxProFillFinetuned serialize env api
  | FluxProExpand => generateFluxProExpand serialize env api
  | KontextPro => generateKontextPro serialize env api
  | KontextMax => generateKontextMax serialize env api
  | Flux2Pro => generateFlux2Pro serialize env api
  | Flux2Flex => generateFlux2Flex serialize env api
  end.

Definition modelKeyOf (m : GenerationMethod) : ModelEndpointKey :=
  match m with
  | FluxDev => flux_dev
  | FluxPro => flux_pro
  | FluxProUltra => flux_ultra
  | FluxProFill => flux_pro_fill
  | FluxProFillFinetuned => flux_pro_fill_finetuned
  | FluxProExpand => flux_pro_expand
  | KontextPro => kontext_pro
  | KontextMax => kontext_max
  | Flux2Pro => flux_2_pro
  | Flux2Flex => flux_2_flex
  end.

Definition payloadOf (m : GenerationMethod) : Params.t -> Payload :=
  match m with
  | FluxDev => fluxDevPayload
  | FluxPro => fluxProPayload
  | FluxProUltra => fluxProUltraPayload
  | FluxProFill => fluxProFillPayload
  | FluxProFillFinetuned => fluxProFillFinetunedPayload
  | FluxProExpand => fluxProExpandPayload
  | KontextPro | KontextMax => kontextPayload
  | Flux2Pro | Flux2Flex => flux2Payload
  end.

(** The inputs that a method insists on, in the order it checks them. *)
Definition requiredInputs (m : GenerationMethod) (p : Params.t) : list (option string) :=
  match m with
  | FluxProFill => [Params.image p; Params.prompt p]
  | FluxProFillFinetuned => [Params.finetune_id p; Params.image p]
  | FluxProExpand => [Params.image p]
  | KontextPro | KontextMax => [Params.input_image p]
  | _ => []
  end.

(** The ten keys of [MODEL_CONSTRAINTS]. *)
Definition modelNames : list string :=
  [ "flux-dev"; "flux-pro"; "flux-ultra"; "flux-pro-fill"; "flux-pro-fill-finetuned";
    "flux-pro-expand"; "kontext-pro"; "kontext-max"; "flux-2-pro"; "flux-2-flex" ].

(** The parameter object without its input images. *)
Definition withoutInputImages (p : Params.t) : Params.t :=
  Params.mk (Params.prompt p) (Params.seed p) (Params.safety_tolerance p)
    (Params.output_format p) (Params.width p) (Params.height p) (Params.steps p)
    (Params.guidance p) (Params.prompt_upsampling p) (Params.image_prompt p)
    (Params.aspect_ratio p) (Params.raw p) (Params.image_prompt_strength p)
    (Params.image p) (Params.mask p) (Params.finetune_id p) (Params.finetune_strength p)
    (Params.top p) (Params.bottom p) (Params.left p) (Params.right p)
    None None None None None None None None.

(** What a parameter object has to satisfy for the constraints of a model:
    each supplied number within its range or [NaN], each supplied size a
    rational that is a multiple of its divisor, each supplied non-empty name
    in its list, a non-empty prompt within its length. *)
Definition inRange (x : option JsNumber) (r : option Constraints.Range) : Prop :=
  forall v c, x = Some v -> r = Some c ->
    v = NaN \/
    exists q, v = Finite q /\ (Constraints.min c <= q /\ q <= Constraints.max c)%Q.

Definition multipleOfDivisor (x : option JsNumber) (r : option Constraints.Range) : Prop :=
  forall v c, x = Some v -> r = Some c ->
    exists q d k, v = Finite q /\ Constraints.divisibleBy c = Some d /\ d <> 0%Z /\
                  (q == inject_Z (k * d))%Q.

Definition oneOf (x : option string) (l : option (list string)) : Prop :=
  forall s allowed, x = Some s -> s <> "" -> l = Some allowed -> In s allowed.

Definition promptFits (x : option string) (n : option Z) : Prop :=
  forall s m, x = Some s -> s <> "" -> n = Some m -> (Z.of_nat (String.length s) <= m)%Z.

Definition accepts (c : Constraints.t) (p : Params.t) : Prop :=
  promptFits (Params.prompt p) (Constraints.promptMaxLength c) /\
  (inRange (Params.width p) (Constraints.width c) /\
   multipleOfDivisor (Params.width p) (Constraints.width c)) /\
  (inRange (Params.height p) (Constraints.height c) /\
   multipleOfDivisor (Params.height p) (Constraints.height c)) /\
  inRange (Params.steps p) (Constraints.steps c) /\
  inRange (Params.guidance p) (Constraints.guidance c) /\
  oneOf (Params.aspect_ratio p) (Constraints.aspectRatios c) /\
  inRange (Params.image_prompt_strength p) (Constraints.imagePromptStrength c) /\
  inRange (Params.safety_tolerance p) (Constraints.safetyTolerance c) /\
  inRange (Params.finetune_strength p) (Constraints.finetuneStrength c) /\
  oneOf (Params.output_format p) (Constraints.outputFormats c) /\
  inRange (Params.top p) (Constraints.top c) /\
  inRange (Params.bottom p) (Constraints.bottom c) /\
  inRange (Params.left p) (Constraints.left c) /\
  inRange (Params.right p) (Constraints.right c).

(** What [n] rounds of a failed fetch that is retried and a fetch that is
    answered with a status to wait on leave in the trace, the counter being
    0 before each round. *)
Fixpoint alternatingTrace (req : AxiosRequest) (pollInterval : Q) (n : nat) : list Event :=
  match n with
  | O => []
  | S n' => EvRequest req :: EvPause (backoff 1) ::
            EvRequest req :: EvPause pollInterval ::
            alternatingTrace req pollInterval n'
  end.

(** A sleep that the polling loop may ask for: the poll interval, or the
    back-off of the k-th failure in a row, [k] from 1 to [maxRetries]. *)
Definition allowedSleep (o : WaitResultOptions) (q : Q) : Prop :=
  q = pollInterval_of o \/
  exists k : nat, (1 <= k)%nat /\ (Z.of_nat k <= maxRetries_of o)%Z /\ q = backoff k.

(** * Properties *)

(** ** Facts about the string primitives *)

Lemma prefix_length (p s : string) :
  String.prefix p s = true -> (String.length p <= String.length s)%nat.
Proof.
  revert s; induction p as [|c p IH]; intros s H; simpl; [lia|].
  destruct s as [|d s]; simpl in *; [discriminate|].
  destruct (Ascii.ascii_dec c d); [|discriminate].
  apply IH in H. lia.
Qed.

Lemma includes_length (s sub : string) :
  Js.includes s sub = true -> (String.length sub <= String.length s)%nat.
Proof.
  induction s as [|c s IH]; cbn [Js.includes].
  - destruct (String.prefix sub "") eqn:E; [|intros H; discriminate H].
    intros _. apply prefix_length in E. exact E.
  - destruct (String.prefix sub (String c s)) eqn:E.
    + intros _. apply prefix_length in E. exact E.
    + intros H. apply IH in H. simpl. lia.
Qed.

Lemma prefix_app (p s : string) : String.prefix p (p ++ s) = true.
Proof.
  induction p as [|c p IH]; simpl.
  - destruct s; reflexivity.
  - destruct (Ascii.ascii_dec c c); [exact IH | congruence].
Qed.

Lemma includes_app_r (a s sub : string) :
  Js.includes s sub = true -> Js.includes (a ++ s) sub = true.
Proof.
  intros H. induction a as [|c a IH]; [exact H|].
  change (String c a ++ s) with (String c (a ++ s)). cbn [Js.includes].
  rewrite IH. destruct (String.prefix sub (String c (a ++ s))); reflexivity.
Qed.

Lemma length_app (a b : string) :
  String.length (a ++ b) = (String.length a + String.length b)%nat.
Proof. induction a as [|c a IH]; simpl; [reflexivity | now rewrite IH]. Qed.

Lemma length_substring (n m : nat) (s : string) :
  (n + m <= String.length s)%nat -> String.length (substring n m s) = m.
Proof.
  revert n m; induction s as [|c s IH]; intros n m H; simpl in H.
  - assert (n = 0%nat) by lia. assert (m = 0%nat) by lia. subst. reflexivity.
  - destruct n as [|n].
    + destruct m as [|m]; simpl; [reflexivity|].
      rewrite IH by (simpl; lia). reflexivity.
    + simpl. apply IH. lia.
Qed.

(** ** One status fetch *)

Ltac run_monad :=
  unfold bind, try_catch, ret, throw, log, axios, Date_now in *; simpl in *.

Section Fetch.
Variables (env : Env) (api : BflAPI) (taskId : string) (pu : option string).
Hypothesis key_set : Js.truthy (apiKey api) = true.

(** When axios resolves, [getResult] returns the data after exactly one
    request. *)
Lemma getResult_resolved (w : World) (data : TaskResult) :
  axios_call env (axios_calls w) (statusRequest api taskId pu) = inl data ->
  exists w',
    getResult env api taskId pu w = (Val data, w') /\
    now_calls w' = now_calls w /\
    axios_calls w' = S (axios_calls w) /\
    trace w' = (trace w ++ [EvRequest (statusRequest api taskId pu)])%list.
Proof.
  intros H. unfold getResult, _verifyApiKey, statusRequest in *.
  rewrite key_set. destruct (Js.truthy_opt pu) eqn:T.
  - run_monad. rewrite H. eexists; repeat split; reflexivity.
  - unfold _makeRequest. run_monad. rewrite H. eexists; repeat split; reflexivity.
Qed.

(** When axios rejects, [getResult] fails after exactly one request, with
    the rejection itself or with what [_makeRequest] made of it. *)
Lemma getResult_rejected (w : World) (e : JsError) :
  axios_call env (axios_calls w) (statusRequest api taskId pu) = inr e ->
  exists w',
    getResult env api taskId pu w = (Throw (thrownByGetResult env pu e), w') /\
    now_calls w' = now_calls w /\
    axios_calls w' = S (axios_calls w) /\
    trace w' = (trace w ++ [EvRequest (statusRequest api taskId pu)])%list.
Proof.
  intros H. unfold getResult, _verifyApiKey, statusRequest, thrownByGetResult in *.
  rewrite key_set. destruct (Js.truthy_opt pu) eqn:T.
  - run_monad. rewrite H. eexists; repeat split; reflexivity.
  - unfold _makeRequest, makeRequest_catch. run_monad. rewrite H.
    eexists; repeat split; reflexivity.
Qed.

End Fetch.

(** ** One pass through the polling loop *)

Lemma backoff_nonneg (k : nat) : Qltb (backoff k) 0 = false.
Proof.
  unfold Qltb, backoff, Qle_bool. simpl.
  rewrite Z.mul_1_r. replace (0 <=? 2 ^ Z.of_nat k)%Z with true; [reflexivity|].
  symmetry. apply Z.leb_le. apply Z.pow_nonneg. lia.
Qed.

Lemma pause_ok (env : Env) (seconds : Q) (w : World) :
  Qltb seconds 0 = false ->
  exists w',
    pause env seconds w = (Val tt, w') /\
    now_calls w' = now_calls w /\
    axios_calls w' = axios_calls w /\
    trace w' = (trace w ++ [EvPause seconds])%list.
Proof.
  intros H. unfold pause. rewrite H. run_monad.
  eexists; repeat split; reflexivity.
Qed.

Section Pass.
Variables (env : Env) (api : BflAPI) (taskId : string) (o : WaitResultOptions).
Variable startTime : Z.

Let req := statusRequest api taskId (pollingUrl o).

(** The three ways the [catch] block ends. *)
Lemma poll_catch_moderation (retries : nat) (err : JsError) (w : World) :
  isModeration (message err) = true ->
  poll_catch env o retries err w = (Throw err, w).
Proof. intros H. unfold poll_catch. rewrite H. reflexivity. Qed.

Lemma poll_catch_retry (retries : nat) (err : JsError) (w : World) :
  isModeration (message err) = false ->
  isTransient (message err) = true ->
  (Z.of_nat retries < maxRetries_of o)%Z ->
  exists w',
    poll_catch env o retries err w = (Val (ContinueWith (S retries)), w') /\
    now_calls w' = now_calls w /\
    axios_calls w' = axios_calls w /\
    trace w' = (trace w ++ [EvPause (backoff (S retries))])%list.
Proof.
  intros Hm Ht Hr. unfold poll_catch. rewrite Hm, Ht.
  apply Z.ltb_lt in Hr. rewrite Hr. cbn [andb].
  unfold bind, log. cbn beta iota.
  match goal with |- context [pause env ?q ?w0] =>
    destruct (pause_ok env q w0 (backoff_nonneg _)) as (w' & E & N & A & T)
  end.
  rewrite E. exists w'. repeat split; assumption.
Qed.

Lemma poll_catch_fatal (retries : nat) (err : JsError) (w : World) :
  isModeration (message err) = false ->
  isTransient (message err) = false \/ (maxRetries_of o <= Z.of_nat retries)%Z ->
  poll_catch env o retries err w = (Throw err, w).
Proof.
  intros Hm H. unfold poll_catch. rewrite Hm.
  destruct H as [H|H].
  - rewrite H. reflexivity.
  - apply Z.ltb_ge in H. rewrite H, andb_false_r. reflexivity.
Qed.

(** The timeout check comes first: when it fires nothing else happens. *)
Lemma loopBody_timeout (retries : nat) (w : World) :
  timedOut env o startTime (now_calls w) = true ->
  loopBody env api taskId o startTime retries w =
    (Throw (timeoutError env o),
     mkWorld (S (now_calls w)) (axios_calls w) (trace w) (logs w)).
Proof.
  unfold timedOut, loopBody. intros H.
  unfold bind at 1. unfold Date_now. cbn beta iota. rewrite H. reflexivity.
Qed.

(** When it does not fire, the pass goes on to the fetch. *)
Lemma loopBody_in_time (retries : nat) (w : World) :
  timedOut env o startTime (now_calls w) = false ->
  loopBody env api taskId o startTime retries w =
    bind (try_catch (poll_try env api taskId o) (poll_catch env o retries))
         (fun e => match e with
                   | Return result => ret (inl result)
                   | ContinueWith retries' => ret (inr retries')
                   | FellThrough => pause env (pollInterval_of o) ;;; ret (inr 0%nat)
                   end)
         (mkWorld (S (now_calls w)) (axios_calls w) (trace w) (logs w)).
Proof.
  unfold timedOut, loopBody. intros H.
  unfold bind at 1. unfold Date_now. cbn beta iota. rewrite H. reflexivity.
Qed.

Hypothesis key_set : Js.truthy (apiKey api) = true.

(** A [Ready] answer ends the loop with the task. *)
Lemma loopBody_ready (retries : nat) (w : World) (data : TaskResult) :
  timedOut env o startTime (now_calls w) = false ->
  axios_call env (axios_calls w) req = inl data ->
  status data = "Ready" ->
  exists w',
    loopBody env api taskId o startTime retries w = (Val (inl data), w') /\
    now_calls w' = S (now_calls w) /\
    axios_calls w' = S (axios_calls w) /\
    trace w' = (trace w ++ [EvRequest req])%list.
Proof.
  intros Ht Ha Hs. rewrite loopBody_in_time by exact Ht.
  set (w1 := mkWorld _ _ _ _).
  destruct (getResult_resolved env api taskId (pollingUrl o) key_set w1 data Ha)
    as (w2 & E & N & A & T).
  unfold bind, try_catch, poll_try. unfold bind. rewrite E, Hs. simpl.
  exists w2. repeat split; assumption.
Qed.

(** A status other than [Ready], [Error] and [Content Moderated] resets the
    counter and sleeps the poll interval. *)
Lemma loopBody_waiting (retries : nat) (w : World) (data : TaskResult) :
  timedOut env o startTime (now_calls w) = false ->
  axios_call env (axios_calls w) req = inl data ->
  String.eqb (status data) "Ready" = false ->
  String.eqb (status data) "Error" = false ->
  String.eqb (status data) "Content Moderated" = false ->
  Qltb (pollInterval_of o) 0 = false ->
  exists w',
    loopBody env api taskId o startTime retries w = (Val (inr 0%nat), w') /\
    now_calls w' = S (now_calls w) /\
    axios_calls w' = S (axios_calls w) /\
    trace w' = (trace w ++ [EvRequest req; EvPause (pollInterval_of o)])%list.
Proof.
  intros Ht Ha H1 H2 H3 Hp. rewrite loopBody_in_time by exact Ht.
  set (w1 := mkWorld _ _ _ _).
  destruct (getResult_resolved env api taskId (pollingUrl o) key_set w1 data Ha)
    as (w2 & E & N & A & T).
  destruct (pause_ok env (pollInterval_of o) w2 Hp) as (w3 & E3 & N3 & A3 & T3).
  unfold bind, try_catch, poll_try. unfold bind. rewrite E, H1, H2, H3.
  unfold ret at 1. rewrite E3. unfold ret.
  exists w3. repeat split.
  - rewrite N3, N. reflexivity.
  - rewrite A3, A. reflexivity.
  - rewrite T3, T. simpl. rewrite <- app_assoc. reflexivity.
Qed.

(** Whatever the [try] block throws is handed to the [catch] block. *)
Lemma loopBody_caught (retries : nat) (w w1 : World) (err : JsError) :
  timedOut env o startTime (now_calls w) = false ->
  poll_try env api taskId o
    (mkWorld (S (now_calls w)) (axios_calls w) (trace w) (logs w)) = (Throw err, w1) ->
  loopBody env api taskId o startTime retries w =
    match poll_catch env o retries err w1 with
    | (Val (ContinueWith retries'), w2) => (Val (inr retries'), w2)
    | (Val (Return result), w2) => (Val (inl result), w2)
    | (Val FellThrough, w2) => (pause env (pollInterval_of o) ;;; ret (inr 0%nat)) w2
    | (Throw e, w2) => (Throw e, w2)
    end.
Proof.
  intros Ht E. rewrite loopBody_in_time by exact Ht.
  unfold bind at 1. unfold try_catch. rewrite E.
  destruct (poll_catch env o retries err w1) as [[[r| |k]|e] w2]; reflexivity.
Qed.

(** A rejected fetch reaches the [catch] block with the error of
    [getResult]. *)
Lemma poll_try_rejected (w : World) (e : JsError) :
  axios_call env (axios_calls w) req = inr e ->
  exists w1,
    poll_try env api taskId o w = (Throw (thrownByGetResult env (pollingUrl o) e), w1) /\
    now_calls w1 = now_calls w /\
    axios_calls w1 = S (axios_calls w) /\
    trace w1 = (trace w ++ [EvRequest req])%list.
Proof.
  intros Ha.
  destruct (getResult_rejected env api taskId (pollingUrl o) key_set w e Ha)
    as (w2 & E & N & A & T).
  exists w2. unfold poll_try, bind. rewrite E. repeat split; assumption.
Qed.

(** So does the failure that the [try] block itself throws on an [Error]
    status. *)
Lemma poll_try_status_error (w : World) (data : TaskResult) :
  axios_call env (axios_calls w) req = inl data ->
  status data = "Error" ->
  exists w1,
    poll_try env api taskId o w
      = (Throw (Error ("Generation failed: " ++ errorMsgOf data)), w1) /\
    now_calls w1 = now_calls w /\
    axios_calls w1 = S (axios_calls w) /\
    trace w1 = (trace w ++ [EvRequest req])%list.
Proof.
  intros Ha Hs.
  destruct (getResult_resolved env api taskId (pollingUrl o) key_set w data Ha)
    as (w2 & E & N & A & T).
  exists w2. unfold poll_try, bind. rewrite E, Hs. simpl.
  repeat split; assumption.
Qed.

Lemma poll_try_content_moderated (w : World) (data : TaskResult) :
  axios_call env (axios_calls w) req = inl data ->
  status data = "Content Moderated" ->
  exists w1,
    poll_try env api taskId o w = (Throw (Error contentModeratedMessage), w1) /\
    now_calls w1 = now_calls w /\
    axios_calls w1 = S (axios_calls w) /\
    trace w1 = (trace w ++ [EvRequest req])%list.
Proof.
  intros Ha Hs.
  destruct (getResult_resolved env api taskId (pollingUrl o) key_set w data Ha)
    as (w2 & E & N & A & T).
  exists w2. unfold poll_try, bind. rewrite E, Hs. simpl.
  repeat split; assumption.
Qed.

End Pass.

(** ** The loop *)

Lemma keepWaiting_not_terminal (s : string) :
  keepWaiting s = true ->
  String.eqb s "Ready" = false /\ String.eqb s "Error" = false /\
  String.eqb s "Content Moderated" = false.
Proof.
  unfold keepWaiting. intros H. apply orb_true_iff in H.
  destruct H as [H|H]; apply String.eqb_eq in H; subst s; repeat split; reflexivity.
Qed.

Section Loop.
Variables (env : Env) (api : BflAPI) (taskId : string) (o : WaitResultOptions).
Variable startTime : Z.
Hypothesis key_set : Js.truthy (apiKey api) = true.

Let req := statusRequest api taskId (pollingUrl o).

(** [n] keep-waiting answers followed by [Ready]: [n + 1] requests, [n]
    sleeps of the poll interval, and the task is returned. *)
Lemma pollLoop_waiting_then_ready (n : nat) :
  forall (w : World) (retries fuel : nat) (ready : TaskResult),
  Qltb (pollInterval_of o) 0 = false ->
  (forall k, (k < n)%nat ->
     exists data, axios_call env (axios_calls w + k) req = inl data /\
                  keepWaiting (status data) = true) ->
  axios_call env (axios_calls w + n) req = inl ready ->
  status ready = "Ready" ->
  (forall k, (k <= n)%nat -> timedOut env o startTime (now_calls w + k) = false) ->
  (n < fuel)%nat ->
  exists w',
    pollLoop fuel env api taskId o startTime retries w = (Val (Some ready), w') /\
    now_calls w' = (now_calls w + n + 1)%nat /\
    axios_calls w' = (axios_calls w + n + 1)%nat /\
    trace w' = (trace w ++ waitingTrace req (pollInterval_of o) n ++ [EvRequest req])%list.
Proof.
  induction n as [|n IH]; intros w retries fuel ready Hp Hw Hr Hs Ht Hf.
  - destruct fuel as [|fuel]; [lia|].
    rewrite Nat.add_0_r in Hr.
    destruct (loopBody_ready env api taskId o startTime key_set retries w ready)
      as (w' & E & N & A & T); auto.
    { rewrite <- (Nat.add_0_r (now_calls w)). apply Ht. lia. }
    exists w'. cbn [pollLoop]. unfold bind. rewrite E. unfold ret.
    repeat split; [lia | lia | exact T].
  - destruct fuel as [|fuel]; [lia|].
    destruct (Hw 0%nat) as (data & Ha & Hk); [lia|].
    rewrite Nat.add_0_r in Ha.
    destruct (keepWaiting_not_terminal _ Hk) as (K1 & K2 & K3).
    destruct (loopBody_waiting env api taskId o startTime key_set retries w data)
      as (w1 & E & N & A & T); auto.
    { rewrite <- (Nat.add_0_r (now_calls w)). apply Ht. lia. }
    destruct (IH w1 0%nat fuel ready) as (w' & E' & N' & A' & T'); auto.
    { intros k Hk'. rewrite A. replace (S (axios_calls w) + k)%nat
        with (axios_calls w + S k)%nat by lia. apply Hw. lia. }
    { rewrite A. replace (S (axios_calls w) + n)%nat
        with (axios_calls w + S n)%nat by lia. exact Hr. }
    { intros k Hk'. rewrite N. replace (S (now_calls w) + k)%nat
        with (now_calls w + S k)%nat by lia. apply Ht. lia. }
    { lia. }
    exists w'. cbn [pollLoop]. unfold bind at 1. rewrite E.
    repeat split; [exact E' | lia | lia |].
    rewrite T', T. cbn [waitingTrace]. rewrite <- app_assoc. reflexivity.
Qed.

(** [n] transient failures, each within the retry budget, followed by
    [Ready]: [n + 1] requests, the back-off sleeps in between, no sleep of
    the poll interval, and the task is returned. *)
Lemma pollLoop_retries_then_ready (n : nat) :
  forall (w : World) (retries fuel : nat) (ready : TaskResult),
  (Z.of_nat (retries + n) <= maxRetries_of o)%Z ->
  (forall k, (k < n)%nat ->
     exists e, axios_call env (axios_calls w + k) req = inr e /\
               transientFailure env o e = true) ->
  axios_call env (axios_calls w + n) req = inl ready ->
  status ready = "Ready" ->
  (forall k, (k <= n)%nat -> timedOut env o startTime (now_calls w + k) = false) ->
  (n < fuel)%nat ->
  exists w',
    pollLoop fuel env api taskId o startTime retries w = (Val (Some ready), w') /\
    now_calls w' = (now_calls w + n + 1)%nat /\
    axios_calls w' = (axios_calls w + n + 1)%nat /\
    trace w' = (trace w ++ retryTrace req retries n ++ [EvRequest req])%list.
Proof.
  induction n as [|n IH]; intros w retries fuel ready Hm Hw Hr Hs Ht Hf.
  - destruct fuel as [|fuel]; [lia|].
    rewrite Nat.add_0_r in Hr.
    destruct (loopBody_ready env api taskId o startTime key_set retries w ready)
      as (w' & E & N & A & T); auto.
    { rewrite <- (Nat.add_0_r (now_calls w)). apply Ht. lia. }
    exists w'. cbn [pollLoop]. unfold bind. rewrite E. unfold ret.
    repeat split; [lia | lia | exact T].
  - destruct fuel as [|fuel]; [lia|].
    destruct (Hw 0%nat) as (e & Ha & Hk); [lia|].
    rewrite Nat.add_0_r in Ha.
    unfold transientFailure in Hk. apply andb_true_iff in Hk.
    destruct Hk as [Htr Hmo]. apply negb_true_iff in Hmo.
    assert (Ht0 : timedOut env o startTime (now_calls w) = false).
    { rewrite <- (Nat.add_0_r (now_calls w)). apply Ht. lia. }
    destruct (poll_try_rejected env api taskId o key_set
                (mkWorld (S (now_calls w)) (axios_calls w) (trace w) (logs w)) e Ha)
      as (w1 & E1 & N1 & A1 & T1).
    destruct (poll_catch_retry env o retries _ w1 Hmo Htr)
      as (w2 & E2 & N2 & A2 & T2); [lia|].
    assert (E : loopBody env api taskId o startTime retries w = (Val (inr (S retries)), w2)).
    { rewrite (loopBody_caught env api taskId o startTime retries w w1 _ Ht0 E1).
      rewrite E2. reflexivity. }
    simpl in N1, A1, T1.
    destruct (IH w2 (S retries) fuel ready) as (w' & E' & N' & A' & T'); auto.
    { lia. }
    { intros k Hk'. rewrite A2, A1. replace (S (axios_calls w) + k)%nat
        with (axios_calls w + S k)%nat by lia. apply Hw. lia. }
    { rewrite A2, A1. replace (S (axios_calls w) + n)%nat
        with (axios_calls w + S n)%nat by lia. exact Hr. }
    { intros k Hk'. rewrite N2, N1. replace (S (now_calls w) + k)%nat
        with (now_calls w + S k)%nat by lia. apply Ht. lia. }
    { lia. }
    exists w'. cbn [pollLoop]. unfold bind at 1. rewrite E.
    repeat split; [exact E' | lia | lia |].
    rewrite T', T2, T1. cbn [retryTrace]. repeat rewrite <- app_assoc. reflexivity.
Qed.

(** Transient failures without end: once the counter has reached
    [maxRetries] the error of the last fetch propagates. With [n] retries
    left that is after [n + 1] requests. *)
Lemma pollLoop_retries_exhausted (n : nat) :
  forall (w : World) (retries fuel : nat),
  Z.of_nat (retries + n) = maxRetries_of o ->
  (forall k, (k <= n)%nat ->
     exists e, axios_call env (axios_calls w + k) req = inr e /\
               transientFailure env o e = true) ->
  (forall k, (k <= n)%nat -> timedOut env o startTime (now_calls w + k) = false) ->
  (n < fuel)%nat ->
  exists w' e,
    axios_call env (axios_calls w + n) req = inr e /\
    pollLoop fuel env api taskId o startTime retries w
      = (Throw (thrownByGetResult env (pollingUrl o) e), w') /\
    axios_calls w' = (axios_calls w + n + 1)%nat /\
    trace w' = (trace w ++ retryTrace req retries n ++ [EvRequest req])%list.
Proof.
  induction n as [|n IH]; intros w retries fuel Hm Hw Ht Hf;
    (destruct fuel as [|fuel]; [lia|]);
    destruct (Hw 0%nat) as (e & Ha & Hk); try lia;
    rewrite Nat.add_0_r in Ha;
    unfold transientFailure in Hk; apply andb_true_iff in Hk;
    destruct Hk as [Htr Hmo]; apply negb_true_iff in Hmo;
    assert (Ht0 : timedOut env o startTime (now_calls w) = false)
      by (rewrite <- (Nat.add_0_r (now_calls w)); apply Ht; lia);
    destruct (poll_try_rejected env api taskId o key_set
                (mkWorld (S (now_calls w)) (axios_calls w) (trace w) (logs w)) e Ha)
      as (w1 & E1 & N1 & A1 & T1); simpl in N1, A1, T1.
  - exists w1, e. rewrite Nat.add_0_r. split; [exact Ha|].
    cbn [pollLoop]. unfold bind at 1.
    rewrite (loopBody_caught env api taskId o startTime retries w w1 _ Ht0 E1).
    rewrite poll_catch_fatal; [|exact Hmo | right; lia].
    repeat split; [lia | exact T1].
  - destruct (poll_catch_retry env o retries _ w1 Hmo Htr)
      as (w2 & E2 & N2 & A2 & T2); [lia|].
    assert (E : loopBody env api taskId o startTime retries w = (Val (inr (S retries)), w2)).
    { rewrite (loopBody_caught env api taskId o startTime retries w w1 _ Ht0 E1).
      rewrite E2. reflexivity. }
    destruct (IH w2 (S retries) fuel) as (w' & e' & Ha' & E' & A' & T'); auto.
    { lia. }
    { intros k Hk'. rewrite A2, A1. replace (S (axios_calls w) + k)%nat
        with (axios_calls w + S k)%nat by lia. apply Hw. lia. }
    { intros k Hk'. rewrite N2, N1. replace (S (now_calls w) + k)%nat
        with (now_calls w + S k)%nat by lia. apply Ht. lia. }
    { lia. }
    exists w', e'. rewrite A2, A1 in Ha'.
    replace (S (axios_calls w) + n)%nat with (axios_calls w + S n)%nat in Ha' by lia.
    split; [exact Ha'|]. cbn [pollLoop]. unfold bind at 1. rewrite E.
    repeat split; [exact E' | lia |].
    rewrite T', T2, T1. cbn [retryTrace]. repeat rewrite <- app_assoc. reflexivity.
Qed.

End Loop.

(** ** A failed fetch *)

Section FailedFetch.
Variables (env : Env) (api : BflAPI) (taskId : string) (o : WaitResultOptions).
Variable startTime : Z.
Hypothesis key_set : Js.truthy (apiKey api) = true.

Let req := statusRequest api taskId (pollingUrl o).

(** A transient failure within the budget: the counter goes up by one, the
    back-off is slept, and the pass ends without the poll-interval sleep. *)
Lemma loopBody_retry (retries : nat) (w : World) (e : JsError) :
  timedOut env o startTime (now_calls w) = false ->
  axios_call env (axios_calls w) req = inr e ->
  transientFailure env o e = true ->
  (Z.of_nat retries < maxRetries_of o)%Z ->
  exists w',
    loopBody env api taskId o startTime retries w = (Val (inr (S retries)), w') /\
    now_calls w' = S (now_calls w) /\
    axios_calls w' = S (axios_calls w) /\
    trace w' = (trace w ++ [EvRequest req; EvPause (backoff (S retries))])%list.
Proof.
  intros Ht Ha Hk Hr.
  unfold transientFailure in Hk. apply andb_true_iff in Hk.
  destruct Hk as [Htr Hmo]. apply negb_true_iff in Hmo.
  destruct (poll_try_rejected env api taskId o key_set
              (mkWorld (S (now_calls w)) (axios_calls w) (trace w) (logs w)) e Ha)
    as (w1 & E1 & N1 & A1 & T1). simpl in N1, A1, T1.
  destruct (poll_catch_retry env o retries _ w1 Hmo Htr Hr)
    as (w2 & E2 & N2 & A2 & T2).
  exists w2.
  rewrite (loopBody_caught env api taskId o startTime retries w w1 _ Ht E1), E2.
  repeat split; [congruence | congruence |].
  rewrite T2, T1, <- app_assoc. reflexivity.
Qed.

(** A failure that the [catch] block does not retry ends the call: the
    error propagates after this one request, without any sleep. *)
Lemma loopBody_rethrow (retries : nat) (w : World) (e : JsError) :
  timedOut env o startTime (now_calls w) = false ->
  axios_call env (axios_calls w) req = inr e ->
  isModeration (message (thrownByGetResult env (pollingUrl o) e)) = true \/
  isTransient (message (thrownByGetResult env (pollingUrl o) e)) = false \/
  (maxRetries_of o <= Z.of_nat retries)%Z ->
  exists w',
    loopBody env api taskId o startTime retries w
      = (Throw (thrownByGetResult env (pollingUrl o) e), w') /\
    now_calls w' = S (now_calls w) /\
    axios_calls w' = S (axios_calls w) /\
    trace w' = (trace w ++ [EvRequest req])%list.
Proof.
  intros Ht Ha Hc.
  destruct (poll_try_rejected env api taskId o key_set
              (mkWorld (S (now_calls w)) (axios_calls w) (trace w) (logs w)) e Ha)
    as (w1 & E1 & N1 & A1 & T1). simpl in N1, A1, T1.
  exists w1.
  rewrite (loopBody_caught env api taskId o startTime retries w w1 _ Ht E1).
  destruct (isModeration (message (thrownByGetResult env (pollingUrl o) e))) eqn:Hm.
  - rewrite poll_catch_moderation by exact Hm. repeat split; assumption.
  - rewrite poll_catch_fatal; [repeat split; assumption | exact Hm |].
    destruct Hc as [Hc|Hc]; [discriminate | exact Hc].
Qed.

End FailedFetch.

(** What [_makeRequest] throws for a 502 or 503 answer is transient and is
    not a moderation error. *)
Lemma rethrown_unavailable (env : Env) (e : JsError) (r : AxiosResponse) :
  response e = Some r ->
  resp_status r = 502%Z \/ resp_status r = 503%Z ->
  isTransient (message (rethrown env e)) = true /\
  isModeration (message (rethrown env e)) = false.
Proof.
  intros Hr Hs. unfold rethrown. rewrite Hr.
  destruct Hs as [Hs|Hs]; rewrite Hs; split; vm_compute; reflexivity.
Qed.

(** ** [waitForResult] *)

Lemma waitForResult_unfold (fuel : nat) (env : Env) (api : BflAPI)
    (taskId : string) (o : WaitResultOptions) :
  waitForResult fuel env api taskId o world0 =
    pollLoop fuel env api taskId o (date_now env 0) 0 (mkWorld 1 0 [] []).
Proof. reflexivity. Qed.

(** C8. When the status answers are [N] keep-waiting statuses ([Pending] or
    [Request Moderated]) followed by [Ready], and no timeout check fires on
    the way (the poll interval being non-negative, as [pause] demands),
    [waitForResult] issues exactly [N + 1] status requests, sleeps the poll
    interval exactly [N] times and never backs off, and returns the [Ready]
    task. Every keep-waiting answer, [Request Moderated] included, ends its
    pass with the failure counter at 0 and the loop still running. *)
Theorem waitForResult_waiting_then_ready
    (env : Env) (api : BflAPI) (taskId : string) (o : WaitResultOptions)
    (N fuel : nat) (ready : TaskResult) :
  let req := statusRequest api taskId (pollingUrl o) in
  Js.truthy (apiKey api) = true ->
  Qltb (pollInterval_of o) 0 = false ->
  (forall k, (k < N)%nat ->
     exists data, axios_call env k req = inl data /\ keepWaiting (status data) = true) ->
  axios_call env N req = inl ready ->
  status ready = "Ready" ->
  (forall k, (k <= N)%nat -> timedOut env o (date_now env 0) (S k) = false) ->
  (N < fuel)%nat ->
  (exists w',
     waitForResult fuel env api taskId o world0 = (Val (Some ready), w') /\
     axios_calls w' = (N + 1)%nat /\
     trace w' = (waitingTrace req (pollInterval_of o) N ++ [EvRequest req])%list) /\
  (forall startTime retries w data,
     timedOut env o startTime (now_calls w) = false ->
     axios_call env (axios_calls w) req = inl data ->
     keepWaiting (status data) = true ->
     exists w',
       loopBody env api taskId o startTime retries w = (Val (inr 0%nat), w') /\
       axios_calls w' = S (axios_calls w) /\
       trace w' = (trace w ++ [EvRequest req; EvPause (pollInterval_of o)])%list).
Proof.
  intros req Hkey Hp Hw Hr Hs Ht Hf. split.
  - rewrite waitForResult_unfold.
    destruct (pollLoop_waiting_then_ready env api taskId o (date_now env 0) Hkey N
                (mkWorld 1 0 [] []) 0%nat fuel ready) as (w' & E & _ & A & T); auto.
    exists w'. repeat split; [exact E | exact A | exact T].
  - intros startTime retries w data Ht' Ha Hk.
    destruct (keepWaiting_not_terminal _ Hk) as (K1 & K2 & K3).
    destruct (loopBody_waiting env api taskId o startTime Hkey retries w data)
      as (w' & E & _ & A & T); auto.
    exists w'. repeat split; assumption.
Qed.

(** The first test of the suite: [Pending], [Request Moderated], then
    [Ready]. *)
Lemma waitForResult_waiting_then_ready_witness :
  exists w',
    waitForResult 3
      (Fixture.scripted Fixture.frozenClock
         [inl Fixture.pendingTask; inl Fixture.requestModeratedTask]
         (inl Fixture.readyTask))
      Fixture.api "task_123" Fixture.fastOptions world0
      = (Val (Some Fixture.readyTask), w') /\
    axios_calls w' = 3%nat.
Proof.
  destruct (waitForResult_waiting_then_ready
              (Fixture.scripted Fixture.frozenClock
                 [inl Fixture.pendingTask; inl Fixture.requestModeratedTask]
                 (inl Fixture.readyTask))
              Fixture.api "task_123" Fixture.fastOptions 2 3 Fixture.readyTask)
    as [(w' & E & A & _) _].
  - reflexivity.
  - reflexivity.
  - intros k Hk. destruct k as [|[|k]].
    + exists Fixture.pendingTask. split; reflexivity.
    + exists Fixture.requestModeratedTask. split; reflexivity.
    + lia.
  - reflexivity.
  - reflexivity.
  - intros k _. reflexivity.
  - lia.
  - exists w'. split; [exact E | exact A].
Defined.

Lemma retriedFailure_transient (env : Env) (o : WaitResultOptions) (e : JsError) :
  retriedFailure o e -> transientFailure env o e = true.
Proof.
  unfold transientFailure, thrownByGetResult.
  intros [(Hu & r & Hr & Hs) | (Hw & Ht & Hm)].
  - rewrite Hu. destruct (rethrown_unavailable env e r Hr Hs) as [H1 H2].
    rewrite H1, H2. reflexivity.
  - assert (E : (if Js.truthy_opt (pollingUrl o) then e else rethrown env e) = e).
    { destruct Hw as [Hw|Hw]; [rewrite Hw; reflexivity|].
      unfold rethrown. rewrite Hw. destruct (Js.truthy_opt (pollingUrl o)); reflexivity. }
    rewrite E.
    assert (T : isTransient (message e) = true).
    { unfold isTransient. destruct Ht as [H|[H|[H|H]]]; rewrite H;
        repeat rewrite orb_true_r; reflexivity. }
    assert (Mo : isModeration (message e) = false).
    { unfold isModeration, namesModeration in *.
      destruct (Js.includes (message e) "moderated"); [exfalso; apply Hm; auto|].
      destruct (Js.includes (message e) "Content Moderated"); [exfalso; apply Hm; auto|].
      reflexivity. }
    rewrite T, Mo. reflexivity.
Qed.




(** ** What a pass can do to the outside *)

Lemma pause_effects (env : Env) (seconds : Q) (w : World) (r : Res unit) (w' : World) :
  pause env seconds w = (r, w') ->
  now_calls w' = now_calls w /\ axios_calls w' = axios_calls w /\
  (trace w' = trace w \/ trace w' = (trace w ++ [EvPause seconds])%list).
Proof.
  unfold pause. destruct (Qltb seconds 0); run_monad; intros H;
    injection H as <- <-; simpl; auto.
Qed.

Section Effects.
Variables (env : Env) (api : BflAPI) (taskId : string) (o : WaitResultOptions).
Variable startTime : Z.

Let req := statusRequest api taskId (pollingUrl o).

(** The [try] block issues exactly one request, unless the key is missing
    and [_verifyApiKey] stops it before the request. *)
Lemma poll_try_effects (w : World) (r : Res TryEnd) (w1 : World) :
  poll_try env api taskId o w = (r, w1) ->
  now_calls w1 = now_calls w /\
  ((axios_calls w1 = S (axios_calls w) /\ trace w1 = (trace w ++ [EvRequest req])%list) \/
   (Js.truthy (apiKey api) = false /\ axios_calls w1 = axios_calls w /\
    trace w1 = trace w /\ r = Throw (Error apiKeyNotSetMessage))).
Proof.
  intros H. destruct (Js.truthy (apiKey api)) eqn:K.
  - destruct (axios_call env (axios_calls w) req) as [data|e] eqn:Ha.
    + destruct (getResult_resolved env api taskId (pollingUrl o) K w data Ha)
        as (w2 & E & N & A & T).
      unfold poll_try, bind in H. rewrite E in H.
      destruct (String.eqb (status data) "Ready");
        [|destruct (String.eqb (status data) "Error");
          [|destruct (String.eqb (status data) "Content Moderated")]];
        injection H as <- <-; auto.
    + destruct (getResult_rejected env api taskId (pollingUrl o) K w e Ha)
        as (w2 & E & N & A & T).
      unfold poll_try, bind in H. rewrite E in H.
      injection H as <- <-; auto.
  - unfold poll_try, getResult, _verifyApiKey, bind in H. rewrite K in H.
    simpl in H. injection H as <- <-. split; [reflexivity|].
    right. repeat split; reflexivity.
Qed.

(** The [catch] block either rethrows what it caught, touching nothing, or
    sleeps the back-off and continues with the counter raised by one. *)
Lemma poll_catch_effects (retries : nat) (err : JsError) (w : World)
    (r : Res TryEnd) (w' : World) :
  poll_catch env o retries err w = (r, w') ->
  now_calls w' = now_calls w /\ axios_calls w' = axios_calls w /\
  ((r = Throw err /\ w' = w) \/
   (r = Val (ContinueWith (S retries)) /\
    trace w' = (trace w ++ [EvPause (backoff (S retries))])%list /\
    isTransient (message err) = true /\ isModeration (message err) = false /\
    (Z.of_nat retries < maxRetries_of o)%Z)).
Proof.
  intros H.
  destruct (isModeration (message err)) eqn:Hm.
  - rewrite poll_catch_moderation in H by exact Hm. injection H as <- <-. auto.
  - destruct (isTransient (message err)) eqn:Ht.
    + destruct (Z.ltb_spec (Z.of_nat retries) (maxRetries_of o)) as [L|L].
      * destruct (poll_catch_retry env o retries err w Hm Ht L) as (w2 & E & N & A & T).
        rewrite E in H. injection H as <- <-. repeat split; auto.
        right. repeat split; auto.
      * rewrite poll_catch_fatal in H; [|exact Hm | right; exact L].
        injection H as <- <-. auto.
    + rewrite poll_catch_fatal in H; [|exact Hm | left; exact Ht].
      injection H as <- <-. auto.
Qed.

(** The constant message of [_verifyApiKey] is neither transient nor a
    moderation error. *)
Lemma poll_catch_key_missing (retries : nat) (w : World) :
  poll_catch env o retries (Error apiKeyNotSetMessage) w
    = (Throw (Error apiKeyNotSetMessage), w).
Proof. apply poll_catch_fatal; [|left]; vm_compute; reflexivity. Qed.

(** One pass: the clock is read once; then either the timeout fires and
    nothing is requested, or exactly one request is issued (followed by at
    most one sleep), or the key is missing and the pass fails without a
    request. A pass after which the loop goes on has issued its request. *)
Lemma loopBody_effects (retries : nat) (w : World)
    (r : Res (TaskResult + nat)) (w' : World) :
  loopBody env api taskId o startTime retries w = (r, w') ->
  now_calls w' = S (now_calls w) /\
  ((timedOut env o startTime (now_calls w) = true /\
    r = Throw (timeoutError env o) /\
    axios_calls w' = axios_calls w /\ trace w' = trace w) \/
   (timedOut env o startTime (now_calls w) = false /\
    axios_calls w' = S (axios_calls w) /\
    exists rest, trace w' = (trace w ++ EvRequest req :: rest)%list /\
                 requestsOf rest = []) \/
   (timedOut env o startTime (now_calls w) = false /\
    Js.truthy (apiKey api) = false /\
    r = Throw (Error apiKeyNotSetMessage) /\
    axios_calls w' = axios_calls w /\ trace w' = trace w)).
Proof.
  intros H. destruct (timedOut env o startTime (now_calls w)) eqn:Ht.
  - rewrite loopBody_timeout in H by exact Ht. injection H as <- <-.
    split; [reflexivity|]. left. repeat split; reflexivity.
  - rewrite loopBody_in_time in H by exact Ht.
    set (w0 := mkWorld (S (now_calls w)) (axios_calls w) (trace w) (logs w)) in *.
    unfold bind at 1 in H. unfold try_catch in H.
    destruct (poll_try env api taskId o w0) as [rt w1] eqn:Et.
    destruct (poll_try_effects w0 rt w1 Et) as (N1 & [(A1 & T1)|(K & A1 & T1 & R1)]).
    + (* one request was issued *)
      simpl in N1, A1, T1.
      assert (G : forall rest,
                 requestsOf rest = [] ->
                 trace w' = (trace w1 ++ rest)%list ->
                 exists rest0, trace w' = (trace w ++ EvRequest req :: rest0)%list /\
                               requestsOf rest0 = []).
      { intros rest Hr Hw. exists rest. rewrite Hw, T1, <- app_assoc. auto. }
      destruct rt as [[data| |k]|err].
      * injection H as <- <-. split; [exact N1|]. right; left.
        repeat split; auto. apply (G []); [reflexivity | now rewrite app_nil_r].
      * unfold bind in H.
        destruct (pause env (pollInterval_of o) w1) as [rp wp] eqn:Ep.
        destruct (pause_effects _ _ _ _ _ Ep) as (Np & Ap & Tp).
        assert (w' = wp) by (destruct rp; injection H as _ <-; reflexivity). subst wp.
        split; [congruence|]. right; left. repeat split; [congruence|].
        destruct Tp as [Tp|Tp].
        -- apply (G []); [reflexivity | now rewrite app_nil_r].
        -- apply (G [EvPause (pollInterval_of o)]); [reflexivity | exact Tp].
      * injection H as <- <-. split; [exact N1|]. right; left.
        repeat split; auto. apply (G []); [reflexivity | now rewrite app_nil_r].
      * destruct (poll_catch env o retries err w1) as [rc wc] eqn:Ec.
        destruct (poll_catch_effects retries err w1 rc wc Ec)
          as (Nc & Ac & [(-> & ->)|(-> & Tc & _)]).
        -- injection H as <- <-. split; [exact N1|]. right; left.
           repeat split; auto. apply (G []); [reflexivity | now rewrite app_nil_r].
        -- injection H as <- <-. split; [congruence|]. right; left.
           repeat split; [congruence|].
           apply (G [EvPause (backoff (S retries))]); [reflexivity | exact Tc].
    + (* the key is missing *)
      simpl in N1, A1, T1. subst rt.
      rewrite poll_catch_key_missing in H. injection H as <- <-.
      split; [exact N1|]. right; right. repeat split; auto.
Qed.

End Effects.

Lemma requestsOf_app (a b : list Event) :
  requestsOf (a ++ b) = (requestsOf a ++ requestsOf b)%list.
Proof.
  induction a as [|[r|q] a IH]; simpl; [reflexivity | now rewrite IH | exact IH].
Qed.

Section Run.
Variables (env : Env) (api : BflAPI) (taskId : string) (o : WaitResultOptions).
Variable startTime : Z.

Let req := statusRequest api taskId (pollingUrl o).

(** However the loop ends, and however long it runs: all it requests is the
    status request; it has read the clock at least once per request; and
    the j-th request it issued came after the timeout check of the j-th
    pass had not fired. *)
Lemma pollLoop_effects (fuel : nat) :
  forall (retries : nat) (w : World) (r : Res (option TaskResult)) (w' : World),
  pollLoop fuel env api taskId o startTime retries w = (r, w') ->
  exists rest,
    trace w' = (trace w ++ rest)%list /\
    Forall (fun rq => rq = req) (requestsOf rest) /\
    List.length (requestsOf rest) = (axios_calls w' - axios_calls w)%nat /\
    (axios_calls w <= axios_calls w')%nat /\
    (now_calls w <= now_calls w')%nat /\
    (axios_calls w' - axios_calls w <= now_calls w' - now_calls w)%nat /\
    (forall j, (j < axios_calls w' - axios_calls w)%nat ->
               timedOut env o startTime (now_calls w + j) = false).
Proof.
  induction fuel as [|fuel IH]; intros retries w r w' H.
  - injection H as <- <-. exists []. rewrite app_nil_r, Nat.sub_diag.
    repeat split; auto; try lia; intros j Hj; lia.
  - cbn [pollLoop] in H. unfold bind at 1 in H.
    destruct (loopBody env api taskId o startTime retries w) as [rb w1] eqn:Eb.
    destruct (loopBody_effects env api taskId o startTime retries w rb w1 Eb)
      as (N1 & [(Ht & -> & A1 & T1)|[(Ht & A1 & rest1 & T1 & R1)|(Ht & K & -> & A1 & T1)]]).
    + injection H as <- <-. exists []. rewrite app_nil_r, A1, Nat.sub_diag.
      repeat split; auto; try lia; intros j Hj; lia.
    + assert (Stop : w' = w1 ->
                exists rest,
                  trace w' = (trace w ++ rest)%list /\
                  Forall (fun rq => rq = req) (requestsOf rest) /\
                  List.length (requestsOf rest) = (axios_calls w' - axios_calls w)%nat /\
                  (axios_calls w <= axios_calls w')%nat /\
                  (now_calls w <= now_calls w')%nat /\
                  (axios_calls w' - axios_calls w <= now_calls w' - now_calls w)%nat /\
                  (forall j, (j < axios_calls w' - axios_calls w)%nat ->
                             timedOut env o startTime (now_calls w + j) = false)).
      { intros ->. exists (EvRequest req :: rest1). rewrite A1, N1.
        replace (S (axios_calls w) - axios_calls w)%nat with 1%nat by lia.
        repeat split; auto; try lia.
        - simpl. rewrite R1. constructor; auto.
        - simpl. rewrite R1. reflexivity.
        - intros j Hj. assert (j = 0%nat) by lia. subst j.
          rewrite Nat.add_0_r. exact Ht. }
      destruct rb as [[res|k]|e].
      * apply Stop. unfold ret in H. injection H as _ <-. reflexivity.
      * destruct (IH k w1 r w' H) as (rest2 & T2 & F2 & L2 & A2 & N2 & D2 & C2).
        exists ((EvRequest req :: rest1) ++ rest2)%list.
        repeat split; try lia.
        -- rewrite T2, T1, <- app_assoc. reflexivity.
        -- rewrite requestsOf_app. simpl. rewrite R1. simpl. constructor; auto.
        -- rewrite requestsOf_app. simpl. rewrite R1. simpl. rewrite L2. lia.
        -- intros j Hj. destruct j as [|j].
           ++ rewrite Nat.add_0_r. exact Ht.
           ++ replace (now_calls w + S j)%nat with (now_calls w1 + j)%nat by lia.
              apply C2. lia.
      * apply Stop. injection H as _ <-. reflexivity.
    + injection H as <- <-. exists []. rewrite app_nil_r, A1, Nat.sub_diag.
      repeat split; auto; try lia; intros j Hj; lia.
Qed.

End Run.

(** C7. A fetch that fails with an error whose text contains "moderated" or
    "Content Moderated" ends [waitForResult] at once with that error,
    whatever [maxRetries] and the counter are and whether or not the text
    also reads as transient: the pass issues its one request and nothing
    follows, no sleep and no further request. When it is the first fetch,
    exactly one request has been issued. *)
Theorem moderation_errors_are_never_retried
    (env : Env) (api : BflAPI) (taskId : string) (o : WaitResultOptions)
    (e : JsError) :
  let req := statusRequest api taskId (pollingUrl o) in
  let err := thrownByGetResult env (pollingUrl o) e in
  Js.truthy (apiKey api) = true ->
  Js.includes (message err) "moderated" = true \/
  Js.includes (message err) "Content Moderated" = true ->
  (forall startTime retries fuel w,
     timedOut env o startTime (now_calls w) = false ->
     axios_call env (axios_calls w) req = inr e ->
     exists w',
       pollLoop (S fuel) env api taskId o startTime retries w = (Throw err, w') /\
       axios_calls w' = S (axios_calls w) /\
       trace w' = (trace w ++ [EvRequest req])%list) /\
  (forall fuel,
     timedOut env o (date_now env 0) 1 = false ->
     axios_call env 0%nat req = inr e ->
     exists w',
       waitForResult (S fuel) env api taskId o world0 = (Throw err, w') /\
       axios_calls w' = 1%nat /\
       trace w' = [EvRequest req]).
Proof.
  intros req err Hkey Hmod.
  assert (Hm : isModeration (message err) = true).
  { unfold isModeration. destruct Hmod as [H|H]; rewrite H;
      [reflexivity | apply orb_true_r]. }
  assert (G : forall startTime retries fuel w,
             timedOut env o startTime (now_calls w) = false ->
             axios_call env (axios_calls w) req = inr e ->
             exists w',
               pollLoop (S fuel) env api taskId o startTime retries w = (Throw err, w') /\
               axios_calls w' = S (axios_calls w) /\
               trace w' = (trace w ++ [EvRequest req])%list).
  { intros startTime retries fuel w Ht Ha.
    destruct (loopBody_rethrow env api taskId o startTime Hkey retries w e Ht Ha)
      as (w' & E & _ & A & T); [left; exact Hm|].
    exists w'. cbn [pollLoop]. unfold bind at 1. rewrite E. auto. }
  split; [exact G|].
  intros fuel Ht Ha. rewrite waitForResult_unfold.
  destruct (G (date_now env 0) 0%nat fuel (mkWorld 1 0 [] []) Ht Ha) as (w' & E & A & T).
  exists w'. auto.
Qed.

(** An error text that is both: moderation wins over 503. *)
Lemma moderation_errors_are_never_retried_witness :
  exists w',
    waitForResult 4
      (Fixture.scripted Fixture.frozenClock []
         (inr (Error "503 Service Unavailable: Content Moderated")))
      Fixture.api "task_123" Fixture.fastOptions world0
      = (Throw (Error "503 Service Unavailable: Content Moderated"), w') /\
    axios_calls w' = 1%nat.
Proof.
  destruct (moderation_errors_are_never_retried
              (Fixture.scripted Fixture.frozenClock []
                 (inr (Error "503 Service Unavailable: Content Moderated")))
              Fixture.api "task_123" Fixture.fastOptions
              (Error "503 Service Unavailable: Content Moderated"))
    as [_ H].
  - reflexivity.
  - right. reflexivity.
  - destruct (H 3%nat) as (w' & E & A & _); [reflexivity | reflexivity |].
    exists w'. split; [exact E | exact A].
Defined.

(** ** A failure status *)

Section FailureStatus.
Variables (env : Env) (api : BflAPI) (taskId : string) (o : WaitResultOptions).
Variable startTime : Z.
Hypothesis key_set : Js.truthy (apiKey api) = true.

Let req := statusRequest api taskId (pollingUrl o).

(** [Content Moderated] ends the call at once: the message the code throws
    contains "moderated". *)
Lemma loopBody_content_moderated (retries : nat) (w : World) (data : TaskResult) :
  timedOut env o startTime (now_calls w) = false ->
  axios_call env (axios_calls w) req = inl data ->
  status data = "Content Moderated" ->
  exists w',
    loopBody env api taskId o startTime retries w
      = (Throw (Error contentModeratedMessage), w') /\
    axios_calls w' = S (axios_calls w) /\
    trace w' = (trace w ++ [EvRequest req])%list.
Proof.
  intros Ht Ha Hs.
  destruct (poll_try_content_moderated env api taskId o key_set
              (mkWorld (S (now_calls w)) (axios_calls w) (trace w) (logs w)) data Ha Hs)
    as (w1 & E1 & N1 & A1 & T1). simpl in N1, A1, T1.
  exists w1.
  rewrite (loopBody_caught env api taskId o startTime retries w w1 _ Ht E1).
  rewrite poll_catch_moderation by (vm_compute; reflexivity). auto.
Qed.

(** [Error] ends the call at once when the failure reason does not read as
    transient, or reads as moderation, or the counter has reached
    [maxRetries]. *)
Lemma loopBody_status_error (retries : nat) (w : World) (data : TaskResult) :
  timedOut env o startTime (now_calls w) = false ->
  axios_call env (axios_calls w) req = inl data ->
  status data = "Error" ->
  isModeration ("Generation failed: " ++ errorMsgOf data) = true \/
  isTransient ("Generation failed: " ++ errorMsgOf data) = false \/
  (maxRetries_of o <= Z.of_nat retries)%Z ->
  exists w',
    loopBody env api taskId o startTime retries w
      = (Throw (Error ("Generation failed: " ++ errorMsgOf data)), w') /\
    axios_calls w' = S (axios_calls w) /\
    trace w' = (trace w ++ [EvRequest req])%list.
Proof.
  intros Ht Ha Hs Hc.
  destruct (poll_try_status_error env api taskId o key_set
              (mkWorld (S (now_calls w)) (axios_calls w) (trace w) (logs w)) data Ha Hs)
    as (w1 & E1 & N1 & A1 & T1). simpl in N1, A1, T1.
  exists w1.
  rewrite (loopBody_caught env api taskId o startTime retries w w1 _ Ht E1).
  destruct (isModeration ("Generation failed: " ++ errorMsgOf data)) eqn:Hm.
  - rewrite poll_catch_moderation by exact Hm. auto.
  - rewrite poll_catch_fatal; [auto | exact Hm |].
    destruct Hc as [Hc|Hc]; [discriminate | exact Hc].
Qed.

(** But an [Error] whose failure reason reads as transient is caught by the
    loop's own [catch] block and retried like a failed fetch. *)
Lemma loopBody_status_error_retried (retries : nat) (w : World) (data : TaskResult) :
  timedOut env o startTime (now_calls w) = false ->
  axios_call env (axios_calls w) req = inl data ->
  status data = "Error" ->
  isModeration ("Generation failed: " ++ errorMsgOf data) = false ->
  isTransient ("Generation failed: " ++ errorMsgOf data) = true ->
  (Z.of_nat retries < maxRetries_of o)%Z ->
  exists w',
    loopBody env api taskId o startTime retries w = (Val (inr (S retries)), w') /\
    axios_calls w' = S (axios_calls w) /\
    trace w' = (trace w ++ [EvRequest req; EvPause (backoff (S retries))])%list.
Proof.
  intros Ht Ha Hs Hm Htr Hr.
  destruct (poll_try_status_error env api taskId o key_set
              (mkWorld (S (now_calls w)) (axios_calls w) (trace w) (logs w)) data Ha Hs)
    as (w1 & E1 & N1 & A1 & T1). simpl in N1, A1, T1.
  destruct (poll_catch_retry env o retries
              (Error ("Generation failed: " ++ errorMsgOf data)) w1 Hm Htr Hr)
    as (w2 & E2 & N2 & A2 & T2).
  exists w2.
  rewrite (loopBody_caught env api taskId o startTime retries w w1 _ Ht E1), E2.
  repeat split; [congruence|]. rewrite T2, T1, <- app_assoc. reflexivity.
Qed.

End FailureStatus.

(** C1, at the input where the code departs from it. The first status
    answer is [Error] with the failure reason "upstream returned 503";
    [maxRetries] has its default 3. The call does not fail: the error thrown
    for the status is caught, classified as transient, slept on for 2
    seconds and the status is fetched again; the second answer being
    [Ready], the call returns it. *)
Theorem error_status_reason_503_is_retried :
  let env := Fixture.scripted Fixture.frozenClock
               [inl (Fixture.errorTask "upstream returned 503")]
               (inl Fixture.readyTask) in
  let req := statusRequest Fixture.api "task_123" None in
  exists w',
    waitForResult 5 env Fixture.api "task_123" noOptions world0
      = (Val (Some Fixture.readyTask), w') /\
    axios_calls w' = 2%nat /\
    trace w' = [EvRequest req; EvPause 2; EvRequest req].
Proof.
  eexists. vm_compute. repeat split; reflexivity.
Qed.

(** ** The timeout *)

Lemma timedOut_iff (env : Env) (o : WaitResultOptions) (startTime : Z) (k : nat) :
  timedOut env o startTime k = true <->
  (timeout_of o < elapsed_seconds startTime (date_now env k))%Q.
Proof.
  unfold timedOut, Qltb. rewrite negb_true_iff. split.
  - intros H. apply Qnot_le_lt. intros L. apply Qle_bool_iff in L. congruence.
  - intros H. destruct (Qle_bool _ _) eqn:E; [|reflexivity].
    apply Qle_bool_iff in E. apply Qlt_not_le in H. contradiction.
Qed.

Section Timeout.
Variables (env : Env) (api : BflAPI) (taskId : string) (o : WaitResultOptions).
Variable startTime : Z.
Hypothesis key_set : Js.truthy (apiKey api) = true.

Let req := statusRequest api taskId (pollingUrl o).

(** A task that stays [Pending]: the call fails with the timeout error at
    the first check that fires, after one request per earlier pass. *)
Lemma pollLoop_waiting_then_timeout (n : nat) :
  forall (w : World) (retries fuel : nat),
  Qltb (pollInterval_of o) 0 = false ->
  (forall k, (k < n)%nat ->
     exists data, axios_call env (axios_calls w + k) req = inl data /\
                  keepWaiting (status data) = true) ->
  (forall k, (k < n)%nat -> timedOut env o startTime (now_calls w + k) = false) ->
  timedOut env o startTime (now_calls w + n) = true ->
  (n < fuel)%nat ->
  exists w',
    pollLoop fuel env api taskId o startTime retries w = (Throw (timeoutError env o), w') /\
    axios_calls w' = (axios_calls w + n)%nat /\
    trace w' = (trace w ++ waitingTrace req (pollInterval_of o) n)%list.
Proof.
  induction n as [|n IH]; intros w retries fuel Hp Hw Ht Hto Hf;
    (destruct fuel as [|fuel]; [lia|]).
  - rewrite Nat.add_0_r in Hto.
    exists (mkWorld (S (now_calls w)) (axios_calls w) (trace w) (logs w)).
    cbn [pollLoop]. unfold bind at 1.
    rewrite loopBody_timeout by exact Hto. simpl.
    split; [reflexivity|]. split; [lia | now rewrite app_nil_r].
  - destruct (Hw 0%nat) as (data & Ha & Hk); [lia|].
    rewrite Nat.add_0_r in Ha.
    destruct (keepWaiting_not_terminal _ Hk) as (K1 & K2 & K3).
    destruct (loopBody_waiting env api taskId o startTime key_set retries w data)
      as (w1 & E & N & A & T); auto.
    { rewrite <- (Nat.add_0_r (now_calls w)). apply Ht. lia. }
    destruct (IH w1 0%nat fuel) as (w' & E' & A' & T'); auto.
    { intros k Hk'. rewrite A. replace (S (axios_calls w) + k)%nat
        with (axios_calls w + S k)%nat by lia. apply Hw. lia. }
    { intros k Hk'. rewrite N. replace (S (now_calls w) + k)%nat
        with (now_calls w + S k)%nat by lia. apply Ht. lia. }
    { rewrite N. replace (S (now_calls w) + n)%nat
        with (now_calls w + S n)%nat by lia. exact Hto. }
    { lia. }
    exists w'. cbn [pollLoop]. unfold bind at 1. rewrite E.
    repeat split; [exact E' | lia |].
    rewrite T', T. cbn [waitingTrace]. rewrite <- app_assoc. reflexivity.
Qed.

End Timeout.

Lemma timedOut_false_iff (env : Env) (o : WaitResultOptions) (startTime : Z) (k : nat) :
  timedOut env o startTime k = false <->
  (elapsed_seconds startTime (date_now env k) <= timeout_of o)%Q.
Proof. unfold timedOut, Qltb. rewrite negb_false_iff. apply Qle_bool_iff. Qed.



(** ** The status request *)

(** What [_makeRequest] sends for a GET: the URL under the base URL, with
    the key header, the 30 second timeout and the bound of 5 redirects. *)
Lemma makeRequest_GET_request (env : Env) (api : BflAPI) (endpoint : string)
    (data : option string) (w : World) :
  trace (snd (_makeRequest env api "GET" endpoint data w)) =
    (trace w ++ [EvRequest (mkAxiosRequest "GET" (baseUrl api ++ endpoint) None
                              (requestHeaders api) (Some 30000%Z) (Some 5%Z))])%list.
Proof.
  unfold _makeRequest, makeRequest_catch. run_monad.
  destruct (axios_call env (axios_calls w) _); reflexivity.
Qed.

(** C5, as the code has it. Every request that [waitForResult] issues is a
    GET that carries the authentication header [x-key] with the API key.
    When no polling URL is given it is the request that [_makeRequest] sends
    for [/v1/get_result?id=<taskId>]: under the base URL, with the 30 second
    timeout and at most 5 redirects. When a polling URL is given the request
    goes to that URL as [getResult] builds it, not through [_makeRequest]. *)
Theorem status_requests_carry_the_key
    (env : Env) (api : BflAPI) (taskId : string) (o : WaitResultOptions)
    (fuel : nat) (r : Res (option TaskResult)) (w' : World) (rq : AxiosRequest) :
  waitForResult fuel env api taskId o world0 = (r, w') ->
  In rq (requestsOf (trace w')) ->
  req_method rq = "GET" /\
  In ("x-key", apiKey api) (req_headers rq) /\
  (Js.truthy_opt (pollingUrl o) = false ->
     req_url rq = baseUrl api ++ "/v1/get_result?id=" ++ taskId /\
     req_timeout rq = Some 30000%Z /\
     req_maxRedirects rq = Some 5%Z /\
     forall w0,
       trace (snd (_makeRequest env api "GET" ("/v1/get_result?id=" ++ taskId) None w0))
         = (trace w0 ++ [EvRequest rq])%list) /\
  (Js.truthy_opt (pollingUrl o) = true -> pollingUrl o = Some (req_url rq)).
Proof.
  intros H Hin. rewrite waitForResult_unfold in H.
  destruct (pollLoop_effects env api taskId o (date_now env 0) fuel 0%nat _ r w' H)
    as (rest & T & F & _).
  simpl in T. rewrite T in Hin.
  rewrite Forall_forall in F. apply F in Hin. subst rq.
  unfold statusRequest. destruct (Js.truthy_opt (pollingUrl o)) eqn:E.
  - repeat split; simpl; auto; try discriminate.
    intros _. destruct (pollingUrl o); [reflexivity | discriminate].
  - repeat split; simpl; auto; try discriminate.
    intros w0. apply makeRequest_GET_request.
Qed.

Lemma status_requests_carry_the_key_witness :
  let rq := statusRequest Fixture.api "task_123" None in
  In ("x-key", "test_api_key_for_unit_tests") (req_headers rq) /\
  req_timeout rq = Some 30000%Z /\
  req_maxRedirects rq = Some 5%Z.
Proof.
  intros rq.
  pose (env := Fixture.scripted Fixture.frozenClock [inl Fixture.pendingTask]
                 (inl Fixture.readyTask)).
  destruct (status_requests_carry_the_key env Fixture.api "task_123"
              Fixture.fastOptions 3
              (fst (waitForResult 3 env Fixture.api "task_123" Fixture.fastOptions world0))
              (snd (waitForResult 3 env Fixture.api "task_123" Fixture.fastOptions world0))
              rq) as (_ & K & F & _).
  - apply surjective_pairing.
  - vm_compute. left. reflexivity.
  - destruct (F eq_refl) as (_ & T & R & _).
    split; [exact K|]. split; [exact T | exact R].
Defined.

(** C5 as stated fails when a polling URL is given: the request of
    [getResult] then has neither the timeout nor the redirect bound. *)
Lemma polling_url_request_has_no_timeout :
  let o := mkWaitResultOptions (Some "https://api.eu2.bfl.ai/v1/get_result?id=abc123")
             None None None (Some false) in
  let env := Fixture.scripted Fixture.frozenClock [] (inl Fixture.readyTask) in
  exists rq,
    requestsOf (trace (snd (waitForResult 1 env Fixture.api "abc123" o world0))) = [rq] /\
    req_url rq = "https://api.eu2.bfl.ai/v1/get_result?id=abc123" /\
    req_timeout rq = None /\
    req_maxRedirects rq = None /\
    req_timeout rq <> Some 30000%Z.
Proof.
  eexists. vm_compute. repeat split; try reflexivity. discriminate.
Qed.

(** ** Redaction of the API key *)

Lemma substring_all (s : string) : substring 0 (String.length s) s = s.
Proof. induction s as [|c s IH]; simpl; [reflexivity | now rewrite IH]. Qed.

(** A string is what comes before position [k] followed by the rest. *)
Lemma substring_tail (s : string) :
  forall k, (k <= String.length s)%nat ->
  exists front, String.length front = k /\
                s = front ++ substring k (String.length s - k) s.
Proof.
  induction s as [|c s IH]; intros k Hk; simpl in Hk.
  - assert (k = 0%nat) by lia. subst k. exists "". split; reflexivity.
  - destruct k as [|k].
    + exists "". split; [reflexivity|].
      rewrite Nat.sub_0_r. symmetry. apply (substring_all (String c s)).
    + destruct (IH k) as (front & L & E); [lia|].
      exists (String c front). split; [simpl; now rewrite L|].
      simpl. rewrite <- E. reflexivity.
Qed.

Lemma redact_long (key : string) :
  (8 <= String.length key)%nat ->
  _redactApiKey key = "xxx..." ++ Js.slice_last 4 key.
Proof.
  intros H. unfold _redactApiKey.
  destruct key as [|c key]; [simpl in H; lia|].
  cbn [Js.truthy negb orb].
  destruct (Nat.ltb_spec (String.length (String c key)) 8); [lia | reflexivity].
Qed.

Lemma redact_short (key : string) :
  (String.length key < 8)%nat -> _redactApiKey key = "[REDACTED]".
Proof.
  intros H. unfold _redactApiKey.
  destruct (Nat.ltb_spec (String.length key) 8); [|lia].
  now rewrite orb_true_r.
Qed.

(** The log of [_makeRequest]: first the request, with the sanitized
    headers; the entries after it have no headers. *)
Lemma makeRequest_logs (env : Env) (api : BflAPI) (method endpoint : string)
    (data : option string) (w : World) :
  exists rest,
    logs (snd (_makeRequest env api method endpoint data w)) =
      (logs w ++ mkLogEntry ApiLogger Debug ("API request: " ++ method ++ " " ++ endpoint)
                   (Some (sanitizedHeaders api)) :: rest)%list /\
    Forall (fun entry => log_headers entry = None) rest.
Proof.
  unfold _makeRequest, makeRequest_catch. run_monad.
  destruct (String.eqb (Js.toUpperCase method) "GET");
    [|destruct (String.eqb (Js.toUpperCase method) "POST")]; simpl;
    try match goal with |- context [axios_call env ?k ?rq] =>
      destruct (axios_call env k rq) end; simpl;
    rewrite <- app_assoc; eexists; (split; [reflexivity|]);
    repeat constructor.
Qed.

(** ** What the log shows of the key *)

Lemma sameLines_app (a1 a2 b1 b2 : list LogEntry) :
  sameLines a1 a2 -> sameLines b1 b2 -> sameLines (a1 ++ b1) (a2 ++ b2).
Proof. unfold sameLines. intros A B. rewrite !map_app, A, B. reflexivity. Qed.

Lemma logOutput_sameLines (stamp : nat -> string) (shown : Logger -> LogLevel -> bool)
    (l1 : list LogEntry) :
  forall (l2 : list LogEntry) (k : nat),
  sameLines l1 l2 -> logOutput stamp shown k l1 = logOutput stamp shown k l2.
Proof.
  unfold sameLines. induction l1 as [|e1 l1 IH]; intros [|e2 l2] k H; simpl in H;
    try discriminate H; [reflexivity|].
  injection H as Hs Hl Hm Hr. cbn [logOutput]. unfold printedLine.
  rewrite Hs, Hl, Hm, (IH l2 (S k) Hr). reflexivity.
Qed.

Section Related.
Context {A B : Type}.

Lemma related_ret (a : A) : related (ret a) (ret a).
Proof. intros w1 w2 H. split; [reflexivity | exact H]. Qed.

Lemma related_throw (e : JsError) : related (@throw A e) (@throw A e).
Proof. intros w1 w2 H. split; [reflexivity | exact H]. Qed.

Lemma related_bind (c1 c2 : M A) (k1 k2 : A -> M B) :
  related c1 c2 -> (forall a, related (k1 a) (k2 a)) ->
  related (bind c1 k1) (bind c2 k2).
Proof.
  intros Hc Hk w1 w2 H. destruct (Hc w1 w2 H) as [R W]. unfold bind.
  destruct (c1 w1) as [r1 w1'], (c2 w2) as [r2 w2']. simpl in R, W. subst r2.
  destruct r1 as [a|e]; [apply Hk; exact W | split; [reflexivity | exact W]].
Qed.

Lemma related_try_catch (c1 c2 : M A) (h1 h2 : JsError -> M A) :
  related c1 c2 -> (forall e, related (h1 e) (h2 e)) ->
  related (try_catch c1 h1) (try_catch c2 h2).
Proof.
  intros Hc Hh w1 w2 H. destruct (Hc w1 w2 H) as [R W]. unfold try_catch.
  destruct (c1 w1) as [r1 w1'], (c2 w2) as [r2 w2']. simpl in R, W. subst r2.
  destruct r1 as [a|e]; [split; [reflexivity | exact W] | apply Hh; exact W].
Qed.

End Related.

Lemma related_log (src : Logger) (lvl : LogLevel) (msg : string)
    (h1 h2 : option (list (string * string))) :
  related (log src lvl msg h1) (log src lvl msg h2).
Proof.
  intros w1 w2 (N & X & L). split; [reflexivity|]. unfold log, sameOutside. simpl.
  repeat split; [exact N | exact X |]. apply sameLines_app; [exact L | reflexivity].
Qed.

Lemma related_Date_now (env : Env) : related (Date_now env) (Date_now env).
Proof.
  intros w1 w2 (N & X & L). unfold Date_now, sameOutside. simpl. rewrite N.
  repeat split; assumption.
Qed.

Lemma related_axios (env : Env) (r1 r2 : AxiosRequest) :
  keyBlind env ->
  req_method r1 = req_method r2 -> req_url r1 = req_url r2 ->
  req_data r1 = req_data r2 ->
  related (axios env r1) (axios env r2).
Proof.
  intros K Hm Hu Hd w1 w2 (N & X & L). unfold axios, sameOutside.
  rewrite X, (K (axios_calls w2) r1 r2 Hm Hu Hd).
  destruct (axios_call env (axios_calls w2) r2); simpl; repeat split; assumption.
Qed.

Lemma related_pause (env : Env) (seconds : Q) : related (pause env seconds) (pause env seconds).
Proof.
  unfold pause. destruct (Qltb seconds 0); [apply related_throw|].
  apply related_bind; [apply related_log|]. intros _ w1 w2 (N & X & L).
  unfold sameOutside. simpl. repeat split; assumption.
Qed.

Section KeyBlind.
Variables (env : Env) (api1 api2 : BflAPI).
Hypothesis blind : keyBlind env.
Hypothesis same_base : baseUrl api1 = baseUrl api2.

Lemma related_makeRequest (method endpoint : string) (data : option string) :
  related (_makeRequest env api1 method endpoint data)
          (_makeRequest env api2 method endpoint data).
Proof.
  unfold _makeRequest, makeRequest_catch.
  apply related_bind; [apply related_log|]. intros _.
  apply related_try_catch.
  - apply related_bind.
    + destruct (String.eqb (Js.toUpperCase method) "GET");
        [|destruct (String.eqb (Js.toUpperCase method) "POST")];
        first [ apply related_axios; [exact blind | | |]; simpl;
                first [reflexivity | now rewrite same_base]
              | apply related_throw ].
    + intros resp. apply related_bind; [apply related_log | intros _; apply related_ret].
  - intros e. apply related_bind; [apply related_log | intros _; apply related_throw].
Qed.

Hypothesis key1 : Js.truthy (apiKey api1) = true.
Hypothesis key2 : Js.truthy (apiKey api2) = true.

Lemma related_verifyApiKey : related (_verifyApiKey api1) (_verifyApiKey api2).
Proof. unfold _verifyApiKey. rewrite key1, key2. apply related_ret. Qed.

Lemma related_getResult (taskId : string) (pu : option string) :
  related (getResult env api1 taskId pu) (getResult env api2 taskId pu).
Proof.
  unfold getResult.
  apply related_bind; [apply related_verifyApiKey|]. intros _.
  apply related_try_catch.
  - apply related_bind.
    + destruct (Js.truthy_opt pu);
        [apply related_axios; [exact blind | | |]; reflexivity
        | apply related_makeRequest].
    + intros res. apply related_bind; [apply related_log | intros _; apply related_ret].
  - intros e. apply related_bind; [apply related_log | intros _; apply related_throw].
Qed.

Lemma related_loopBody (taskId : string) (o : WaitResultOptions) (startTime : Z)
    (retries : nat) :
  related (loopBody env api1 taskId o startTime retries)
          (loopBody env api2 taskId o startTime retries).
Proof.
  unfold loopBody.
  apply related_bind; [apply related_Date_now|]. intros now.
  destruct (Qltb (timeout_of o) (elapsed_seconds startTime now)); [apply related_throw|].
  apply related_bind.
  - apply related_try_catch.
    + unfold poll_try. apply related_bind; [apply related_getResult|]. intros res.
      destruct (String.eqb (status res) "Ready"); [apply related_ret|].
      destruct (String.eqb (status res) "Error"); [apply related_throw|].
      destruct (String.eqb (status res) "Content Moderated");
        [apply related_throw | apply related_ret].
    + intros e. unfold poll_catch.
      destruct (isModeration (message e)); [apply related_throw|].
      destruct (isTransient (message e) && (Z.of_nat retries <? maxRetries_of o)%Z);
        [|apply related_throw].
      apply related_bind; [apply related_log|]. intros _.
      apply related_bind; [apply related_pause | intros _; apply related_ret].
  - intros [res| |k]; try apply related_ret.
    apply related_bind; [apply related_pause | intros _; apply related_ret].
Qed.

Lemma related_pollLoop (taskId : string) (o : WaitResultOptions) (startTime : Z)
    (fuel : nat) :
  forall retries,
  related (pollLoop fuel env api1 taskId o startTime retries)
          (pollLoop fuel env api2 taskId o startTime retries).
Proof.
  induction fuel as [|fuel IH]; intros retries; cbn [pollLoop]; [apply related_ret|].
  apply related_bind; [apply related_loopBody|].
  intros [res|k]; [apply related_ret | apply IH].
Qed.

Lemma related_waitForResult (taskId : string) (o : WaitResultOptions) (fuel : nat) :
  related (waitForResult fuel env api1 taskId o) (waitForResult fuel env api2 taskId o).
Proof.
  unfold waitForResult. apply related_bind; [apply related_Date_now|].
  intros startTime. apply related_pollLoop.
Qed.

End KeyBlind.

Lemma sameOutside_refl (w : World) : sameOutside w w.
Proof. repeat split. Qed.

Lemma prefix_split (p s : string) :
  String.prefix p s = true -> exists b, s = p ++ b.
Proof.
  revert s. induction p as [|c p IH]; intros s H; [exists s; reflexivity|].
  destruct s as [|d s]; simpl in H; [discriminate H|].
  destruct (Ascii.ascii_dec c d) as [->|]; [|discriminate H].
  destruct (IH s H) as (b & ->). exists b. reflexivity.
Qed.

Lemma includes_split (s t : string) :
  Js.includes s t = true -> exists a b, s = a ++ t ++ b.
Proof.
  induction s as [|c s IH]; cbn [Js.includes].
  - destruct (String.prefix t "") eqn:E; [|intros H; discriminate H].
    intros _. destruct (prefix_split _ _ E) as (b & Hb). exists "", b. exact Hb.
  - destruct (String.prefix t (String c s)) eqn:E.
    + intros _. destruct (prefix_split _ _ E) as (b & Hb). exists "", b. exact Hb.
    + intros H. destruct (IH H) as (a & b & ->). exists (String c a), b. reflexivity.
Qed.

Lemma app_long_prefix (c a b d : string) :
  a ++ b = c ++ d -> (String.length c <= String.length a)%nat ->
  exists k, a = c ++ k.
Proof.
  revert a. induction c as [|x c IH]; intros a H L; [exists a; reflexivity|].
  destruct a as [|y a]; [simpl in L; lia|].
  simpl in H. injection H as -> H. simpl in L.
  destruct (IH a H) as (k & ->); [lia|]. exists k. reflexivity.
Qed.

(** A key of eight characters or more occurs in its redaction only when it
    starts with an [x] and has three dots in a row: when the key has the
    shape of a redaction. *)
Lemma key_in_redaction (key : string) :
  (8 <= String.length key)%nat ->
  Js.includes (_redactApiKey key) key = true ->
  firstChar key = Some "x"%char /\ Js.includes key "..." = true.
Proof.
  intros L H. rewrite redact_long in H by exact L.
  destruct (includes_split _ _ H) as (a & b & E).
  assert (Len : (String.length a + String.length key + String.length b = 10)%nat).
  { apply (f_equal String.length) in E. rewrite !length_app in E.
    unfold Js.slice_last in E. rewrite length_substring in E by lia. simpl in E. lia. }
  assert (D : forall m k', key = m ++ "..." ++ k' -> Js.includes key "..." = true).
  { intros m k' ->. apply includes_app_r. destruct k'; reflexivity. }
  destruct a as [|a1 [|a2 [|a3 a]]]; simpl in Len; [| | |lia].
  - symmetry in E. destruct (app_long_prefix "xxx..." key b _ E) as (k & Hk);
      [simpl; lia|].
    split; [rewrite Hk; reflexivity | apply (D "xxx" k); exact Hk].
  - simpl in E. injection E as <- E. symmetry in E.
    destruct (app_long_prefix "xx..." key b _ E) as (k & Hk); [simpl; lia|].
    split; [rewrite Hk; reflexivity | apply (D "xx" k); exact Hk].
  - simpl in E. injection E as <- <- E. symmetry in E.
    destruct (app_long_prefix "x..." key b _ E) as (k & Hk); [simpl; lia|].
    split; [rewrite Hk; reflexivity | apply (D "x" k); exact Hk].
Qed.



(** ** The constructor *)

Lemma constructor_key_available (env : Env) (opts : BflApiOptions) (w : World) :
  Js.truthy_opt (opt_apiKey opts) = true \/ Js.truthy_opt (env_BFL_API_KEY env) = true ->
  exists key,
    Js.truthy key = true /\
    (if Js.truthy_opt (opt_apiKey opts)
     then ret (match opt_apiKey opts with Some k => k | None => "" end)
     else getBflApiKey env None) w = (Val key, w).
Proof.
  intros H. destruct (Js.truthy_opt (opt_apiKey opts)) eqn:E.
  - destruct (opt_apiKey opts) as [k|]; [|discriminate].
    exists k. split; [exact E | reflexivity].
  - destruct H as [H|H]; [discriminate|].
    unfold getBflApiKey, Js.or_else. simpl.
    destruct (env_BFL_API_KEY env) as [k|]; [|discriminate].
    simpl in H. exists k. split; [exact H|]. rewrite H. reflexivity.
Qed.

(** C10. A base URL that is a non-empty string not starting with
    [https://] makes the constructor throw, whatever the key: no instance
    exists and nothing has been requested. With the default base URL the
    check passes and, a key being at hand, the instance is built for
    [https://api.bfl.ai]. An empty base URL passes the check too: the
    constructor never throws the HTTPS error for it and, a key being at
    hand, builds an instance whose base URL is empty. *)
Theorem constructor_requires_https (env : Env) (opts : BflApiOptions) (w : World) :
  let keyAtHand :=
    Js.truthy_opt (opt_apiKey opts) = true \/ Js.truthy_opt (env_BFL_API_KEY env) = true in
  (forall u,
     opt_baseUrl opts = Some u -> u <> "" -> Js.startsWith u "https://" = false ->
     BflAPI_constructor env opts w = (Throw (Error httpsRequiredMessage), w)) /\
  (opt_baseUrl opts = None -> keyAtHand ->
     exists api w',
       BflAPI_constructor env opts w = (Val api, w') /\
       baseUrl api = BASE_URL /\ Js.truthy (apiKey api) = true /\
       trace w' = trace w) /\
  (opt_baseUrl opts = Some "" ->
     (forall w', BflAPI_constructor env opts w <> (Throw (Error httpsRequiredMessage), w')) /\
     (keyAtHand ->
        exists api w',
          BflAPI_constructor env opts w = (Val api, w') /\
          baseUrl api = "" /\ Js.truthy (apiKey api) = true /\
          trace w' = trace w)).
Proof.
  intros keyAtHand. repeat apply conj.
  - intros u Hu Hne Hs. unfold BflAPI_constructor. rewrite Hu, Hs.
    destruct u as [|c u]; [congruence | reflexivity].
  - intros Hu Hk. unfold BflAPI_constructor. rewrite Hu.
    change (Js.truthy BASE_URL && negb (Js.startsWith BASE_URL "https://")) with false.
    cbv iota.
    destruct (constructor_key_available env opts w Hk) as (key & T & E).
    unfold bind at 1. rewrite E. run_monad.
    eexists. eexists. repeat split; first [exact T | reflexivity].
  - intros Hu. unfold BflAPI_constructor. rewrite Hu. cbn [Js.truthy andb].
    split.
    + intros w' H. unfold bind at 1 in H.
      destruct (Js.truthy_opt (opt_apiKey opts)).
      * run_monad. discriminate H.
      * unfold getBflApiKey in H.
        destruct (Js.or_else None (env_BFL_API_KEY env)) as [k|];
          [destruct (Js.truthy k)|]; run_monad; try discriminate H;
          injection H as H _; vm_compute in H; discriminate H.
    + intros Hk.
      destruct (constructor_key_available env opts w Hk) as (key & T & E).
      unfold bind at 1. rewrite E. run_monad.
      eexists. eexists. repeat split; first [exact T | reflexivity].
Qed.

(** The base URL of the unit test [should reject non-HTTPS base URLs]. *)
Lemma constructor_requires_https_witness :
  BflAPI_constructor
    (Fixture.scripted Fixture.frozenClock [] (inl Fixture.readyTask))
    (mkBflApiOptions (Some "test_key") (Some "http://insecure.example.com") (Some "ERROR"))
    world0
  = (Throw (Error "API base URL must use HTTPS protocol for security"), world0).
Proof.
  destruct (constructor_requires_https
              (Fixture.scripted Fixture.frozenClock [] (inl Fixture.readyTask))
              (mkBflApiOptions (Some "test_key") (Some "http://insecure.example.com")
                 (Some "ERROR"))
              world0) as (H & _).
  apply (H "http://insecure.example.com"); [reflexivity | discriminate | reflexivity].
Defined.

(** * The origin validator *)

(** ** Text *)

Lemma append_assoc (a b c : string) : (a ++ b) ++ c = a ++ (b ++ c).
Proof. induction a as [|x a IH]; simpl; [reflexivity | now rewrite IH]. Qed.

Lemma append_empty_r (a : string) : a ++ "" = a.
Proof. induction a as [|x a IH]; simpl; [reflexivity | now rewrite IH]. Qed.

Lemma allChars_app (P : ascii -> bool) (a b : string) :
  allChars P (a ++ b) = allChars P a && allChars P b.
Proof.
  induction a as [|x a IH]; simpl; [reflexivity|].
  rewrite IH. apply andb_assoc.
Qed.

Lemma allChars_impl (P Q : ascii -> bool) (s : string) :
  (forall c, P c = true -> Q c = true) ->
  allChars P s = true -> allChars Q s = true.
Proof.
  intros PQ. induction s as [|x s IH]; simpl; [reflexivity|].
  intros H. apply andb_true_iff in H. destruct H as [H1 H2].
  rewrite (PQ _ H1), (IH H2). reflexivity.
Qed.

Lemma allChars_hasChar (P : ascii -> bool) (c : ascii) (s : string) :
  allChars P s = true -> P c = false -> hasChar c s = false.
Proof.
  intros H Hc. induction s as [|x s IH]; simpl in *; [reflexivity|].
  apply andb_true_iff in H. destruct H as [H1 H2].
  rewrite (IH H2), orb_false_r.
  destruct (Ascii.eqb_spec x c) as [->|]; [congruence | reflexivity].
Qed.

Lemma hasChar_app (c : ascii) (a b : string) :
  hasChar c (a ++ b) = hasChar c a || hasChar c b.
Proof.
  induction a as [|x a IH]; simpl; [reflexivity|].
  rewrite IH. apply orb_assoc.
Qed.

Lemma includes_hasChar (s sub : string) (c : ascii) :
  Js.includes s (String c sub) = true -> hasChar c s = true.
Proof.
  induction s as [|x s IH]; cbn [Js.includes hasChar].
  - simpl. discriminate.
  - cbn [String.prefix]. destruct (ascii_dec c x) as [->|N].
    + intros _. now rewrite Ascii.eqb_refl.
    + intros H. apply IH in H. rewrite H. apply orb_true_r.
Qed.

Lemma prefix_refl (s : string) : String.prefix s s = true.
Proof.
  induction s as [|x s IH]; [reflexivity|]. cbn [String.prefix].
  destruct (ascii_dec x x); [exact IH | congruence].
Qed.

Lemma includes_refl (s : string) : Js.includes s s = true.
Proof. destruct s; cbn [Js.includes]; now rewrite prefix_refl. Qed.

Lemma splitFirst_char (c : ascii) (h r : string) :
  hasChar c h = false ->
  Validator.splitFirst (String c "") (h ++ String c r) = Some (h, r).
Proof.
  induction h as [|x h IH]; intros H.
  - simpl. destruct (ascii_dec c c); [|congruence].
    destruct r; reflexivity.
  - simpl in H. apply orb_false_iff in H. destruct H as [H1 H2].
    change (String x h ++ String c r) with (String x (h ++ String c r)).
    cbn [Validator.splitFirst String.prefix].
    destruct (ascii_dec c x) as [->|N]; [rewrite Ascii.eqb_refl in H1; discriminate|].
    rewrite (IH H2). reflexivity.
Qed.

Lemma splitFirst_char_none (c : ascii) (h : string) :
  hasChar c h = false -> Validator.splitFirst (String c "") h = None.
Proof.
  induction h as [|x h IH]; intros H; [reflexivity|].
  simpl in H. apply orb_false_iff in H. destruct H as [H1 H2].
  cbn [Validator.splitFirst String.prefix].
  destruct (ascii_dec c x) as [->|N]; [rewrite Ascii.eqb_refl in H1; discriminate|].
  rewrite (IH H2). reflexivity.
Qed.

Lemma splitLast_none (c : ascii) (h : string) :
  hasChar c h = false -> Validator.splitLast c h = None.
Proof.
  induction h as [|x h IH]; intros H; [reflexivity|].
  simpl in H. apply orb_false_iff in H. destruct H as [H1 H2].
  cbn [Validator.splitLast]. rewrite (IH H2), H1. reflexivity.
Qed.

Lemma splitLast_char (c : ascii) (a b : string) :
  hasChar c b = false ->
  Validator.splitLast c (a ++ String c b) = Some (a, b).
Proof.
  intros H. induction a as [|x a IH].
  - cbn [append Validator.splitLast]. rewrite (splitLast_none c b H), Ascii.eqb_refl.
    reflexivity.
  - change (String x a ++ String c b) with (String x (a ++ String c b)).
    cbn [Validator.splitLast]. rewrite IH. reflexivity.
Qed.

Lemma splitOn_none (c : ascii) (a : string) :
  hasChar c a = false -> Validator.splitOn c a = [a].
Proof.
  induction a as [|x a IH]; intros H; [reflexivity|].
  simpl in H. apply orb_false_iff in H. destruct H as [H1 H2].
  cbn [Validator.splitOn]. rewrite H1, (IH H2). reflexivity.
Qed.

Lemma splitOn_app (c : ascii) (a b : string) :
  hasChar c a = false ->
  Validator.splitOn c (a ++ String c b) = a :: Validator.splitOn c b.
Proof.
  induction a as [|x a IH]; intros H.
  - simpl. now rewrite Ascii.eqb_refl.
  - simpl in H. apply orb_false_iff in H. destruct H as [H1 H2].
    change (String x a ++ String c b) with (String x (a ++ String c b)).
    cbn [Validator.splitOn]. rewrite H1, (IH H2). reflexivity.
Qed.

(** Splitting undoes joining, for texts without the separator. *)
Lemma splitOn_concat (c : ascii) (ts : list string) :
  ts <> [] -> Forall (fun t => hasChar c t = false) ts ->
  Validator.splitOn c (String.concat (String c "") ts) = ts.
Proof.
  induction ts as [|t ts IH]; intros N F; [contradiction|].
  inversion F as [|? ? Ht Fts]; subst.
  destruct ts as [|t2 ts'].
  - cbn [String.concat]. apply splitOn_none, Ht.
  - change (String.concat (String c "") (t :: t2 :: ts'))
      with (t ++ String c (String.concat (String c "") (t2 :: ts'))).
    rewrite (splitOn_app c t _ Ht), IH; [reflexivity | discriminate | exact Fts].
Qed.

Lemma takeUntil_app (stop : ascii -> bool) (a rest : string) :
  allChars (fun c => negb (stop c)) a = true ->
  match rest with EmptyString => true | String c _ => stop c end = true ->
  Validator.takeUntil stop (a ++ rest) = a.
Proof.
  intros H R. induction a as [|x a IH].
  - destruct rest as [|c rest]; [reflexivity|]. simpl. now rewrite R.
  - simpl in H. apply andb_true_iff in H. destruct H as [H1 H2].
    apply negb_true_iff in H1. simpl. rewrite H1, (IH H2). reflexivity.
Qed.

Lemma dropWhile_app (skip : ascii -> bool) (a rest : string) :
  allChars skip a = true ->
  match rest with EmptyString => true | String c _ => negb (skip c) end = true ->
  Validator.dropWhile skip (a ++ rest) = rest.
Proof.
  intros H R. induction a as [|x a IH].
  - destruct rest as [|c rest]; [reflexivity|]. apply negb_true_iff in R.
    simpl. now rewrite R.
  - simpl in H. apply andb_true_iff in H. destruct H as [H1 H2].
    simpl. rewrite H1. apply IH, H2.
Qed.

Lemma toLowerCase_length (p : string) :
  String.length (Js.toLowerCase p) = String.length p.
Proof. induction p as [|x p IH]; simpl; [reflexivity | now rewrite IH]. Qed.

Lemma toLowerCase_app (a b : string) :
  Js.toLowerCase (a ++ b) = Js.toLowerCase a ++ Js.toLowerCase b.
Proof. induction a as [|x a IH]; simpl; [reflexivity | now rewrite IH]. Qed.

Lemma allChars_lower (Q : ascii -> bool) (p : string) :
  allChars Q (Js.toLowerCase p) = allChars (fun c => Q (Js.lower_ascii c)) p.
Proof.
  induction p as [|x p IH]; simpl; [reflexivity | now rewrite IH].
Qed.

(** A text of visible characters is left as it is when the spaces around
    it and the tabs and newlines inside it are dropped. *)
Lemma visible_text_is_kept (s : string) :
  allChars isVisible s = true ->
  Validator.remove Validator.isTabOrNewline
    (Validator.dropWhileEnd Validator.isControlOrSpace
       (Validator.dropWhile Validator.isControlOrSpace s)) = s.
Proof.
  intros H.
  assert (V : forall c, isVisible c = true ->
                        Validator.isControlOrSpace c = false /\
                        Validator.isTabOrNewline c = false).
  { intros c. destruct c as [[] [] [] [] [] [] [] []]; cbv; intros E;
      first [discriminate E | split; reflexivity]. }
  assert (D : Validator.dropWhile Validator.isControlOrSpace s = s).
  { destruct s as [|c s]; [reflexivity|]. simpl in H. apply andb_true_iff in H.
    destruct H as [H _]. simpl. now rewrite (proj1 (V c H)). }
  rewrite D.
  assert (E : Validator.dropWhileEnd Validator.isControlOrSpace s = s).
  { induction s as [|c s IH]; [reflexivity|].
    simpl in H. apply andb_true_iff in H. destruct H as [H1 H2].
    cbn [Validator.dropWhileEnd]. rewrite IH.
    - destruct s; [now rewrite (proj1 (V c H1)) | reflexivity].
    - exact H2.
    - destruct s as [|c' s]; [reflexivity|]. simpl in H2.
      apply andb_true_iff in H2. destruct H2 as [H2 _]. simpl.
      now rewrite (proj1 (V c' H2)). }
  rewrite E. clear D E.
  induction s as [|c s IH]; [reflexivity|].
  simpl in H. apply andb_true_iff in H. destruct H as [H1 H2].
  simpl. now rewrite (proj2 (V c H1)), (IH H2).
Qed.

(** ** Octets, ports and groups *)

Lemma checkFrom_spec (P : N -> bool) (count : nat) (n p : N) :
  checkFrom P n count = true -> (n <= p < n + N.of_nat count)%N -> P p = true.
Proof.
  revert n. induction count as [|k IH]; intros n H R; [lia|].
  cbn [checkFrom] in H. apply andb_true_iff in H. destruct H as [H1 H2].
  destruct (N.eq_dec n p) as [<-|NE]; [exact H1|].
  apply (IH (N.succ n) H2). lia.
Qed.

(** Checked on all 256 octets: the decimal text of an octet is made of
    digits and [parseOctet] reads it back. *)
Lemma octets_checked :
  checkFrom (fun a => allChars Validator.isDigit (octetText a) &&
                      Js.truthy (octetText a) &&
                      match Validator.parseOctet (octetText a) with
                      | Some n => N.eqb n a
                      | None => false
                      end) 0 256 = true.
Proof. vm_compute. reflexivity. Qed.

Lemma octet_text (a : N) :
  (a < 256)%N ->
  allChars Validator.isDigit (octetText a) = true /\
  octetText a <> "" /\
  Validator.parseOctet (octetText a) = Some a.
Proof.
  intros H. pose proof (checkFrom_spec _ _ 0 a octets_checked) as I. cbv beta in I.
  assert (R : (0 <= a < 0 + N.of_nat 256)%N) by lia.
  apply I in R. clear I. rename R into I.
  apply andb_true_iff in I. destruct I as [I I2].
  apply andb_true_iff in I. destruct I as [I1 I3].
  split; [exact I1|]. split; [intros E; rewrite E in I3; discriminate I3|].
  destruct (Validator.parseOctet (octetText a)) as [n|]; [|discriminate].
  apply N.eqb_eq in I2. now subst n.
Qed.

Lemma digits_have_no (c : ascii) (s : string) :
  Validator.isDigit c = false -> allChars Validator.isDigit s = true -> hasChar c s = false.
Proof. intros Hc H. exact (allChars_hasChar Validator.isDigit c s H Hc). Qed.

Lemma parseIPv4_dotted (a b c d : N) :
  (a < 256)%N -> (b < 256)%N -> (c < 256)%N -> (d < 256)%N ->
  Validator.parseIPv4 (Validator.dotted a b c d) = Some (a, b, c, d).
Proof.
  intros Ha Hb Hc Hd.
  destruct (octet_text a Ha) as (Da & _ & Pa). destruct (octet_text b Hb) as (Db & _ & Pb).
  destruct (octet_text c Hc) as (Dc & _ & Pc). destruct (octet_text d Hd) as (Dd & _ & Pd).
  unfold Validator.parseIPv4, Validator.dotted. fold (octetText a) (octetText b)
    (octetText c) (octetText d).
  change ("." ++ ?x) with (String "." x).
  assert (N : Validator.isDigit "." = false) by reflexivity.
  rewrite (splitOn_app "." (octetText a)) by (apply digits_have_no; assumption).
  change ("." ++ octetText c ++ "." ++ octetText d)
    with (String "." (octetText c ++ String "." (octetText d))).
  rewrite (splitOn_app "." (octetText b)) by (apply digits_have_no; assumption).
  rewrite (splitOn_app "." (octetText c)) by (apply digits_have_no; assumption).
  rewrite (splitOn_none "." (octetText d)) by (apply digits_have_no; assumption).
  cbn [Validator.parseAll]. rewrite Pa, Pb, Pc, Pd. reflexivity.
Qed.

Lemma digit_is_digit_or_dot (c : ascii) :
  Validator.isDigit c = true -> isDigitOrDot c = true.
Proof.
  destruct c as [[] [] [] [] [] [] [] []]; intros H;
    first [reflexivity | discriminate H].
Qed.

Lemma dotted_chars (a b c d : N) :
  (a < 256)%N -> (b < 256)%N -> (c < 256)%N -> (d < 256)%N ->
  allChars isDigitOrDot (Validator.dotted a b c d) = true.
Proof.
  intros Ha Hb Hc Hd.
  assert (D : forall x, (x < 256)%N -> allChars isDigitOrDot (octetText x) = true).
  { intros x Hx. apply (allChars_impl Validator.isDigit); [|apply octet_text; exact Hx].
    exact digit_is_digit_or_dot. }
  unfold Validator.dotted. fold (octetText a) (octetText b) (octetText c) (octetText d).
  repeat rewrite allChars_app. rewrite (D a Ha), (D b Hb), (D c Hc), (D d Hd).
  reflexivity.
Qed.

Lemma dotted_has_dot (a b c d : N) : hasChar "." (Validator.dotted a b c d) = true.
Proof.
  unfold Validator.dotted. rewrite hasChar_app. apply orb_true_r.
Qed.

Lemma dotted_not_empty (a b c d : N) : (a < 256)%N -> Validator.dotted a b c d <> "".
Proof.
  intros Ha E. destruct (octet_text a Ha) as (_ & N & _). apply N.
  unfold Validator.dotted in E. fold (octetText a) in E.
  destruct (octetText a); [reflexivity | discriminate E].
Qed.

(** The two readings of a digit agree. *)
Lemma digitValue_decimalDigit (c : ascii) : Validator.digitValue c = decimalDigit c.
Proof. destruct c as [[] [] [] [] [] [] [] []]; reflexivity. Qed.

Lemma hexValue_hexDigit (c : ascii) : Validator.hexValue c = hexDigit c.
Proof. destruct c as [[] [] [] [] [] [] [] []]; reflexivity. Qed.

(** Reading the digits from the left, as the validator does, gives the
    number that the text writes. *)
Lemma parseDigits_numberOf (value digit : ascii -> option N) (base : N)
    (t : string) (n acc : N) :
  (forall c, value c = digit c) ->
  numberOf digit base t = Some n ->
  Validator.parseDigits value base acc t
    = Some (acc * base ^ N.of_nat (String.length t) + n)%N.
Proof.
  intros V. revert n acc. induction t as [|c t IH]; intros n acc H.
  - injection H as <-. cbn. f_equal. lia.
  - cbn [numberOf] in H. destruct (digit c) as [d|] eqn:D; [|discriminate].
    destruct (numberOf digit base t) as [m|] eqn:M; [|discriminate]. injection H as <-.
    cbn [Validator.parseDigits]. rewrite V, D.
    rewrite (IH m _ eq_refl). f_equal.
    cbn [String.length]. rewrite Nat2N.inj_succ, N.pow_succ_r'. ring.
Qed.

Lemma numberOf_chars (digit : ascii -> option N) (base : N) (P : ascii -> bool)
    (t : string) (n : N) :
  (forall c d, digit c = Some d -> P c = true) ->
  numberOf digit base t = Some n -> allChars P t = true.
Proof.
  intros DP. revert n. induction t as [|c t IH]; intros n H; [reflexivity|].
  cbn [numberOf] in H. destruct (digit c) as [d|] eqn:D; [|discriminate].
  destruct (numberOf digit base t) as [m|] eqn:M; [|discriminate].
  cbn [allChars]. rewrite (DP c d D), (IH m eq_refl). reflexivity.
Qed.

Lemma decimalDigit_char (c : ascii) (d : N) :
  decimalDigit c = Some d -> Validator.isDigit c = true.
Proof.
  destruct c as [[] [] [] [] [] [] [] []]; intros H;
    first [reflexivity | discriminate H].
Qed.

Lemma port_text (p : string) (n : N) :
  decimalNumber p = Some n -> (n <= 65535)%N ->
  allChars Validator.isDigit p = true /\ Validator.portOk p = true.
Proof.
  intros H L. split.
  - exact (numberOf_chars _ _ _ p n decimalDigit_char H).
  - unfold Validator.portOk.
    rewrite (parseDigits_numberOf _ _ _ p n 0 digitValue_decimalDigit H).
    apply N.leb_le. lia.
Qed.

Lemma parseGroup_text (n : N) (t : string) :
  groupText n t -> Validator.parseGroup t = Some n.
Proof.
  intros [[L1 L2] H]. unfold Validator.parseGroup.
  apply Nat.leb_le in L1, L2. rewrite L1, L2. cbn [andb].
  rewrite (parseDigits_numberOf _ _ _ t n 0 hexValue_hexDigit H). f_equal.
Qed.

Lemma hexDigit_char (c : ascii) (d : N) : hexDigit c = Some d -> isHexOrDot c = true.
Proof.
  destruct c as [[] [] [] [] [] [] [] []]; intros H; vm_compute in H;
    first [discriminate H | reflexivity].
Qed.

Lemma hexDigit_not_dot (c : ascii) (d : N) :
  hexDigit c = Some d -> negb (Ascii.eqb c ".") = true.
Proof.
  destruct (Ascii.eqb_spec c ".") as [->|]; [discriminate | reflexivity].
Qed.

Lemma hexNumber_chars (t : string) (n : N) :
  hexNumber t = Some n -> allChars isHexOrDot t = true /\ hasChar "." t = false.
Proof.
  intros H. split.
  - exact (numberOf_chars _ _ _ t n hexDigit_char H).
  - apply (allChars_hasChar (fun c => negb (Ascii.eqb c "."))); [|reflexivity].
    exact (numberOf_chars _ _ _ t n hexDigit_not_dot H).
Qed.

Lemma digit_or_dot_is_hex_or_dot (c : ascii) :
  isDigitOrDot c = true -> isHexOrDot c = true.
Proof.
  destruct c as [[] [] [] [] [] [] [] []]; intros H;
    first [reflexivity | discriminate H].
Qed.

(** ** The text of an IPv6 address *)

Lemma piece_has_no (c : ascii) (t : string) :
  isHexOrDot c = false -> pieceOk t -> hasChar c t = false.
Proof. intros Hc [_ H]. exact (allChars_hasChar isHexOrDot c t H Hc). Qed.

Lemma groupText_piece (n : N) (t : string) : groupText n t -> pieceOk t.
Proof.
  intros [[L _] H]. split; [intros ->; simpl in L; lia|].
  apply (hexNumber_chars t n H).
Qed.

Lemma quadText_piece (hi lo : N) (t : string) : quadText hi lo t -> pieceOk t.
Proof.
  intros (a & b & c & d & (Ha & Hb & Hc & Hd) & _ & _ & ->). split.
  - apply dotted_not_empty, Ha.
  - apply (allChars_impl isDigitOrDot); [exact digit_or_dot_is_hex_or_dot|].
    apply dotted_chars; assumption.
Qed.

Lemma groups_pieces (gl : list N) (tl : list string) :
  Forall2 groupText gl tl ->
  Forall pieceOk tl /\ Validator.parseAll Validator.parseGroup tl = Some gl.
Proof.
  induction 1 as [|n t gs ts G _ [IH1 IH2]]; [split; [constructor | reflexivity]|].
  split; [constructor; [exact (groupText_piece n t G) | exact IH1]|].
  cbn [Validator.parseAll]. rewrite (parseGroup_text n t G), IH2. reflexivity.
Qed.

Lemma piecesText_pieces (gs : list N) (ts : list string) :
  piecesText gs ts ->
  Forall pieceOk ts /\ Validator.parsePieces ts = Some gs /\
  (List.length gs <= 2 * List.length ts)%nat.
Proof.
  induction 1 as [|hi lo t Q|n t gs ts G P (IH1 & IH2 & IH3)].
  - repeat split; [constructor | simpl; lia].
  - split; [constructor; [exact (quadText_piece hi lo t Q) | constructor]|].
    split; [|simpl; lia].
    destruct Q as (a & b & c & d & (Ha & Hb & Hc & Hd) & -> & -> & ->).
    cbn [Validator.parsePieces]. rewrite dotted_has_dot, parseIPv4_dotted by assumption.
    reflexivity.
  - split; [constructor; [exact (groupText_piece n t G) | exact IH1]|].
    split; [|simpl; lia].
    cbn [Validator.parsePieces]. destruct ts as [|t2 ts'].
    + inversion P; subst.
      destruct G as [L H]. rewrite (proj2 (hexNumber_chars t n H)).
      rewrite (parseGroup_text n t (conj L H)). reflexivity.
    + rewrite (parseGroup_text n t G), IH2. reflexivity.
Qed.

Lemma concat_not_empty (sep t : string) (ts : list string) :
  t <> "" -> String.concat sep (t :: ts) <> "".
Proof.
  intros N. destruct t as [|c r]; [contradiction|].
  destruct ts; cbn [String.concat append]; discriminate.
Qed.

Lemma splitFirst_colons_here (Y : string) :
  Validator.splitFirst "::" ("::" ++ Y) = Some ("", Y).
Proof.
  cbn [append]. destruct Y; cbn [Validator.splitFirst String.prefix];
    destruct (ascii_dec ":" ":"); first [reflexivity | congruence].
Qed.

Lemma splitFirst_colons_skip (t X : string) :
  hasChar ":" t = false ->
  Validator.splitFirst "::" (t ++ X)
    = match Validator.splitFirst "::" X with
      | Some (a, b) => Some (t ++ a, b)
      | None => None
      end.
Proof.
  induction t as [|c t IH]; intros H.
  - cbn [append]. destruct (Validator.splitFirst "::" X) as [[a b]|]; reflexivity.
  - simpl in H. apply orb_false_iff in H. destruct H as [H1 H2].
    change (String c t ++ X) with (String c (t ++ X)).
    cbn [Validator.splitFirst String.prefix].
    destruct (ascii_dec ":" c) as [<-|_]; [discriminate H1|].
    rewrite (IH H2). destruct (Validator.splitFirst "::" X) as [[a b]|]; reflexivity.
Qed.

Lemma splitFirst_colons_step (W : string) :
  match W with EmptyString => true | String c _ => negb (Ascii.eqb c ":") end = true ->
  Validator.splitFirst "::" (String ":" W)
    = match Validator.splitFirst "::" W with
      | Some (a, b) => Some (String ":" a, b)
      | None => None
      end.
Proof.
  intros H. destruct W as [|c W]; [reflexivity|].
  apply negb_true_iff in H.
  cbn [Validator.splitFirst String.prefix].
  destruct (ascii_dec ":" ":") as [_|N]; [|congruence].
  destruct (ascii_dec ":" c) as [<-|_]; [discriminate H|]. reflexivity.
Qed.

Lemma concat_starts (t : string) (ts : list string) (X : string) :
  pieceOk t ->
  match String.concat ":" (t :: ts) ++ X with
  | EmptyString => true
  | String c _ => negb (Ascii.eqb c ":")
  end = true.
Proof.
  intros [N H]. destruct t as [|c r]; [contradiction|].
  simpl in H. apply andb_true_iff in H. destruct H as [H _].
  assert (E : Ascii.eqb c ":" = false).
  { destruct (Ascii.eqb_spec c ":") as [->|]; [discriminate H | reflexivity]. }
  destruct ts; cbn [String.concat append]; now rewrite E.
Qed.

(** The first [::] of a text is the one between its two runs of pieces. *)
Lemma splitFirst_colons_concat (ts : list string) (Y : string) :
  Forall pieceOk ts ->
  Validator.splitFirst "::" (String.concat ":" ts ++ "::" ++ Y)
    = Some (String.concat ":" ts, Y).
Proof.
  induction ts as [|t ts IH]; intros F; [apply splitFirst_colons_here|].
  inversion F as [|? ? Ht Fts]; subst.
  assert (C : hasChar ":" t = false) by (apply piece_has_no; [reflexivity | exact Ht]).
  destruct ts as [|t2 ts'].
  - cbn [String.concat]. rewrite (splitFirst_colons_skip t _ C), splitFirst_colons_here.
    now rewrite append_empty_r.
  - change (String.concat ":" (t :: t2 :: ts'))
      with (t ++ String ":" (String.concat ":" (t2 :: ts'))).
    rewrite append_assoc.
    change (String ":" (String.concat ":" (t2 :: ts')) ++ "::" ++ Y)
      with (String ":" (String.concat ":" (t2 :: ts') ++ "::" ++ Y)).
    rewrite (splitFirst_colons_skip t _ C).
    rewrite splitFirst_colons_step
      by (inversion Fts; subst; apply concat_starts; assumption).
    rewrite (IH Fts). reflexivity.
Qed.

(** Without [::] in it, a text of pieces has no first [::]. *)
Lemma splitFirst_colons_none (ts : list string) :
  Forall pieceOk ts -> Validator.splitFirst "::" (String.concat ":" ts) = None.
Proof.
  induction ts as [|t ts IH]; intros F; [reflexivity|].
  inversion F as [|? ? Ht Fts]; subst.
  assert (C : hasChar ":" t = false) by (apply piece_has_no; [reflexivity | exact Ht]).
  destruct ts as [|t2 ts'].
  - cbn [String.concat]. rewrite <- (append_empty_r t) at 1.
    rewrite (splitFirst_colons_skip t _ C). reflexivity.
  - change (String.concat ":" (t :: t2 :: ts'))
      with (t ++ String ":" (String.concat ":" (t2 :: ts'))).
    rewrite (splitFirst_colons_skip t _ C).
    rewrite splitFirst_colons_step.
    + rewrite (IH Fts). reflexivity.
    + inversion Fts; subst.
      rewrite <- (append_empty_r (String.concat ":" (t2 :: ts'))).
      apply concat_starts; assumption.
Qed.

Lemma groupsOf_concat (pieces : list string -> option (list N)) (ts : list string) :
  pieces [] = Some [] -> Forall pieceOk ts ->
  Validator.groupsOf pieces (String.concat ":" ts) = pieces ts.
Proof.
  intros P F. destruct ts as [|t ts]; [now rewrite P|].
  unfold Validator.groupsOf.
  destruct (String.concat ":" (t :: ts)) eqn:E.
  - exfalso. inversion F as [|? ? [Ht _] _]; subst.
    exact (concat_not_empty ":" t ts Ht E).
  - rewrite <- E. rewrite splitOn_concat; [reflexivity | discriminate|].
    apply (Forall_impl _ (fun t => piece_has_no ":" t eq_refl) F).
Qed.

(** The validator reads every text of an IPv6 address as that address. *)
Lemma parseIPv6_text (g : list N) (t : string) :
  ipv6Text g t -> Validator.parseIPv6 t = Some g.
Proof.
  intros [ts L P | gl gr k tl tr -> L K G P]; unfold Validator.parseIPv6.
  - destruct (piecesText_pieces g ts P) as (F & E & _).
    rewrite (splitFirst_colons_none ts F), (groupsOf_concat _ ts eq_refl F), E.
    rewrite L. reflexivity.
  - destruct (groups_pieces gl tl G) as [Fl El].
    destruct (piecesText_pieces gr tr P) as (Fr & Er & _).
    rewrite (splitFirst_colons_concat tl _ Fl).
    rewrite (groupsOf_concat _ tl eq_refl Fl), (groupsOf_concat _ tr eq_refl Fr), El, Er.
    rewrite !List.length_app, repeat_length in L.
    assert (B : (List.length gl + List.length gr <=? 7)%nat = true) by (apply Nat.leb_le; lia).
    rewrite B.
    replace (8 - List.length gl - List.length gr)%nat with k by lia. reflexivity.
Qed.

Lemma concat_chars (ts : list string) :
  Forall pieceOk ts -> allChars isAddressChar (String.concat ":" ts) = true.
Proof.
  assert (I : forall t, pieceOk t -> allChars isAddressChar t = true).
  { intros t [_ H]. apply (allChars_impl isHexOrDot); [|exact H].
    intros c Hc. unfold isAddressChar. now rewrite Hc. }
  induction ts as [|t ts IH]; intros F; [reflexivity|].
  inversion F as [|? ? Ht Fts]; subst. destruct ts as [|t2 ts'].
  - cbn [String.concat]. exact (I t Ht).
  - change (String.concat ":" (t :: t2 :: ts'))
      with (t ++ String ":" (String.concat ":" (t2 :: ts'))).
    rewrite allChars_app, (I t Ht). cbn [allChars andb]. rewrite (IH Fts). reflexivity.
Qed.

(** A text of an IPv6 address is made of hexadecimal digits, dots and
    colons, and has a colon. *)
Lemma ipv6Text_chars (g : list N) (t : string) :
  ipv6Text g t -> allChars isAddressChar t = true /\ hasChar ":" t = true.
Proof.
  intros [ts L P | gl gr k tl tr -> L K G P].
  - destruct (piecesText_pieces g ts P) as (F & _ & B). split; [exact (concat_chars ts F)|].
    destruct ts as [|t1 [|t2 ts']]; [simpl in B; lia | simpl in B; lia|].
    change (String.concat ":" (t1 :: t2 :: ts'))
      with (t1 ++ String ":" (String.concat ":" (t2 :: ts'))).
    rewrite hasChar_app. cbn [hasChar Ascii.eqb Bool.eqb orb]. apply orb_true_r.
  - destruct (groups_pieces gl tl G) as [Fl _].
    destruct (piecesText_pieces gr tr P) as (Fr & _ & _). split.
    + rewrite !allChars_app, (concat_chars tl Fl), (concat_chars tr Fr). reflexivity.
    + rewrite hasChar_app. cbn [append hasChar Ascii.eqb Bool.eqb orb]. apply orb_true_r.
Qed.

(** ** Step 5 on the texts of an address *)

Lemma parseDigits_digits (s : string) (acc n : N) :
  Validator.parseDigits Validator.digitValue 10 acc s = Some n ->
  allChars Validator.isDigit s = true.
Proof.
  revert acc. induction s as [|c s IH]; intros acc H; [reflexivity|].
  cbn [Validator.parseDigits] in H. cbn [allChars]. unfold Validator.isDigit at 1.
  destruct (Validator.digitValue c) as [d|]; [|discriminate].
  exact (IH _ H).
Qed.

Lemma parseOctet_digits (s : string) (n : N) :
  Validator.parseOctet s = Some n -> allChars Validator.isDigit s = true.
Proof.
  unfold Validator.parseOctet.
  destruct ((2 <=? String.length s)%nat && Js.startsWith s "0"); [discriminate|].
  destruct ((1 <=? String.length s)%nat && (String.length s <=? 3)%nat); [|discriminate].
  destruct (Validator.parseDigits Validator.digitValue 10 0 s) as [m|] eqn:E; [|discriminate].
  intros _. exact (parseDigits_digits s 0 m E).
Qed.

Lemma parseAll_some (p : string -> option N) (l : list string) (ns : list N) :
  Validator.parseAll p l = Some ns -> Forall (fun x => exists n, p x = Some n) l.
Proof.
  revert ns. induction l as [|x l IH]; intros ns H; [constructor|].
  cbn [Validator.parseAll] in H. destruct (p x) as [n|] eqn:E; [|discriminate].
  destruct (Validator.parseAll p l) as [ms|]; [|discriminate].
  constructor; [exists n; exact E | exact (IH ms eq_refl)].
Qed.

Lemma hasChar_splitOn (c sep : ascii) (s : string) :
  Ascii.eqb sep c = false ->
  hasChar c s = existsb (hasChar c) (Validator.splitOn sep s).
Proof.
  intros N. induction s as [|x s IH]; [reflexivity|].
  cbn [hasChar Validator.splitOn]. destruct (Ascii.eqb_spec x sep) as [->|NE].
  - rewrite N. cbn [existsb hasChar orb]. exact IH.
  - rewrite IH. destruct (Validator.splitOn sep s) as [|h t]; cbn [existsb hasChar];
      [now rewrite !orb_false_r | apply orb_assoc].
Qed.

(** A text with a colon is no IPv4 literal. *)
Lemma parseIPv4_colon (s : string) :
  hasChar ":" s = true -> Validator.parseIPv4 s = None.
Proof.
  intros H. unfold Validator.parseIPv4.
  destruct (Validator.parseAll Validator.parseOctet (Validator.splitOn "." s)) as [ns|] eqn:E;
    [|reflexivity].
  exfalso. apply parseAll_some in E.
  rewrite (hasChar_splitOn ":" "." s eq_refl) in H.
  apply existsb_exists in H. destruct H as (x & Hx & Hc).
  rewrite Forall_forall in E. destruct (E x Hx) as [n Hn].
  apply parseOctet_digits in Hn.
  rewrite (digits_have_no ":" x eq_refl Hn) in Hc. discriminate Hc.
Qed.

Lemma address_chars_no_percent (t : string) :
  allChars isAddressChar t = true ->
  allChars (fun c => negb (Ascii.eqb "%" c)) t = true.
Proof.
  apply allChars_impl. intros c H.
  destruct (Ascii.eqb_spec "%" c) as [<-|]; [discriminate H | reflexivity].
Qed.

Lemma withoutZone_text (t : string) :
  allChars isAddressChar t = true ->
  Validator.withoutZone t = t /\
  forall zone, Validator.withoutZone (t ++ "%" ++ zone) = t.
Proof.
  intros H. apply address_chars_no_percent in H. unfold Validator.withoutZone. split.
  - rewrite <- (append_empty_r t) at 1. now apply takeUntil_app.
  - intros zone. now apply takeUntil_app.
Qed.

Lemma classifyIPv4_listed (a b c d : N) :
  Validator.internal (Validator.classifyIPv4 (a, b, c, d)) = true <-> listedIPv4 a b.
Proof.
  unfold Validator.classifyIPv4, listedIPv4.
  destruct (N.eqb_spec a 127) as [->|N1]; [simpl; tauto|].
  destruct (N.eqb_spec a 10) as [->|N2]; [simpl; tauto|].
  destruct (N.eqb_spec a 172) as [->|N3].
  - destruct (N.leb_spec 16 b), (N.leb_spec b 31); simpl; split; intros Hx;
      first [reflexivity | discriminate Hx | lia].
  - cbn [andb]. destruct (N.eqb_spec a 192) as [->|N4].
    + destruct (N.eqb_spec b 168) as [->|N5]; simpl; split; intros Hx;
        first [reflexivity | discriminate Hx | lia].
    + cbn [andb]. destruct (N.eqb_spec a 169) as [->|N5].
      * destruct (N.eqb_spec b 254) as [->|N6]; simpl; split; intros Hx;
          first [reflexivity | discriminate Hx | lia].
      * simpl. split; intros Hx; [discriminate Hx | lia].
Qed.

Lemma eqbGroups_eq (x y : list N) : Validator.eqbGroups x y = true <-> x = y.
Proof.
  revert y; induction x as [|a x IH]; intros [|b y]; simpl; split; intros H;
    try reflexivity; try discriminate H.
  - apply andb_true_iff in H. destruct H as [H1 H2].
    apply N.eqb_eq in H1. apply IH in H2. congruence.
  - injection H as -> ->. rewrite N.eqb_refl. simpl. apply IH. reflexivity.
Qed.

(** The top ten bits of a group are those of [fe80] exactly for the groups
    [fe80] to [febf]; the top seven are those of [fc00] exactly for [fc00]
    to [fdff]. *)
Lemma group_ranges (g : N) :
  (N.shiftr g 6 = N.shiftr 65152 6 <-> (65152 <= g <= 65215)%N) /\
  (N.shiftr g 9 = N.shiftr 64512 9 <-> (64512 <= g <= 65023)%N).
Proof.
  repeat rewrite N.shiftr_div_pow2.
  change (2 ^ 6)%N with 64%N. change (2 ^ 9)%N with 512%N.
  change (65152 / 64)%N with 1018%N. change (64512 / 512)%N with 126%N.
  assert (N64 : 64%N <> 0%N) by discriminate.
  assert (N512 : 512%N <> 0%N) by discriminate.
  pose proof (N.div_mod g 64 N64) as D1. pose proof (N.mod_lt g 64 N64) as M1.
  pose proof (N.div_mod g 512 N512) as D2. pose proof (N.mod_lt g 512 N512) as M2.
  revert D1 M1 D2 M2.
  generalize (g / 64)%N (g mod 64)%N (g / 512)%N (g mod 512)%N.
  intros q1 r1 q2 r2 D1 M1 D2 M2. split; split; intros H; lia.
Qed.

Lemma classifyIPv6_internal (g0 : N) (tail : list N) :
  Validator.internal (Validator.classifyIPv6 (g0 :: tail)) = true <->
  (g0 :: tail = [0; 0; 0; 0; 0; 0; 0; 1]%N \/
   (65152 <= g0 <= 65215)%N \/ (64512 <= g0 <= 65023)%N).
Proof.
  unfold Validator.classifyIPv6.
  destruct (Validator.eqbGroups (g0 :: tail) [0; 0; 0; 0; 0; 0; 0; 1]%N) eqn:E.
  - apply eqbGroups_eq in E. simpl. tauto.
  - assert (NE : g0 :: tail <> [0; 0; 0; 0; 0; 0; 0; 1]%N).
    { intros C. apply eqbGroups_eq in C. congruence. }
    destruct (group_ranges g0) as [R1 R2].
    destruct (N.eqb_spec (N.shiftr g0 6) (N.shiftr 65152 6)) as [A|A].
    + simpl. apply R1 in A. tauto.
    + destruct (N.eqb_spec (N.shiftr g0 9) (N.shiftr 64512 9)) as [B|B].
      * simpl. apply R2 in B. tauto.
      * simpl. split; [discriminate|].
        intros [C|[C|C]]; [contradiction | apply R1 in C; contradiction
                          | apply R2 in C; contradiction].
Qed.

Lemma classOfGroups_internal (g : list N) :
  List.length g = 8%nat ->
  (Validator.internal (classOfGroups g) = true <-> internalIp (IPv6 g)).
Proof.
  intros L.
  destruct g as [|g0 [|g1 [|g2 [|g3 [|g4 [|g5 [|g6 [|g7 [|g8 g]]]]]]]]];
    try discriminate L. clear L.
  unfold classOfGroups, Validator.unwrapMapped, internalIp.
  destruct (Validator.eqbGroups [g0; g1; g2; g3; g4; g5] [0; 0; 0; 0; 0; 65535]%N) eqn:E.
  - apply eqbGroups_eq in E. injection E as -> -> -> -> -> ->.
    rewrite classifyIPv4_listed. split.
    + intros H. right. right. exists g6, g7. split; [reflexivity | exact H].
    + intros [H | [(h0 & rest & [= <- _] & R) | (hi & lo & [= <- _] & H)]];
        [discriminate H | lia | exact H].
  - rewrite classifyIPv6_internal. split.
    + intros [H | H]; [left; exact H | right; left].
      exists g0, [g1; g2; g3; g4; g5; g6; g7]. split; [reflexivity | exact H].
    + intros [H | [(h0 & rest & [= <- _] & R) | (hi & lo & H & _)]];
        [left; exact H | right; exact R |].
      injection H as -> -> -> -> -> -> _ _. discriminate E.
Qed.

(** Step 5 reads every text of an address as that address: the class it
    gives is internal exactly for the internal addresses. *)
Lemma classifyLiteral_text (ip : IpAddress) (t : string) :
  textOf ip t ->
  exists c, Validator.classifyLiteral t = Some c /\
            (Validator.internal c = true <-> internalIp ip).
Proof.
  assert (V6 : forall g t t', ipv6Text g t -> hasChar ":" t' = true ->
                 Validator.withoutZone t' = t ->
                 exists c, Validator.classifyLiteral t' = Some c /\
                           (Validator.internal c = true <-> internalIp (IPv6 g))).
  { intros g t0 t' T C Z. exists (classOfGroups g). split.
    - unfold Validator.classifyLiteral. rewrite (parseIPv4_colon t' C), Z.
      rewrite (parseIPv6_text g t0 T). unfold classOfGroups.
      destruct (Validator.unwrapMapped g); reflexivity.
    - apply classOfGroups_internal. destruct T; assumption. }
  intros [a b c d Ha Hb Hc Hd | g t0 T | g t0 zone T].
  - exists (Validator.classifyIPv4 (a, b, c, d)). split.
    + unfold Validator.classifyLiteral. now rewrite parseIPv4_dotted.
    + apply classifyIPv4_listed.
  - destruct (ipv6Text_chars g t0 T) as [A C].
    apply (V6 g t0 t0 T C). apply withoutZone_text, A.
  - destruct (ipv6Text_chars g t0 T) as [A C].
    apply (V6 g t0 _ T).
    + rewrite hasChar_app, C. reflexivity.
    + apply withoutZone_text, A.
Qed.

(** ** Steps 1 to 3 on the text of a URL *)

Lemma slash_chars (c : ascii) : charIn "/\" c = Validator.isSlash c.
Proof. destruct c as [[] [] [] [] [] [] [] []]; reflexivity. Qed.

Lemma slash_visible (c : ascii) : charIn "/\" c = true -> isVisible c = true.
Proof.
  destruct c as [[] [] [] [] [] [] [] []]; intros H; vm_compute in H;
    first [discriminate H | reflexivity].
Qed.

Lemma path_chars (c : ascii) : charIn "/?#\" c = Validator.endsAuthority c.
Proof. destruct c as [[] [] [] [] [] [] [] []]; reflexivity. Qed.

Lemma authority_char (c : ascii) :
  isAuthorityChar c = true ->
  isVisible c = true /\ Validator.endsAuthority c = false /\ Validator.isSlash c = false.
Proof.
  destruct c as [[] [] [] [] [] [] [] []]; intros H; vm_compute in H;
    first [discriminate H | repeat split].
Qed.

Lemma scheme_char (c : ascii) :
  charIn "https" (Js.lower_ascii c) = true ->
  Validator.isLetter c = true /\ Validator.isSchemeChar c = true /\
  isVisible c = true /\ negb (Ascii.eqb c ":") = true.
Proof.
  destruct c as [[] [] [] [] [] [] [] []]; intros H; vm_compute in H;
    first [discriminate H | repeat split].
Qed.

Lemma https_scheme (sch : string) :
  Js.toLowerCase sch = "https" ->
  sch <> "" /\
  allChars Validator.isLetter sch = true /\ allChars Validator.isSchemeChar sch = true /\
  allChars isVisible sch = true /\ hasChar ":" sch = false.
Proof.
  intros H.
  assert (A : allChars (fun c => charIn "https" (Js.lower_ascii c)) sch = true).
  { rewrite <- (allChars_lower (charIn "https")), H. reflexivity. }
  split; [intros ->; discriminate H|].
  repeat split.
  - apply (allChars_impl _ _ _ (fun c E => proj1 (scheme_char c E)) A).
  - apply (allChars_impl _ _ _ (fun c E => proj1 (proj2 (scheme_char c E))) A).
  - apply (allChars_impl _ _ _ (fun c E => proj1 (proj2 (proj2 (scheme_char c E)))) A).
  - apply (allChars_hasChar (fun c => negb (Ascii.eqb c ":"))); [|reflexivity].
    apply (allChars_impl _ _ _ (fun c E => proj2 (proj2 (proj2 (scheme_char c E)))) A).
Qed.

(** Steps 1 and 2 on an [https] URL: the scheme is read whatever its case,
    the slashes and the credentials are passed over, and the host is read
    from what precedes the path. *)
Lemma parseUrl_https (sch slashes : string) (credentials : option string)
    (hostport rest : string) :
  Js.toLowerCase sch = "https" ->
  allChars (charIn "/\") slashes = true ->
  match credentials with Some u => allChars isAuthorityChar u | None => true end = true ->
  allChars isAuthorityChar hostport = true -> hasChar "@" hostport = false ->
  hostport <> "" ->
  match rest with EmptyString => true | String c _ => charIn "/?#\" c end = true ->
  allChars isVisible rest = true ->
  Validator.parseUrl (sch ++ ":" ++ slashes ++ credentialsText credentials ++ hostport ++ rest)
    = match Validator.parseHostPort hostport with
      | Some h => Some (Validator.mkUrl "https" h)
      | None => None
      end.
Proof.
  intros Hs Hsl Hc Hh Hat Hne Hr Hv.
  destruct (https_scheme sch Hs) as (Sne & Sl & Sc & Sv & Scol).
  set (authority := credentialsText credentials ++ hostport).
  assert (Aa : allChars isAuthorityChar authority = true).
  { unfold authority, credentialsText. destruct credentials as [u|]; [|exact Hh].
    rewrite !allChars_app, Hc, Hh. reflexivity. }
  assert (Ane : authority <> "").
  { unfold authority, credentialsText. destruct credentials as [[|x u]|];
      [discriminate | discriminate | exact Hne]. }
  assert (E : sch ++ ":" ++ slashes ++ credentialsText credentials ++ hostport ++ rest
              = sch ++ String ":" (slashes ++ authority ++ rest)).
  { unfold authority. now rewrite (append_assoc (credentialsText credentials)). }
  rewrite E. clear E.
  assert (Vis : allChars isVisible (sch ++ String ":" (slashes ++ authority ++ rest)) = true).
  { rewrite allChars_app, Sv. cbn [allChars andb]. rewrite !allChars_app, Hv.
    rewrite (allChars_impl _ isVisible slashes slash_visible Hsl).
    rewrite (allChars_impl _ isVisible authority
               (fun c E => proj1 (authority_char c E)) Aa).
    reflexivity. }
  unfold Validator.parseUrl. rewrite (visible_text_is_kept _ Vis).
  rewrite (splitFirst_char ":" sch _ Scol).
  destruct sch as [|c sch']; [contradiction|].
  cbn [allChars] in Sl. apply andb_true_iff in Sl. destruct Sl as [Sl _].
  rewrite Sl, Sc. cbn [andb negb]. rewrite Hs. cbn [existsb Validator.specialSchemes].
  change (("https" =? "http")%string) with false. change (("https" =? "https")%string) with true.
  cbn [orb negb].
  assert (D : Validator.dropWhile Validator.isSlash (slashes ++ authority ++ rest)
              = authority ++ rest).
  { apply dropWhile_app.
    - apply (allChars_impl (charIn "/\")); [|exact Hsl].
      intros x Hx. now rewrite <- slash_chars.
    - destruct authority as [|x a]; [contradiction|]. cbn [append].
      cbn [allChars] in Aa. apply andb_true_iff in Aa. destruct Aa as [Ax _].
      now rewrite (proj2 (proj2 (authority_char x Ax))). }
  rewrite D.
  assert (T : Validator.takeUntil Validator.endsAuthority (authority ++ rest) = authority).
  { apply takeUntil_app.
    - apply (allChars_impl isAuthorityChar); [|exact Aa].
      intros x Hx. now rewrite (proj1 (proj2 (authority_char x Hx))).
    - destruct rest as [|x r]; [reflexivity|]. now rewrite <- path_chars. }
  rewrite T.
  assert (W : Validator.withoutCredentials authority = hostport).
  { unfold Validator.withoutCredentials, authority, credentialsText.
    destruct credentials as [u|].
    - change (u ++ "@") with (u ++ String "@" ""). rewrite append_assoc.
      cbn [append]. now rewrite (splitLast_char "@" u hostport Hat).
    - cbn [append]. now rewrite (splitLast_none "@" hostport Hat). }
  rewrite W. reflexivity.
Qed.

Lemma parseHostPort_plain (c : ascii) (r : string) :
  Ascii.eqb c "[" = false ->
  Validator.parseHostPort (String c r)
    = match Validator.splitFirst ":" (String c r) with
      | Some (host, port) =>
          if Validator.portOk port then Validator.parseHost host else None
      | None => Validator.parseHost (String c r)
      end.
Proof.
  destruct c as [[] [] [] [] [] [] [] []]; intros H; first [reflexivity | discriminate H].
Qed.

Lemma parseHost_plain (c : ascii) (r : string) :
  Ascii.eqb c "[" = false ->
  Validator.parseHost (String c r)
    = let domain := Js.toLowerCase (Validator.percentDecode (String c r)) in
      if negb (allChars (fun c => negb (Validator.forbiddenHostChar c)) domain) then None
      else if Validator.endsInNumber domain then Validator.parseIPv4Host domain
      else Some domain.
Proof.
  destruct c as [[] [] [] [] [] [] [] []]; intros H; first [reflexivity | discriminate H].
Qed.

Lemma unwrapBrackets_plain (c : ascii) (r : string) :
  Ascii.eqb c "[" = false -> Validator.unwrapBrackets (String c r) = String c r.
Proof.
  destruct c as [[] [] [] [] [] [] [] []]; intros H; first [reflexivity | discriminate H].
Qed.

(** Step 3 on a host in brackets, with or without a port: the host is an
    IPv6 literal, returned as written; unwrapped, it is the text between
    the brackets. *)
Lemma parseHostPort_bracketed (inner : string) (port : option string) (g : list N) :
  hasChar "]" inner = false ->
  Validator.parseIPv6 inner = Some g ->
  match port with Some p => Validator.portOk p | None => true end = true ->
  Validator.parseHostPort (("[" ++ inner ++ "]") ++ portText port)
    = Some ("[" ++ inner ++ "]") /\
  Validator.unwrapBrackets ("[" ++ inner ++ "]") = inner.
Proof.
  intros B P O.
  assert (H : Validator.parseHost ("[" ++ inner ++ "]") = Some ("[" ++ inner ++ "]")).
  { change ("[" ++ inner ++ "]") with (String "[" (inner ++ String "]" "")).
    cbn [Validator.parseHost]. rewrite (splitFirst_char "]" inner _ B), P. reflexivity. }
  split.
  - change (("[" ++ inner ++ "]") ++ portText port)
      with (String "[" ((inner ++ String "]" "") ++ portText port)).
    rewrite append_assoc. cbn [append Validator.parseHostPort].
    rewrite (splitFirst_char "]" inner _ B).
    destruct port as [p|]; cbn [portText append]; [rewrite O|]; exact H.
  - change ("[" ++ inner ++ "]") with (String "[" (inner ++ String "]" "")).
    cbn [Validator.unwrapBrackets]. rewrite (splitFirst_char "]" inner _ B). reflexivity.
Qed.

(** ** A domain name as host *)

Lemma label_or_dot_char (c : ascii) :
  isLabelOrDot c = true ->
  Validator.forbiddenHostChar (Js.lower_ascii c) = false /\
  isAuthorityChar c = true /\
  negb (Ascii.eqb c "@") = true /\ negb (Ascii.eqb c ":") = true /\
  negb (Ascii.eqb c "%") = true.
Proof.
  destruct c as [[] [] [] [] [] [] [] []]; intros H; vm_compute in H;
    first [discriminate H | repeat split].
Qed.

Lemma label_char (c : ascii) :
  isLabelChar c = true ->
  isLabelOrDot c = true /\ negb (Ascii.eqb (Js.lower_ascii c) ".") = true.
Proof.
  destruct c as [[] [] [] [] [] [] [] []]; intros H; vm_compute in H;
    first [discriminate H | repeat split].
Qed.

Lemma digit_lower (c : ascii) :
  Validator.isDigit (Js.lower_ascii c) = charIn "0123456789" c.
Proof. destruct c as [[] [] [] [] [] [] [] []]; reflexivity. Qed.

Lemma hex_lower (c : ascii) :
  match Validator.hexValue (Js.lower_ascii c) with Some _ => true | None => false end
  = charIn "0123456789abcdefABCDEF" c.
Proof. destruct c as [[] [] [] [] [] [] [] []]; reflexivity. Qed.

Lemma octal_digit (c : ascii) :
  match Validator.octalValue c with Some _ => true | None => false end = true ->
  Validator.isDigit c = true.
Proof.
  destruct c as [[] [] [] [] [] [] [] []]; intros H; vm_compute in H;
    first [discriminate H | reflexivity].
Qed.

Lemma lower_zero (c : ascii) : Js.lower_ascii c = "0"%char -> c = "0"%char.
Proof.
  destruct c as [[] [] [] [] [] [] [] []]; intros H; vm_compute in H;
    first [discriminate H | reflexivity].
Qed.

Lemma lower_x (c : ascii) :
  Js.lower_ascii (Js.lower_ascii c) = "x"%char -> charIn "xX" c = true.
Proof.
  destruct c as [[] [] [] [] [] [] [] []]; intros H; vm_compute in H;
    first [discriminate H | reflexivity].
Qed.

Lemma allChars_ext (P Q : ascii -> bool) (s : string) :
  (forall c, P c = Q c) -> allChars P s = allChars Q s.
Proof.
  intros E. induction s as [|c s IH]; [reflexivity|]. cbn [allChars]. now rewrite E, IH.
Qed.

Lemma allChars_false_impl (P Q : ascii -> bool) (s : string) :
  (forall c, Q c = true -> P c = true) ->
  allChars P s = false -> allChars Q s = false.
Proof.
  intros QP H. destruct (allChars Q s) eqn:E; [|reflexivity].
  rewrite (allChars_impl Q P s QP E) in H. discriminate H.
Qed.

Lemma parseDigits_none (value : ascii -> option N) (base acc : N) (s : string) :
  allChars (fun c => match value c with Some _ => true | None => false end) s = false ->
  Validator.parseDigits value base acc s = None.
Proof.
  revert acc. induction s as [|c s IH]; intros acc H; [discriminate H|].
  cbn [allChars] in H. cbn [Validator.parseDigits].
  destruct (value c) as [d|]; [|reflexivity]. exact (IH _ H).
Qed.

Lemma prefix_two (a b x y : ascii) (s : string) :
  String.prefix (String a (String b "")) (String x (String y s)) = true ->
  x = a /\ y = b.
Proof.
  cbn [String.prefix]. destruct (ascii_dec a x) as [<-|_]; [|discriminate].
  destruct (ascii_dec b y) as [<-|_]; [|discriminate]. intros _. split; reflexivity.
Qed.

Lemma prefix_one (a x : ascii) (s : string) :
  String.prefix (String a "") (String x s) = true -> x = a.
Proof.
  cbn [String.prefix]. destruct (ascii_dec a x) as [<-|_]; [|discriminate]. reflexivity.
Qed.

(** A label that is not a number is taken for none: neither as the last
    part of an IPv4 host nor as an octet. *)
Lemma not_number (t : string) :
  t <> "" -> isNumberLabel t = false ->
  Js.truthy (Js.toLowerCase t) && allChars Validator.isDigit (Js.toLowerCase t) = false /\
  Validator.parseIPv4Number (Js.toLowerCase t) = None /\
  Validator.parseOctet (Js.toLowerCase t) = None.
Proof.
  intros NE H. apply orb_false_iff in H. destruct H as [D X].
  assert (A : allChars Validator.isDigit (Js.toLowerCase t) = false).
  { rewrite allChars_lower, (allChars_ext _ _ t digit_lower). exact D. }
  assert (Dec : forall acc, Validator.parseDigits Validator.digitValue 10 acc
                              (Js.toLowerCase t) = None).
  { intros acc. apply parseDigits_none. exact A. }
  split; [rewrite A; apply andb_false_r|]. split.
  - unfold Validator.parseIPv4Number.
    destruct t as [|z [|x r]]; [contradiction | |]; cbn [Js.toLowerCase Js.truthy negb].
    + unfold Js.startsWith. cbn [String.prefix String.length Nat.leb andb].
      destruct (ascii_dec "0" (Js.lower_ascii (Js.lower_ascii z))); apply Dec.
    + destruct (Js.startsWith _ "0x") eqn:P0.
      * apply prefix_two in P0. destruct P0 as [Z0 X0].
        apply lower_zero, lower_zero in Z0. apply lower_x in X0. subst z.
        rewrite X0 in X. cbn [Ascii.eqb Bool.eqb andb] in X.
        cbn [Validator.dropn]. apply parseDigits_none.
        rewrite allChars_lower, (allChars_ext _ _ r hex_lower). exact X.
      * destruct (Js.startsWith _ "0") eqn:P1; [|rewrite andb_false_r; apply Dec].
        apply prefix_one in P1. cbn [String.length Nat.leb andb Validator.dropn].
        apply parseDigits_none.
        apply (allChars_false_impl Validator.isDigit); [exact octal_digit|].
        cbn [Js.toLowerCase allChars] in A. rewrite P1 in A. exact A.
  - unfold Validator.parseOctet. rewrite Dec.
    destruct (_ && Js.startsWith _ _); [reflexivity|]. now destruct (_ && _).
Qed.

Lemma allChars_concat (P : ascii -> bool) (sep : string) (ts : list string) :
  allChars P sep = true -> Forall (fun t => allChars P t = true) ts ->
  allChars P (String.concat sep ts) = true.
Proof.
  intros S. induction ts as [|t ts IH]; intros F; [reflexivity|].
  inversion F as [|? ? Ht Fts]; subst. destruct ts as [|t2 ts'].
  - exact Ht.
  - change (String.concat sep (t :: t2 :: ts'))
      with (t ++ sep ++ String.concat sep (t2 :: ts')).
    rewrite !allChars_app, Ht, S, (IH Fts). reflexivity.
Qed.

Lemma toLowerCase_concat (ts : list string) :
  Js.toLowerCase (String.concat "." ts) = String.concat "." (map Js.toLowerCase ts).
Proof.
  induction ts as [|t ts IH]; [reflexivity|]. destruct ts as [|t2 ts'].
  - reflexivity.
  - change (String.concat "." (t :: t2 :: ts'))
      with (t ++ String "." (String.concat "." (t2 :: ts'))).
    rewrite toLowerCase_app. cbn [Js.toLowerCase]. rewrite IH. reflexivity.
Qed.

Lemma prefix_other (c x : ascii) (p r : string) :
  Ascii.eqb x c = false -> String.prefix (String c p) (String x r) = false.
Proof.
  intros H. cbn [String.prefix]. destruct (ascii_dec c x) as [->|_]; [|reflexivity].
  rewrite Ascii.eqb_refl in H. discriminate H.
Qed.

Lemma parseAll_last_none (p : string -> option N) (front : list string) (x : string) :
  p x = None -> Validator.parseAll p (front ++ [x]) = None.
Proof.
  intros H. induction front as [|a front IH]; cbn [app Validator.parseAll].
  - now rewrite H.
  - rewrite IH. destruct (p a); reflexivity.
Qed.

Lemma splitFirst_colons_absent (s : string) :
  hasChar ":" s = false -> Validator.splitFirst "::" s = None.
Proof.
  intros H. rewrite <- (append_empty_r s). now rewrite (splitFirst_colons_skip s "" H).
Qed.

Lemma splitOn_not_nil (c : ascii) (s : string) : Validator.splitOn c s <> [].
Proof.
  destruct s as [|x s]; cbn [Validator.splitOn]; [discriminate|].
  destruct (Ascii.eqb x c); [discriminate|].
  destruct (Validator.splitOn c s); discriminate.
Qed.

Lemma splitOn_end (c : ascii) (s : string) :
  Validator.splitOn c (s ++ String c "") = (Validator.splitOn c s ++ [""])%list.
Proof.
  induction s as [|x s IH].
  - cbn [append Validator.splitOn]. now rewrite Ascii.eqb_refl.
  - change (String x s ++ String c "") with (String x (s ++ String c "")).
    cbn [Validator.splitOn]. rewrite IH. destruct (Ascii.eqb x c); [reflexivity|].
    destruct (Validator.splitOn c s) as [|h t] eqn:E; [|reflexivity].
    exfalso. exact (splitOn_not_nil c s E).
Qed.

Section Domain.

Variables (labels : list string) (last : string) (dot : bool).
Hypothesis parts : domainParts labels last = true.

Let host : string := domainText labels last dot.
Let name : string := Js.toLowerCase host.
Let lowered : list string := map Js.toLowerCase (labels ++ [last]).
Let ending : string := if dot then "." else "".

Lemma domain_labels :
  Forall (fun t => allChars isLabelChar t = true) (labels ++ [last]) /\
  last <> "" /\ isNumberLabel last = false.
Proof.
  unfold domainParts in parts. apply andb_true_iff in parts. destruct parts as [P X].
  apply andb_true_iff in P. destruct P as [P T].
  apply andb_true_iff in P. destruct P as [L A].
  split; [|split; [intros ->; discriminate T | now apply negb_true_iff]].
  apply Forall_app. split.
  - apply Forall_forall. intros x Hx. rewrite forallb_forall in L. exact (L x Hx).
  - constructor; [exact A | constructor].
Qed.

Lemma domain_host_chars : allChars isLabelOrDot host = true /\ host <> "".
Proof.
  destruct domain_labels as (F & N & _). split.
  - unfold host, domainText. rewrite allChars_app. apply andb_true_iff. split.
    + apply allChars_concat; [reflexivity|].
      apply (Forall_impl _ (fun t => allChars_impl _ _ t (fun c E => proj1 (label_char c E))) F).
    + destruct dot; reflexivity.
  - unfold host, domainText. intros E.
    assert (C : String.concat "." (labels ++ [last]) = "").
    { destruct (String.concat "." (labels ++ [last])); [reflexivity | discriminate E]. }
    clear E. destruct labels as [|l ls]; [exact (N C)|].
    cbn [app] in C. destruct (ls ++ [last])%list as [|t2 ts] eqn:E.
    + destruct ls; discriminate E.
    + change (String.concat "." (l :: t2 :: ts))
        with (l ++ String "." (String.concat "." (t2 :: ts))) in C.
      destruct l; discriminate C.
Qed.

Lemma domain_name_parts :
  Validator.splitOn "." name = (lowered ++ (if dot then [""] else []))%list /\
  Validator.hostParts name = lowered.
Proof.
  assert (E : name = String.concat "." lowered ++ ending).
  { unfold name, host, domainText. rewrite toLowerCase_app, toLowerCase_concat.
    unfold ending. destruct dot; reflexivity. }
  assert (S0 : Validator.splitOn "." (String.concat "." lowered) = lowered).
  { apply splitOn_concat.
    - unfold lowered. destruct labels; discriminate.
    - unfold lowered. apply Forall_map. destruct domain_labels as (F & _).
      apply (Forall_impl _ (fun t H =>
               allChars_hasChar (fun c => negb (Ascii.eqb c ".")) "." (Js.toLowerCase t)
                 (eq_trans (allChars_lower _ t)
                    (allChars_impl _ _ t (fun c E => proj2 (label_char c E)) H))
                 eq_refl) F). }
  assert (S : Validator.splitOn "." name = (lowered ++ (if dot then [""] else []))%list).
  { rewrite E. unfold ending. destruct dot.
    - now rewrite splitOn_end, S0.
    - now rewrite append_empty_r, S0, app_nil_r. }
  assert (R : exists c r front, rev lowered = String c r :: front).
  { destruct domain_labels as (_ & N & _). unfold lowered.
    rewrite map_app, rev_app_distr. cbn [map rev app].
    destruct last as [|c r]; [contradiction|]. cbn [Js.toLowerCase]. eauto. }
  split; [exact S|].
  unfold Validator.hostParts. rewrite S, rev_app_distr.
  destruct R as (c & r & front & R). destruct dot.
  - change (rev [""]) with [""]. cbn [app]. rewrite R, <- R.
    apply rev_involutive.
  - change (rev (@nil string)) with (@nil string). cbn [app]. rewrite R.
    apply app_nil_r.
Qed.

Lemma domain_name_chars :
  name <> "" /\
  allChars (fun c => negb (Validator.forbiddenHostChar c)) name = true /\
  hasChar ":" name = false /\ hasChar "%" name = false /\
  Js.startsWith name "[" = false.
Proof.
  destruct domain_host_chars as [H N].
  assert (F : allChars (fun c => negb (Validator.forbiddenHostChar c)) name = true).
  { unfold name. rewrite allChars_lower. apply (allChars_impl isLabelOrDot); [|exact H].
    intros c E. now rewrite (proj1 (label_or_dot_char c E)). }
  assert (NE : name <> "").
  { unfold name. destruct host; [contradiction | discriminate]. }
  split; [exact NE|]. split; [exact F|].
  split; [exact (allChars_hasChar _ ":" name F eq_refl)|].
  split; [exact (allChars_hasChar _ "%" name F eq_refl)|].
  destruct name as [|c r]; [contradiction|].
  cbn [allChars] in F. apply andb_true_iff in F. destruct F as [F _].
  apply prefix_other. destruct (Ascii.eqb_spec c "[") as [->|]; [discriminate F | reflexivity].
Qed.

(** The last label of the name is no number. *)
Lemma domain_last :
  exists front, rev lowered = Js.toLowerCase last :: rev front /\
    lowered = (front ++ [Js.toLowerCase last])%list /\
    Js.truthy (Js.toLowerCase last)
      && allChars Validator.isDigit (Js.toLowerCase last) = false /\
    Validator.parseIPv4Number (Js.toLowerCase last) = None /\
    Validator.parseOctet (Js.toLowerCase last) = None.
Proof.
  destruct domain_labels as (_ & N & X).
  exists (map Js.toLowerCase labels). split; [|split].
  - unfold lowered. rewrite map_app, rev_app_distr. reflexivity.
  - unfold lowered. now rewrite map_app.
  - exact (not_number last N X).
Qed.

Lemma domain_endsInNumber : Validator.endsInNumber name = false.
Proof.
  destruct domain_name_parts as [_ P]. destruct domain_last as (front & R & _ & D & I & _).
  unfold Validator.endsInNumber. rewrite P, R, D, I. reflexivity.
Qed.

(** Steps 3 and 5 on a domain name: it is read in lower case, and it is no
    literal address. *)
Lemma domain_parseHost : Validator.parseHost host = Some name.
Proof.
  destruct domain_host_chars as [H N]. destruct domain_name_chars as (_ & F & _).
  assert (P : Validator.percentDecode host = host).
  { assert (C : allChars (fun c => negb (Ascii.eqb c "%")) host = true).
    { apply (allChars_impl isLabelOrDot); [|exact H].
      intros c E. apply (label_or_dot_char c E). }
    clear - C. induction host as [|c r IH]; [reflexivity|].
    cbn [allChars] in C. apply andb_true_iff in C. destruct C as [C1 C2].
    apply negb_true_iff in C1. cbn [Validator.percentDecode].
    rewrite C1, (IH C2). destruct r as [|h [|l r']]; reflexivity. }
  assert (B : exists c r, host = String c r /\ Ascii.eqb c "[" = false).
  { destruct host as [|c r]; [contradiction|]. exists c, r. split; [reflexivity|].
    cbn [allChars] in H. apply andb_true_iff in H. destruct H as [H _].
    destruct (Ascii.eqb_spec c "[") as [->|]; [discriminate H | reflexivity]. }
  destruct B as (c & r & E & B). rewrite E, (parseHost_plain c r B), <- E. cbv zeta.
  rewrite P. fold name. rewrite F, domain_endsInNumber. reflexivity.
Qed.

Lemma domain_not_literal : Validator.classifyLiteral name = None.
Proof.
  destruct domain_name_parts as [S _]. destruct domain_last as (front & _ & L & _ & _ & O).
  destruct domain_name_chars as (NE & _ & C & Pc & _).
  assert (V4 : Validator.parseIPv4 name = None).
  { unfold Validator.parseIPv4. rewrite S. destruct dot.
    - now rewrite (parseAll_last_none _ lowered "" eq_refl).
    - rewrite app_nil_r, L. now rewrite (parseAll_last_none _ _ _ O). }
  assert (Z0 : Validator.withoutZone name = name).
  { unfold Validator.withoutZone. rewrite <- (append_empty_r name) at 1.
    apply takeUntil_app; [|reflexivity].
    clear - Pc. induction name as [|x s IH]; [reflexivity|].
    cbn [hasChar] in Pc. apply orb_false_iff in Pc. destruct Pc as [P1 P2].
    cbn [allChars]. rewrite (IH P2), andb_true_r.
    destruct (Ascii.eqb_spec "%" x) as [<-|]; [discriminate P1 | reflexivity]. }
  unfold Validator.classifyLiteral. rewrite V4, Z0.
  unfold Validator.parseIPv6. rewrite (splitFirst_colons_absent name C).
  unfold Validator.groupsOf. destruct name as [|x s] eqn:En; [contradiction|].
  rewrite <- En in *. rewrite (splitOn_none ":" name C). cbn [Validator.parsePieces].
  rewrite V4. destruct (hasChar "." name); [reflexivity|].
  destruct (Validator.parseGroup name); reflexivity.
Qed.

Lemma domain_unwrapBrackets : Validator.unwrapBrackets name = name.
Proof.
  destruct domain_name_chars as (NE & _ & _ & _ & B).
  destruct name as [|c r]; [contradiction|]. apply unwrapBrackets_plain.
  unfold Js.startsWith in B. cbn [String.prefix] in B.
  destruct (ascii_dec "[" c) as [<-|N]; [destruct r; discriminate B|].
  destruct (Ascii.eqb_spec c "[") as [->|]; [contradiction | reflexivity].
Qed.

Lemma domain_parseHostPort (port : option string) :
  match port with Some p => Validator.portOk p | None => true end = true ->
  Validator.parseHostPort (host ++ portText port) = Some name.
Proof.
  intros O. destruct domain_host_chars as [H N].
  assert (C : hasChar ":" host = false).
  { apply (allChars_hasChar (fun c => negb (Ascii.eqb c ":"))); [|reflexivity].
    apply (allChars_impl isLabelOrDot); [|exact H]. intros c E. apply (label_or_dot_char c E). }
  assert (B : exists c r, host = String c r /\ Ascii.eqb c "[" = false).
  { destruct host as [|c r]; [contradiction|]. exists c, r. split; [reflexivity|].
    cbn [allChars] in H. apply andb_true_iff in H. destruct H as [H _].
    destruct (Ascii.eqb_spec c "[") as [->|]; [discriminate H | reflexivity]. }
  destruct B as (c & r & E & B).
  assert (P : Validator.parseHostPort (host ++ portText port)
              = match Validator.splitFirst ":" (host ++ portText port) with
                | Some (h, p) => if Validator.portOk p then Validator.parseHost h else None
                | None => Validator.parseHost (host ++ portText port)
                end).
  { rewrite E. cbn [append]. apply parseHostPort_plain, B. }
  rewrite P. destruct port as [p|]; cbn [portText].
  - change (":" ++ p) with (String ":" p). rewrite (splitFirst_char ":" host p C), O.
    apply domain_parseHost.
  - rewrite append_empty_r, (splitFirst_char_none ":" host C). apply domain_parseHost.
Qed.

End Domain.

(** ** [validateRemoteOrigin] *)

Lemma hostport_chars (s : string) :
  allChars isHostPortChar s = true ->
  allChars isAuthorityChar s = true /\ hasChar "@" s = false.
Proof.
  intros H. split.
  - apply (allChars_impl isHostPortChar); [|exact H].
    intros c E. apply andb_true_iff in E. apply E.
  - apply (allChars_hasChar isHostPortChar); [exact H | reflexivity].
Qed.

Lemma address_hostport (c : ascii) : isAddressChar c = true -> isHostPortChar c = true.
Proof.
  destruct c as [[] [] [] [] [] [] [] []]; intros H; vm_compute in H;
    first [discriminate H | reflexivity].
Qed.

Lemma digit_hostport (c : ascii) : Validator.isDigit c = true -> isHostPortChar c = true.
Proof.
  destruct c as [[] [] [] [] [] [] [] []]; intros H; vm_compute in H;
    first [discriminate H | reflexivity].
Qed.

Lemma label_hostport (c : ascii) : isLabelOrDot c = true -> isHostPortChar c = true.
Proof.
  destruct c as [[] [] [] [] [] [] [] []]; intros H; vm_compute in H;
    first [discriminate H | reflexivity].
Qed.

Lemma httpsParts_parts (sch slashes : string) (credentials : option string)
    (port : option string) (rest : string) :
  httpsParts sch slashes credentials port rest = true ->
  Js.toLowerCase sch = "https" /\
  allChars (charIn "/\") slashes = true /\
  match credentials with Some u => allChars isAuthorityChar u | None => true end = true /\
  match port with Some p => Validator.portOk p | None => true end = true /\
  allChars isHostPortChar (portText port) = true /\
  match rest with EmptyString => true | String c _ => charIn "/?#\" c end = true /\
  allChars isVisible rest = true.
Proof.
  unfold httpsParts. intros H.
  repeat (apply andb_true_iff in H; destruct H as [H ?]).
  apply String.eqb_eq in H. repeat split; try assumption.
  - destruct port as [p|]; [|reflexivity].
    destruct (decimalNumber p) as [n|] eqn:E; [|discriminate].
    apply (port_text p n E). now apply N.leb_le.
  - destruct port as [p|]; [|reflexivity].
    destruct (decimalNumber p) as [n|] eqn:E; [|discriminate].
    cbn [portText append allChars]. change (isHostPortChar ":") with true. cbn [andb].
    apply (allChars_impl Validator.isDigit); [exact digit_hostport|].
    apply (port_text p n E). now apply N.leb_le.
Qed.

(** Steps 1 and 2 on the text of an [https] URL. *)
Lemma parseUrl_urlText (sch slashes : string) (credentials : option string)
    (host : string) (port : option string) (rest : string) :
  httpsParts sch slashes credentials port rest = true ->
  allChars isHostPortChar host = true -> host <> "" ->
  Validator.parseUrl (urlText sch slashes credentials host port rest)
    = match Validator.parseHostPort (host ++ portText port) with
      | Some h => Some (Validator.mkUrl "https" h)
      | None => None
      end.
Proof.
  intros H Hh Hne. destruct (httpsParts_parts _ _ _ _ _ H) as (Hs & Hsl & Hc & _ & Hp & Hr & Hv).
  assert (A : allChars isHostPortChar (host ++ portText port) = true)
    by (now rewrite allChars_app, Hh, Hp).
  destruct (hostport_chars _ A) as [A1 A2].
  assert (E : urlText sch slashes credentials host port rest
              = sch ++ ":" ++ slashes ++ credentialsText credentials
                ++ (host ++ portText port) ++ rest).
  { unfold urlText, credentialsText, portText. now rewrite (append_assoc host). }
  rewrite E. apply parseUrl_https; try assumption.
  destruct host; [contradiction | discriminate].
Qed.

Lemma address_not_blocklisted (h : string) :
  allChars isAddressChar h = true -> Validator.blocklisted h = false.
Proof.
  intros H. unfold Validator.blocklisted, Validator.blocklist. cbn [existsb].
  assert (L : hasChar "l" h = false) by (apply (allChars_hasChar _ _ _ H); reflexivity).
  assert (M : hasChar "m" h = false) by (apply (allChars_hasChar _ _ _ H); reflexivity).
  assert (I : forall sub c, hasChar c h = false -> Js.includes h (String c sub) = false).
  { intros sub c Hc. destruct (Js.includes h (String c sub)) eqn:E; [|reflexivity].
    apply includes_hasChar in E. congruence. }
  assert (Q : forall sub c, hasChar c h = false -> String.eqb h (String c sub) = false).
  { intros sub c Hc. destruct (String.eqb_spec h (String c sub)) as [->|]; [|reflexivity].
    cbn [hasChar] in Hc. now rewrite Ascii.eqb_refl in Hc. }
  now rewrite (I _ _ L), (I _ _ M), (Q _ _ L), (Q _ _ M).
Qed.

(** Steps 1 to 5 on an [https] URL whose host is an IPv6 literal in
    brackets: the literal is classified, and no name is resolved. *)
Lemma validate_bracketed (resolve : string -> Validator.DnsAnswer)
    (sch slashes : string) (credentials : option string) (literal : string)
    (port : option string) (rest : string) (g : list N) :
  httpsParts sch slashes credentials port rest = true ->
  ipv6Text g literal ->
  Validator.classifyLiteral literal = Some (classOfGroups g) /\
  Validator.validateRemoteOrigin resolve
    (urlText sch slashes credentials ("[" ++ literal ++ "]") port rest)
    = (literalVerdict (classOfGroups g), []).
Proof.
  intros H T. destruct (ipv6Text_chars g literal T) as [A C].
  assert (CL : Validator.classifyLiteral literal = Some (classOfGroups g)).
  { unfold Validator.classifyLiteral.
    rewrite (parseIPv4_colon literal C), (proj1 (withoutZone_text literal A)).
    rewrite (parseIPv6_text g literal T). unfold classOfGroups.
    destruct (Validator.unwrapMapped g); reflexivity. }
  split; [exact CL|].
  destruct (httpsParts_parts _ _ _ _ _ H) as (_ & _ & _ & Hp & _).
  assert (B : hasChar "]" literal = false)
    by (apply (allChars_hasChar _ _ _ A); reflexivity).
  destruct (parseHostPort_bracketed literal port g B (parseIPv6_text g literal T) Hp)
    as [PH UB].
  assert (HC : allChars isHostPortChar ("[" ++ literal ++ "]") = true).
  { cbn [append allChars]. rewrite allChars_app.
    rewrite (allChars_impl _ _ _ address_hostport A). reflexivity. }
  unfold Validator.validateRemoteOrigin.
  rewrite (parseUrl_urlText _ _ _ _ _ _ H HC) by discriminate.
  rewrite PH. cbn [Validator.scheme Validator.hostname]. rewrite UB.
  change (negb ("https" =? "https")%string) with false. cbv iota.
  rewrite (address_not_blocklisted literal A), CL. unfold literalVerdict.
  destruct (Validator.internal (classOfGroups g)); reflexivity.
Qed.

Lemma lower_colon (c : ascii) : Js.lower_ascii c = ":"%char -> c = ":"%char.
Proof.
  destruct c as [[] [] [] [] [] [] [] []]; intros H; vm_compute in H;
    first [discriminate H | reflexivity].
Qed.

Lemma lower_f (c : ascii) : Js.lower_ascii c = "f"%char -> c = "f"%char \/ c = "F"%char.
Proof.
  destruct c as [[] [] [] [] [] [] [] []]; intros H; vm_compute in H;
    first [discriminate H | left; reflexivity | right; reflexivity].
Qed.

(** The mapped notation, in any letter case of its prefix, is a text of the
    address [0:0:0:0:0:ffff:hi:lo] whose last two groups hold the four
    octets. *)
Lemma mapped_text (p : string) (a b c d : N) :
  Js.toLowerCase p = "::ffff:" ->
  (a < 256)%N -> (b < 256)%N -> (c < 256)%N -> (d < 256)%N ->
  ipv6Text [0; 0; 0; 0; 0; 65535; 256 * a + b; 256 * c + d]%N
    (p ++ Validator.dotted a b c d).
Proof.
  intros H Ha Hb Hc Hd.
  destruct p as [|c1 [|c2 [|c3 [|c4 [|c5 [|c6 [|c7 [|c8 p]]]]]]]]; try discriminate H.
  cbn [Js.toLowerCase] in H. injection H as H1 H2 H3 H4 H5 H6 H7.
  apply lower_colon in H1, H2, H7. subst c1 c2 c7.
  assert (G : groupText 65535 (String c3 (String c4 (String c5 (String c6 ""))))).
  { destruct (lower_f _ H3) as [-> | ->], (lower_f _ H4) as [-> | ->],
      (lower_f _ H5) as [-> | ->], (lower_f _ H6) as [-> | ->];
      (split; [simpl; lia | reflexivity]). }
  apply (text_compressed _ [] [65535; 256 * a + b; 256 * c + d]%N 5 []
           [String c3 (String c4 (String c5 (String c6 ""))); Validator.dotted a b c d]);
    [reflexivity | reflexivity | lia | constructor |].
  apply pieces_cons; [exact G|]. apply pieces_quad.
  exists a, b, c, d. repeat split; assumption.
Qed.

Lemma unwrapMapped_mapped (a b c d : N) :
  (b < 256)%N -> (d < 256)%N ->
  Validator.unwrapMapped [0; 0; 0; 0; 0; 65535; 256 * a + b; 256 * c + d]%N
    = Some (a, b, c, d).
Proof.
  intros Hb Hd. cbn [Validator.unwrapMapped Validator.eqbGroups N.eqb Pos.eqb andb].
  assert (D : forall x y, (y < 256)%N -> ((256 * x + y) / 256 = x /\ (256 * x + y) mod 256 = y)%N).
  { intros x y Hy. split.
    - symmetry. apply (N.div_unique _ 256 x y); [exact Hy | reflexivity].
    - symmetry. apply (N.mod_unique _ 256 x y); [exact Hy | reflexivity]. }
  destruct (D a b Hb) as [-> ->]. destruct (D c d Hd) as [-> ->]. reflexivity.
Qed.

(** C3. For every [https] URL whose host is, in brackets, IPv4-mapped
    notation [::ffff:a.b.c.d] in any letter case of the prefix, whatever
    the case of the scheme, the slashes, the credentials, the port and the
    rest of the URL: the literal-address step reads the notation as an IPv6
    address, unwraps it to the embedded IPv4 address and classifies that
    address. The URL is rejected as a literal private address exactly when
    the embedded address is loopback, RFC1918 or link-local, and no name is
    resolved. In particular 127.x is rejected as loopback, 10.x,
    172.16-31.x and 192.168.x as private, and 169.254.x as link-local. *)
Theorem mapped_ipv6_is_unwrapped_before_classification
    (resolve : string -> Validator.DnsAnswer) (sch slashes : string)
    (credentials : option string) (p : string) (a b c d : N)
    (port : option string) (rest : string) :
  let literal := p ++ Validator.dotted a b c d in
  let url := urlText sch slashes credentials ("[" ++ literal ++ "]") port rest in
  let class := Validator.classifyIPv4 (a, b, c, d) in
  httpsParts sch slashes credentials port rest = true ->
  Js.toLowerCase p = "::ffff:" ->
  (a < 256)%N -> (b < 256)%N -> (c < 256)%N -> (d < 256)%N ->
  (exists g, Validator.parseIPv6 literal = Some g /\
             Validator.unwrapMapped g = Some (a, b, c, d)) /\
  Validator.classifyLiteral literal = Some class /\
  Validator.validateRemoteOrigin resolve url =
    (if Validator.internal class
     then Validator.Rejected Validator.LiteralPrivateAddress (Validator.AddressDetail class)
     else Validator.Allowed, []) /\
  (a = 127%N ->
     Validator.validateRemoteOrigin resolve url =
       (Validator.Rejected Validator.LiteralPrivateAddress
          (Validator.AddressDetail Validator.Loopback), [])) /\
  (a = 10%N \/ (a = 172%N /\ (16 <= b <= 31)%N) \/ (a = 192%N /\ b = 168%N) ->
     Validator.validateRemoteOrigin resolve url =
       (Validator.Rejected Validator.LiteralPrivateAddress
          (Validator.AddressDetail Validator.PrivateRange), [])) /\
  (a = 169%N /\ b = 254%N ->
     Validator.validateRemoteOrigin resolve url =
       (Validator.Rejected Validator.LiteralPrivateAddress
          (Validator.AddressDetail Validator.LinkLocal), [])) /\
  (~ listedIPv4 a b -> Validator.validateRemoteOrigin resolve url = (Validator.Allowed, [])).
Proof.
  intros literal url class H Hp Ha Hb Hc Hd.
  pose (g := [0; 0; 0; 0; 0; 65535; 256 * a + b; 256 * c + d]%N).
  assert (T : ipv6Text g literal) by (apply mapped_text; assumption).
  assert (U : Validator.unwrapMapped g = Some (a, b, c, d))
    by (apply unwrapMapped_mapped; assumption).
  assert (K : classOfGroups g = class) by (unfold classOfGroups; now rewrite U).
  destruct (validate_bracketed resolve sch slashes credentials literal port rest g H T)
    as [CL V].
  rewrite K in CL, V. unfold literalVerdict in V. fold url in V.
  split; [exists g; split; [exact (parseIPv6_text g literal T) | exact U]|].
  split; [exact CL|]. split; [exact V|].
  assert (L : Validator.internal class = true <-> listedIPv4 a b)
    by apply classifyIPv4_listed.
  unfold class in V, L. unfold Validator.classifyIPv4 in V.
  repeat apply conj.
  - intros ->. exact V.
  - intros [->|[[-> Hr]|[-> ->]]]; [exact V | | exact V].
    destruct Hr as [Hr1 Hr2]. apply N.leb_le in Hr1, Hr2.
    rewrite Hr1, Hr2 in V. exact V.
  - intros [-> ->]. exact V.
  - intros N. rewrite V.
    destruct (Validator.internal (Validator.classifyIPv4 (a, b, c, d))) eqn:E;
      [|unfold Validator.classifyIPv4 in E; rewrite E; reflexivity].
    exfalso. apply N, L. reflexivity.
Qed.

(** The URLs of the unit tests on IPv4-mapped IPv6 hosts, and two with
    credentials, a port, an upper-case scheme and backslashes. *)
Lemma mapped_ipv6_is_unwrapped_before_classification_witness :
  let r := fun _ : string => Validator.DnsAddress "8.8.8.8" in
  Validator.validateRemoteOrigin r "https://[::ffff:127.0.0.1]/image.jpg"
    = (Validator.Rejected Validator.LiteralPrivateAddress
         (Validator.AddressDetail Validator.Loopback), []) /\
  Validator.validateRemoteOrigin r "https://[::FFFF:127.0.0.1]/image.jpg"
    = (Validator.Rejected Validator.LiteralPrivateAddress
         (Validator.AddressDetail Validator.Loopback), []) /\
  Validator.validateRemoteOrigin r "https://[::ffff:10.0.0.1]/image.jpg"
    = (Validator.Rejected Validator.LiteralPrivateAddress
         (Validator.AddressDetail Validator.PrivateRange), []) /\
  Validator.validateRemoteOrigin r "https://[::ffff:169.254.169.254]/latest/meta-data"
    = (Validator.Rejected Validator.LiteralPrivateAddress
         (Validator.AddressDetail Validator.LinkLocal), []) /\
  Validator.validateRemoteOrigin r "https://user@[::ffff:127.0.0.1]/image.jpg"
    = (Validator.Rejected Validator.LiteralPrivateAddress
         (Validator.AddressDetail Validator.Loopback), []) /\
  Validator.validateRemoteOrigin r "HTTPS:\\user:pw@[::fFfF:192.168.1.1]:8443"
    = (Validator.Rejected Validator.LiteralPrivateAddress
         (Validator.AddressDetail Validator.PrivateRange), []) /\
  Validator.validateRemoteOrigin r "https://[::ffff:8.8.8.8]/image.jpg"
    = (Validator.Allowed, []).
Proof.
  intros r. repeat apply conj.
  - apply (mapped_ipv6_is_unwrapped_before_classification r "https" "//" None "::ffff:"
             127 0 0 1 None "/image.jpg" eq_refl eq_refl eq_refl eq_refl eq_refl eq_refl).
    reflexivity.
  - apply (mapped_ipv6_is_unwrapped_before_classification r "https" "//" None "::FFFF:"
             127 0 0 1 None "/image.jpg" eq_refl eq_refl eq_refl eq_refl eq_refl eq_refl).
    reflexivity.
  - apply (mapped_ipv6_is_unwrapped_before_classification r "https" "//" None "::ffff:"
             10 0 0 1 None "/image.jpg" eq_refl eq_refl eq_refl eq_refl eq_refl eq_refl).
    left. reflexivity.
  - apply (mapped_ipv6_is_unwrapped_before_classification r "https" "//" None "::ffff:"
             169 254 169 254 None "/latest/meta-data"
             eq_refl eq_refl eq_refl eq_refl eq_refl eq_refl).
    split; reflexivity.
  - apply (mapped_ipv6_is_unwrapped_before_classification r "https" "//" (Some "user")
             "::ffff:" 127 0 0 1 None "/image.jpg"
             eq_refl eq_refl eq_refl eq_refl eq_refl eq_refl).
    reflexivity.
  - apply (mapped_ipv6_is_unwrapped_before_classification r "HTTPS" "\\" (Some "user:pw")
             "::fFfF:" 192 168 1 1 (Some "8443") ""
             eq_refl eq_refl eq_refl eq_refl eq_refl eq_refl).
    right. right. split; reflexivity.
  - apply (mapped_ipv6_is_unwrapped_before_classification r "https" "//" None "::ffff:"
             8 8 8 8 None "/image.jpg" eq_refl eq_refl eq_refl eq_refl eq_refl eq_refl).
    unfold listedIPv4. lia.
Defined.

Lemma not_blocklisted (h : string) :
  forallb (fun b => negb (Js.includes h b)) Validator.blocklist = true ->
  Validator.blocklisted h = false.
Proof.
  intros H. rewrite forallb_forall in H. unfold Validator.blocklisted.
  destruct (existsb _ Validator.blocklist) eqn:E; [|reflexivity].
  apply existsb_exists in E. destruct E as (b & Hb & E).
  specialize (H b Hb). apply negb_true_iff in H.
  apply orb_true_iff in E. destruct E as [E|E]; [|congruence].
  apply String.eqb_eq in E. subst b. rewrite includes_refl in H. discriminate H.
Qed.

(** C4. For every [https] URL whose host is a domain name that holds no
    blocklisted name, whatever the case of its letters, the credentials,
    the port and the rest of the URL: the validator hands the name, in
    lower case, to the resolver, once in every call, and decides on the
    address that is answered, in any of its texts. The URL is rejected as
    resolving to a private address exactly when the address is internal:
    127.x, 10.x, 172.16-31.x, 192.168.x or 169.254.x; [::1], [fe80::/10]
    or [fc00::/7]; or one of the former in IPv4-mapped notation. It is
    allowed otherwise. *)
Theorem resolved_private_addresses_are_rejected
    (resolve : string -> Validator.DnsAnswer) (sch slashes : string)
    (credentials : option string) (labels : list string) (last : string) (dot : bool)
    (port : option string) (rest : string) (ip : IpAddress) (address : string) :
  let name := Js.toLowerCase (domainText labels last dot) in
  let url := urlText sch slashes credentials (domainText labels last dot) port rest in
  httpsParts sch slashes credentials port rest = true ->
  domainParts labels last = true ->
  forallb (fun b => negb (Js.includes name b)) Validator.blocklist = true ->
  textOf ip address ->
  resolve name = Validator.DnsAddress address ->
  snd (Validator.validateRemoteOrigin resolve url) = [name] /\
  (internalIp ip ->
     exists c, Validator.internal c = true /\
       Validator.validateRemoteOrigin resolve url =
         (Validator.Rejected Validator.ResolvesToPrivateAddress
            (Validator.AddressDetail c), [name])) /\
  (~ internalIp ip ->
     Validator.validateRemoteOrigin resolve url = (Validator.Allowed, [name])) /\
  ((exists dt, fst (Validator.validateRemoteOrigin resolve url)
               = Validator.Rejected Validator.ResolvesToPrivateAddress dt) <->
   internalIp ip).
Proof.
  intros name url H D B T R.
  destruct (httpsParts_parts _ _ _ _ _ H) as (_ & _ & _ & Hp & _).
  destruct (domain_host_chars labels last dot D) as [HC HN].
  destruct (classifyLiteral_text ip address T) as (c & CA & I).
  assert (V : Validator.validateRemoteOrigin resolve url =
              if Validator.internal c
              then (Validator.Rejected Validator.ResolvesToPrivateAddress
                      (Validator.AddressDetail c), [name])
              else (Validator.Allowed, [name])).
  { unfold Validator.validateRemoteOrigin, url.
    rewrite (parseUrl_urlText _ _ _ _ _ _ H
               (allChars_impl _ _ _ label_hostport HC) HN).
    rewrite (domain_parseHostPort labels last dot D port Hp).
    cbn [Validator.scheme Validator.hostname].
    change (negb ("https" =? "https")%string) with false. cbv iota.
    rewrite (domain_unwrapBrackets labels last dot D). fold name.
    rewrite (not_blocklisted name B).
    unfold name. rewrite (domain_not_literal labels last dot D). fold name.
    rewrite R, CA. reflexivity. }
  repeat apply conj.
  - rewrite V. destruct (Validator.internal c); reflexivity.
  - intros N. apply I in N. exists c. split; [exact N|]. now rewrite V, N.
  - intros N. rewrite V. destruct (Validator.internal c); [|reflexivity].
    exfalso. apply N, I. reflexivity.
  - intros [dt E]. rewrite V in E. apply I.
    destruct (Validator.internal c); [reflexivity | discriminate E].
  - intros N. apply I in N. rewrite V, N. eexists. reflexivity.
Qed.

(** The DNS-rebinding tests of the suite ([evil.com] resolving to
    127.0.0.1, [example.com] resolving to 8.8.8.8), a name in upper case
    behind credentials and a port whose address is link-local on an
    interface, and a name with a dot at its end whose address is a mapped
    private one. *)
Lemma resolved_private_addresses_are_rejected_witness :
  (exists c,
     Validator.validateRemoteOrigin (fun _ => Validator.DnsAddress "127.0.0.1")
       "https://evil.com/image.jpg"
     = (Validator.Rejected Validator.ResolvesToPrivateAddress
          (Validator.AddressDetail c), ["evil.com"])) /\
  (exists c,
     Validator.validateRemoteOrigin (fun _ => Validator.DnsAddress "fe80::1%eth0")
       "https://user:pw@Evil.COM:8443/x"
     = (Validator.Rejected Validator.ResolvesToPrivateAddress
          (Validator.AddressDetail c), ["evil.com"])) /\
  (exists c,
     Validator.validateRemoteOrigin (fun _ => Validator.DnsAddress "::FFFF:10.0.0.1")
       "https://evil.com./image.jpg"
     = (Validator.Rejected Validator.ResolvesToPrivateAddress
          (Validator.AddressDetail c), ["evil.com."])) /\
  Validator.validateRemoteOrigin (fun _ => Validator.DnsAddress "8.8.8.8")
    "https://example.com/image.jpg" = (Validator.Allowed, ["example.com"]).
Proof.
  repeat apply conj.
  - destruct (resolved_private_addresses_are_rejected
                (fun _ => Validator.DnsAddress "127.0.0.1")
                "https" "//" None ["evil"] "com" false None "/image.jpg"
                (IPv4 127 0 0 1) "127.0.0.1" eq_refl eq_refl eq_refl
                (text_v4 127 0 0 1 eq_refl eq_refl eq_refl eq_refl) eq_refl)
      as (_ & H & _).
    destruct H as (c & _ & E); [left; reflexivity|]. exists c. exact E.
  - assert (T : textOf (IPv6 [65152; 0; 0; 0; 0; 0; 0; 1]%N) "fe80::1%eth0").
    { apply (text_v6_zone _ "fe80::1" "eth0").
      apply (text_compressed _ [65152]%N [1]%N 6 ["fe80"] ["1"]);
        [reflexivity | reflexivity | lia | |].
      - constructor; [split; [simpl; lia | reflexivity] | constructor].
      - apply pieces_cons; [split; [simpl; lia | reflexivity] | constructor]. }
    destruct (resolved_private_addresses_are_rejected
                (fun _ => Validator.DnsAddress "fe80::1%eth0")
                "https" "//" (Some "user:pw") ["Evil"] "COM" false (Some "8443") "/x"
                (IPv6 [65152; 0; 0; 0; 0; 0; 0; 1]%N) "fe80::1%eth0"
                eq_refl eq_refl eq_refl T eq_refl)
      as (_ & H & _).
    destruct H as (c & _ & E).
    + right. left. exists 65152%N, [0; 0; 0; 0; 0; 0; 1]%N. split; [reflexivity|]. left. lia.
    + exists c. exact E.
  - destruct (resolved_private_addresses_are_rejected
                (fun _ => Validator.DnsAddress "::FFFF:10.0.0.1")
                "https" "//" None ["evil"] "com" true None "/image.jpg"
                (IPv6 [0; 0; 0; 0; 0; 65535; 2560; 1]%N) "::FFFF:10.0.0.1"
                eq_refl eq_refl eq_refl
                (text_v6 _ _ (mapped_text "::FFFF:" 10 0 0 1 eq_refl
                                eq_refl eq_refl eq_refl eq_refl))
                eq_refl)
      as (_ & H & _).
    destruct H as (c & _ & E).
    + right. right. exists 2560%N, 1%N. split; [reflexivity|].
      right. left. reflexivity.
    + exists c. exact E.
  - destruct (resolved_private_addresses_are_rejected
                (fun _ => Validator.DnsAddress "8.8.8.8")
                "https" "//" None ["example"] "com" false None "/image.jpg"
                (IPv4 8 8 8 8) "8.8.8.8" eq_refl eq_refl eq_refl
                (text_v4 8 8 8 8 eq_refl eq_refl eq_refl eq_refl) eq_refl)
      as (_ & _ & H & _).
    apply H. unfold internalIp, listedIPv4. lia.
Defined.

(** * Further properties of the code *)

(** ** The request facade *)

(** What [_makeRequest] does, seen from outside. *)
Lemma makeRequest_supported (env : Env) (api : BflAPI) (method endpoint : string)
    (data : option string) (w : World) (req : AxiosRequest) :
  facadeRequest api method endpoint data = Some req ->
  exists w',
    _makeRequest env api method endpoint data w =
      (match axios_call env (axios_calls w) req with
       | inl d => Val d
       | inr e => Throw (rethrown env e)
       end, w') /\
    now_calls w' = now_calls w /\
    axios_calls w' = S (axios_calls w) /\
    trace w' = (trace w ++ [EvRequest req])%list.
Proof.
  unfold facadeRequest, _makeRequest, makeRequest_catch. intros H.
  destruct (String.eqb (Js.toUpperCase method) "GET");
    [|destruct (String.eqb (Js.toUpperCase method) "POST"); [|discriminate]];
    injection H as <-; run_monad;
    destruct (axios_call env (axios_calls w) _); eexists; repeat split; reflexivity.
Qed.

(** X1. In production mode the error that [_makeRequest] throws for a failure
    answer of the server depends on the HTTP status only: two failures with
    the same status give the same error, whatever their bodies and messages
    say. *)
Theorem production_error_depends_on_status_only
    (env1 env2 : Env) (api : BflAPI) (method endpoint : string)
    (data : option string) (w1 w2 : World) (req : AxiosRequest)
    (e1 e2 : JsError) (r1 r2 : AxiosResponse) :
  node_env_production env1 = true ->
  node_env_production env2 = true ->
  facadeRequest api method endpoint data = Some req ->
  axios_call env1 (axios_calls w1) req = inr e1 ->
  axios_call env2 (axios_calls w2) req = inr e2 ->
  response e1 = Some r1 ->
  response e2 = Some r2 ->
  resp_status r1 = resp_status r2 ->
  fst (_makeRequest env1 api method endpoint data w1)
    = fst (_makeRequest env2 api method endpoint data w2) /\
  fst (_makeRequest env1 api method endpoint data w1) = Throw (rethrown env1 e1) /\
  response (rethrown env1 e1) = None.
Proof.
  intros P1 P2 Hreq A1 A2 R1 R2 S.
  destruct (makeRequest_supported env1 api method endpoint data w1 req Hreq)
    as (w1' & E1 & _).
  destruct (makeRequest_supported env2 api method endpoint data w2 req Hreq)
    as (w2' & E2 & _).
  rewrite E1, E2, A1, A2. cbn [fst].
  assert (R : rethrown env1 e1 = rethrown env2 e2).
  { unfold rethrown, _sanitizeErrorMessage. rewrite R1, R2, P1, P2, S. reflexivity. }
  repeat split; [now rewrite R | ].
  unfold rethrown. rewrite R1.
  destruct (resp_status r1 =? 401)%Z; [reflexivity|].
  destruct (resp_status r1 =? 422)%Z; [reflexivity|].
  destruct (resp_status r1 =? 429)%Z; [reflexivity|].
  destruct ((resp_status r1 =? 502)%Z || (resp_status r1 =? 503)%Z); reflexivity.
Qed.

Lemma production_error_depends_on_status_only_witness :
  let env a := mkEnv Fixture.frozenClock (fun _ _ => inr a) true None (fun _ => "") in
  let e1 := mkJsError "Request failed with status code 422"
              (Some (mkAxiosResponse 422
                 (Some (mkErrorData (Some (DetailString "column users.secret")) None)))) in
  let e2 := mkJsError "other" (Some (mkAxiosResponse 422 None)) in
  fst (_makeRequest (env e1) Fixture.api "GET" "/v1/credits" None world0)
    = fst (_makeRequest (env e2) Fixture.api "GET" "/v1/credits" None world0).
Proof.
  intros env e1 e2.
  apply (production_error_depends_on_status_only (env e1) (env e2) Fixture.api
           "GET" "/v1/credits" None world0 world0 _ e1 e2 _ _
           eq_refl eq_refl eq_refl eq_refl eq_refl eq_refl eq_refl eq_refl).
Defined.

(** X2. A method that is neither GET nor POST, in any letter case, makes
    [_makeRequest] throw "Unsupported HTTP method" without issuing a
    request. *)
Theorem unsupported_method_issues_no_request
    (env : Env) (api : BflAPI) (method endpoint : string)
    (data : option string) (w : World) :
  Js.toUpperCase method <> "GET" ->
  Js.toUpperCase method <> "POST" ->
  exists w',
    _makeRequest env api method endpoint data w
      = (Throw (Error ("Unsupported HTTP method: " ++ method)), w') /\
    axios_calls w' = axios_calls w /\
    trace w' = trace w.
Proof.
  intros G P. unfold _makeRequest, makeRequest_catch.
  destruct (String.eqb_spec (Js.toUpperCase method) "GET") as [|_]; [contradiction|].
  destruct (String.eqb_spec (Js.toUpperCase method) "POST") as [|_]; [contradiction|].
  run_monad. eexists. repeat split; reflexivity.
Qed.

Lemma unsupported_method_issues_no_request_witness :
  exists w',
    _makeRequest (Fixture.scripted Fixture.frozenClock [] (inl Fixture.readyTask))
      Fixture.api "DELETE" "/v1/credits" None world0
      = (Throw (Error "Unsupported HTTP method: DELETE"), w') /\
    axios_calls w' = 0%nat /\ trace w' = [].
Proof.
  apply (unsupported_method_issues_no_request
           (Fixture.scripted Fixture.frozenClock [] (inl Fixture.readyTask))
           Fixture.api "DELETE" "/v1/credits" None world0); discriminate.
Defined.

(** X3. For GET and POST, written in any letter case, [_makeRequest] issues
    exactly one request: to the base URL followed by the endpoint, with the
    key in [x-key], the timeout of 30000 ms and at most 5 redirects; a GET
    carries no body. It returns the data of the answer; an error without a
    response (a transport error) propagates as it is. *)
Theorem makeRequest_issues_one_configured_request
    (env : Env) (api : BflAPI) (method endpoint : string)
    (data : option string) (w : World) :
  Js.toUpperCase method = "GET" \/ Js.toUpperCase method = "POST" ->
  exists req w',
    snd (_makeRequest env api method endpoint data w) = w' /\
    trace w' = (trace w ++ [EvRequest req])%list /\
    axios_calls w' = S (axios_calls w) /\
    req_method req = Js.toUpperCase method /\
    req_url req = baseUrl api ++ endpoint /\
    In ("x-key", apiKey api) (req_headers req) /\
    req_timeout req = Some 30000%Z /\
    req_maxRedirects req = Some 5%Z /\
    (Js.toUpperCase method = "GET" -> req_data req = None) /\
    (Js.toUpperCase method = "POST" -> req_data req = data) /\
    (forall d, axios_call env (axios_calls w) req = inl d ->
               fst (_makeRequest env api method endpoint data w) = Val d) /\
    (forall e, axios_call env (axios_calls w) req = inr e -> response e = None ->
               fst (_makeRequest env api method endpoint data w) = Throw e).
Proof.
  intros H.
  assert (F : exists req, facadeRequest api method endpoint data = Some req /\
                req_method req = Js.toUpperCase method /\
                req_url req = baseUrl api ++ endpoint /\
                In ("x-key", apiKey api) (req_headers req) /\
                req_timeout req = Some 30000%Z /\
                req_maxRedirects req = Some 5%Z /\
                (Js.toUpperCase method = "GET" -> req_data req = None) /\
                (Js.toUpperCase method = "POST" -> req_data req = data)).
  { unfold facadeRequest. destruct H as [H|H]; rewrite H; simpl;
      eexists; repeat split; simpl; auto; discriminate. }
  destruct F as (req & Hreq & P).
  destruct (makeRequest_supported env api method endpoint data w req Hreq)
    as (w' & E & _ & A & T).
  exists req, w'. rewrite E. cbn [fst snd].
  split; [reflexivity|]. split; [exact T|]. split; [exact A|].
  destruct P as (P1 & P2 & P3 & P4 & P5 & P6 & P7).
  repeat split; auto.
  - intros d Hd. rewrite Hd. reflexivity.
  - intros e He Hr. rewrite He. unfold rethrown. rewrite Hr. reflexivity.
Qed.

Lemma makeRequest_issues_one_configured_request_witness :
  exists req,
    requestsOf (trace (snd (_makeRequest
       (Fixture.scripted Fixture.frozenClock [] (inl Fixture.readyTask))
       Fixture.api "get" "/v1/credits" None world0))) = [req] /\
    req_url req = "https://api.bfl.ai/v1/credits" /\
    req_timeout req = Some 30000%Z.
Proof.
  destruct (makeRequest_issues_one_configured_request
              (Fixture.scripted Fixture.frozenClock [] (inl Fixture.readyTask))
              Fixture.api "get" "/v1/credits" None world0)
    as (req & w' & <- & T & _ & _ & U & _ & Ti & _).
  - left. reflexivity.
  - exists req. rewrite T. split; [reflexivity|]. split; [exact U | exact Ti].
Defined.

(** ** Further behaviour of [getResult] and [waitForResult] *)

(** X4. Without a polling URL, a status fetch answered with HTTP 401 or 429
    ends [waitForResult] at once with the error [_makeRequest] makes of it
    ("Authentication failed..." or "Rate limit exceeded..."): it is not
    retried, whatever [maxRetries] and the body of the answer. *)
Theorem auth_and_rate_limit_failures_are_not_retried
    (env : Env) (api : BflAPI) (taskId : string) (o : WaitResultOptions)
    (e : JsError) (r : AxiosResponse) :
  let req := statusRequest api taskId (pollingUrl o) in
  let msg := if (resp_status r =? 401)%Z
             then "Authentication failed. Please check your API key."
             else "Rate limit exceeded. Please wait before making more requests." in
  Js.truthy (apiKey api) = true ->
  Js.truthy_opt (pollingUrl o) = false ->
  response e = Some r ->
  resp_status r = 401%Z \/ resp_status r = 429%Z ->
  (forall startTime retries fuel w,
     timedOut env o startTime (now_calls w) = false ->
     axios_call env (axios_calls w) req = inr e ->
     exists w',
       pollLoop (S fuel) env api taskId o startTime retries w = (Throw (Error msg), w') /\
       axios_calls w' = S (axios_calls w) /\
       trace w' = (trace w ++ [EvRequest req])%list) /\
  (forall fuel,
     timedOut env o (date_now env 0) 1 = false ->
     axios_call env 0%nat req = inr e ->
     exists w',
       waitForResult (S fuel) env api taskId o world0 = (Throw (Error msg), w') /\
       axios_calls w' = 1%nat).
Proof.
  intros req msg Hkey Hu Hr Hs.
  assert (M : thrownByGetResult env (pollingUrl o) e = Error msg /\
              isTransient msg = false).
  { unfold thrownByGetResult, rethrown, msg. rewrite Hu, Hr.
    destruct Hs as [Hs|Hs]; rewrite Hs; split; reflexivity. }
  destruct M as (Hthrown & Htr).
  assert (G : forall startTime retries fuel w,
             timedOut env o startTime (now_calls w) = false ->
             axios_call env (axios_calls w) req = inr e ->
             exists w',
               pollLoop (S fuel) env api taskId o startTime retries w
                 = (Throw (Error msg), w') /\
               axios_calls w' = S (axios_calls w) /\
               trace w' = (trace w ++ [EvRequest req])%list).
  { intros startTime retries fuel w Ht Ha.
    destruct (loopBody_rethrow env api taskId o startTime Hkey retries w e Ht Ha)
      as (w' & E & _ & A & T).
    { right; left. rewrite Hthrown. exact Htr. }
    rewrite Hthrown in E. exists w'. cbn [pollLoop]. unfold bind at 1. rewrite E. auto. }
  split; [exact G|].
  intros fuel Ht Ha. rewrite waitForResult_unfold.
  destruct (G (date_now env 0) 0%nat fuel (mkWorld 1 0 [] []) Ht Ha) as (w' & E & A & _).
  exists w'. auto.
Qed.

Lemma auth_and_rate_limit_failures_are_not_retried_witness :
  let e := mkJsError "Request failed with status code 401"
             (Some (mkAxiosResponse 401 None)) in
  exists w',
    waitForResult 4 (Fixture.scripted Fixture.frozenClock [] (inr e))
      Fixture.api "task_123" Fixture.fastOptions world0
      = (Throw (Error "Authentication failed. Please check your API key."), w') /\
    axios_calls w' = 1%nat.
Proof.
  intros e.
  destruct (auth_and_rate_limit_failures_are_not_retried
              (Fixture.scripted Fixture.frozenClock [] (inr e))
              Fixture.api "task_123" Fixture.fastOptions e (mkAxiosResponse 401 None)
              eq_refl eq_refl eq_refl (or_introl eq_refl))
    as (_ & H).
  exact (H 3%nat eq_refl eq_refl).
Defined.

(** X5. With a polling URL, [getResult] does not translate a failure: the
    error with which axios rejected propagates as it is, response and
    message included, in production mode too. *)
Theorem polling_url_errors_are_not_translated
    (env : Env) (api : BflAPI) (taskId : string) (pu : option string)
    (w : World) (e : JsError) :
  Js.truthy (apiKey api) = true ->
  Js.truthy_opt pu = true ->
  axios_call env (axios_calls w) (statusRequest api taskId pu) = inr e ->
  exists w',
    getResult env api taskId pu w = (Throw e, w') /\
    axios_calls w' = S (axios_calls w) /\
    In (mkLogEntry ApiLogger LogError
          ("Error polling task " ++ taskId ++ ": " ++ message e) None) (logs w').
Proof.
  intros Hkey Hu Ha. unfold getResult, _verifyApiKey, statusRequest in *.
  rewrite Hkey, Hu in *. run_monad. rewrite Ha.
  eexists. repeat split. apply in_or_app. right. left. reflexivity.
Qed.

Lemma polling_url_errors_are_not_translated_witness :
  let e := mkJsError "Request failed with status code 401"
             (Some (mkAxiosResponse 401 None)) in
  exists w',
    getResult (mkEnv Fixture.frozenClock (fun _ _ => inr e) true None (fun _ => ""))
      Fixture.api "task_123" (Some "https://custom.api.url/result") world0
      = (Throw e, w').
Proof.
  intros e.
  destruct (polling_url_errors_are_not_translated
              (mkEnv Fixture.frozenClock (fun _ _ => inr e) true None (fun _ => ""))
              Fixture.api "task_123" (Some "https://custom.api.url/result") world0 e
              eq_refl eq_refl eq_refl) as (w' & E & _).
  exists w'. exact E.
Defined.

(** X6. An instance without a key issues no request: [getResult] throws
    "API key not set" before anything else, and [waitForResult] fails with
    that error on its first pass, without a request, a sleep or a retry. *)
Theorem no_status_request_without_key
    (env : Env) (api : BflAPI) (taskId : string) (o : WaitResultOptions) :
  Js.truthy (apiKey api) = false ->
  (forall pu w, getResult env api taskId pu w = (Throw (Error apiKeyNotSetMessage), w)) /\
  (forall fuel,
     timedOut env o (date_now env 0) 1 = false ->
     exists w',
       waitForResult (S fuel) env api taskId o world0
         = (Throw (Error apiKeyNotSetMessage), w') /\
       axios_calls w' = 0%nat /\ trace w' = []).
Proof.
  intros K.
  assert (G : forall pu w,
             getResult env api taskId pu w = (Throw (Error apiKeyNotSetMessage), w)).
  { intros pu w. unfold getResult, _verifyApiKey, bind. rewrite K. reflexivity. }
  split; [exact G|].
  intros fuel Ht. rewrite waitForResult_unfold. cbn [pollLoop]. unfold bind at 1.
  rewrite (loopBody_caught env api taskId o (date_now env 0) 0 (mkWorld 1 0 [] [])
             (mkWorld 2 0 [] []) (Error apiKeyNotSetMessage) Ht).
  - rewrite poll_catch_key_missing. eexists. repeat split.
  - unfold poll_try, bind. rewrite G. reflexivity.
Qed.

Lemma no_status_request_without_key_witness :
  exists w',
    waitForResult 3 (Fixture.scripted Fixture.frozenClock [] (inl Fixture.readyTask))
      (mkBflAPI "" BASE_URL) "task_123" noOptions world0
      = (Throw (Error apiKeyNotSetMessage), w') /\
    axios_calls w' = 0%nat /\ trace w' = [].
Proof.
  destruct (no_status_request_without_key
              (Fixture.scripted Fixture.frozenClock [] (inl Fixture.readyTask))
              (mkBflAPI "" BASE_URL) "task_123" noOptions eq_refl) as [_ H].
  exact (H 2%nat eq_refl).
Defined.

(** X7. A negative poll interval makes the call fail as soon as it has to
    wait: after the first answer that is not [Ready], [Error] or [Content
    Moderated], [pause] throws "Seconds cannot be negative"; one request has
    been issued and nothing was slept. *)
Theorem negative_poll_interval_fails_at_first_wait
    (env : Env) (api : BflAPI) (taskId : string) (o : WaitResultOptions)
    (data : TaskResult) (fuel : nat) :
  let req := statusRequest api taskId (pollingUrl o) in
  Js.truthy (apiKey api) = true ->
  Qltb (pollInterval_of o) 0 = true ->
  timedOut env o (date_now env 0) 1 = false ->
  axios_call env 0%nat req = inl data ->
  nonTerminal (status data) = true ->
  exists w',
    waitForResult (S fuel) env api taskId o world0
      = (Throw (Error "Seconds cannot be negative"), w') /\
    axios_calls w' = 1%nat /\ trace w' = [EvRequest req].
Proof.
  intros req Hkey Hp Ht Ha Hn.
  unfold nonTerminal in Hn. apply andb_true_iff in Hn. destruct Hn as [Hn K3].
  apply andb_true_iff in Hn. destruct Hn as [K1 K2].
  apply negb_true_iff in K1, K2, K3.
  rewrite waitForResult_unfold. cbn [pollLoop]. unfold bind at 1.
  rewrite loopBody_in_time by exact Ht. cbn [now_calls axios_calls trace logs].
  destruct (getResult_resolved env api taskId (pollingUrl o) Hkey
              (mkWorld 2 0 [] []) data Ha) as (w2 & E & N & A & T).
  unfold bind at 1. unfold try_catch, poll_try. unfold bind at 1.
  fold req in E. rewrite E, K1, K2, K3. unfold ret at 1. unfold bind, pause. rewrite Hp.
  unfold throw. exists w2. repeat split; assumption.
Qed.

Lemma negative_poll_interval_fails_at_first_wait_witness :
  exists w',
    waitForResult 3 (Fixture.scripted Fixture.frozenClock [] (inl Fixture.pendingTask))
      Fixture.api "task_123"
      (mkWaitResultOptions None None (Some (-1)) None (Some false)) world0
      = (Throw (Error "Seconds cannot be negative"), w') /\
    axios_calls w' = 1%nat.
Proof.
  destruct (negative_poll_interval_fails_at_first_wait
              (Fixture.scripted Fixture.frozenClock [] (inl Fixture.pendingTask))
              Fixture.api "task_123"
              (mkWaitResultOptions None None (Some (-1)) None (Some false))
              Fixture.pendingTask 2 eq_refl eq_refl eq_refl eq_refl eq_refl)
    as (w' & E & A & _).
  exists w'. split; [exact E | exact A].
Defined.

(** X8. An [Error] status that carries no failure reason (no [result], no
    [result.error], or an empty one) ends the call at once with "Generation
    failed: Unknown error", whatever the counter and [maxRetries]. *)
Theorem error_status_without_reason
    (env : Env) (api : BflAPI) (taskId : string) (o : WaitResultOptions)
    (data : TaskResult) :
  let req := statusRequest api taskId (pollingUrl o) in
  Js.truthy (apiKey api) = true ->
  status data = "Error" ->
  Js.truthy_opt (match result data with Some b => result_error b | None => None end)
    = false ->
  forall startTime retries fuel w,
    timedOut env o startTime (now_calls w) = false ->
    axios_call env (axios_calls w) req = inl data ->
    exists w',
      pollLoop (S fuel) env api taskId o startTime retries w
        = (Throw (Error "Generation failed: Unknown error"), w') /\
      axios_calls w' = S (axios_calls w) /\
      trace w' = (trace w ++ [EvRequest req])%list.
Proof.
  intros req Hkey Hs Hr startTime retries fuel w Ht Ha.
  assert (M : errorMsgOf data = "Unknown error").
  { unfold errorMsgOf, Js.or_else. rewrite Hr. reflexivity. }
  destruct (loopBody_status_error env api taskId o startTime Hkey retries w data Ht Ha Hs)
    as (w' & E & A & T).
  { right; left. rewrite M. reflexivity. }
  rewrite M in E. exists w'. cbn [pollLoop]. unfold bind at 1. rewrite E. auto.
Qed.

Lemma error_status_without_reason_witness :
  exists w',
    waitForResult 3
      (Fixture.scripted Fixture.frozenClock []
         (inl (mkTaskResult "task_123" "Error" None)))
      Fixture.api "task_123" noOptions world0
      = (Throw (Error "Generation failed: Unknown error"), w') /\
    axios_calls w' = 1%nat.
Proof.
  destruct (error_status_without_reason
              (Fixture.scripted Fixture.frozenClock []
                 (inl (mkTaskResult "task_123" "Error" None)))
              Fixture.api "task_123" noOptions (mkTaskResult "task_123" "Error" None)
              eq_refl eq_refl eq_refl (date_now
                 (Fixture.scripted Fixture.frozenClock []
                    (inl (mkTaskResult "task_123" "Error" None))) 0)
              0%nat 2%nat (mkWorld 1 0 [] []) eq_refl eq_refl)
    as (w' & E & A & _).
  exists w'. split; [exact E | exact A].
Defined.

Section NonTerminal.
Variables (env : Env) (api : BflAPI) (taskId : string) (o : WaitResultOptions).
Variable startTime : Z.
Hypothesis key_set : Js.truthy (apiKey api) = true.

Let req := statusRequest api taskId (pollingUrl o).

Lemma pollLoop_nonterminal_then_ready (n : nat) :
  forall (w : World) (retries fuel : nat) (ready : TaskResult),
  Qltb (pollInterval_of o) 0 = false ->
  (forall k, (k < n)%nat ->
     exists data, axios_call env (axios_calls w + k) req = inl data /\
                  nonTerminal (status data) = true) ->
  axios_call env (axios_calls w + n) req = inl ready ->
  status ready = "Ready" ->
  (forall k, (k <= n)%nat -> timedOut env o startTime (now_calls w + k) = false) ->
  (n < fuel)%nat ->
  exists w',
    pollLoop fuel env api taskId o startTime retries w = (Val (Some ready), w') /\
    axios_calls w' = (axios_calls w + n + 1)%nat /\
    trace w' = (trace w ++ waitingTrace req (pollInterval_of o) n ++ [EvRequest req])%list.
Proof.
  induction n as [|n IH]; intros w retries fuel ready Hp Hw Hr Hs Ht Hf.
  - destruct (pollLoop_waiting_then_ready env api taskId o startTime key_set 0
                w retries fuel ready Hp) as (w' & E & _ & A & T); auto.
    { intros k Hk. lia. }
    exists w'. auto.
  - destruct fuel as [|fuel]; [lia|].
    destruct (Hw 0%nat) as (data & Ha & Hk); [lia|].
    rewrite Nat.add_0_r in Ha.
    unfold nonTerminal in Hk. apply andb_true_iff in Hk. destruct Hk as [Hk K3].
    apply andb_true_iff in Hk. destruct Hk as [K1 K2].
    apply negb_true_iff in K1, K2, K3.
    destruct (loopBody_waiting env api taskId o startTime key_set retries w data)
      as (w1 & E & N & A & T); auto.
    { rewrite <- (Nat.add_0_r (now_calls w)). apply Ht. lia. }
    destruct (IH w1 0%nat fuel ready) as (w' & E' & A' & T'); auto.
    { intros k Hk'. rewrite A. replace (S (axios_calls w) + k)%nat
        with (axios_calls w + S k)%nat by lia. apply Hw. lia. }
    { rewrite A. replace (S (axios_calls w) + n)%nat
        with (axios_calls w + S n)%nat by lia. exact Hr. }
    { intros k Hk'. rewrite N. replace (S (now_calls w) + k)%nat
        with (now_calls w + S k)%nat by lia. apply Ht. lia. }
    { lia. }
    exists w'. cbn [pollLoop]. unfold bind at 1. rewrite E.
    repeat split; [exact E' | lia |].
    rewrite T', T. cbn [waitingTrace]. rewrite <- app_assoc. reflexivity.
Qed.

End NonTerminal.

(** X9. A status the code does not name is treated like [Pending]: after
    [N] answers whose status is none of [Ready], [Error] and [Content
    Moderated] (an unknown status such as "Task not found" included),
    followed by [Ready], the call has issued [N + 1] requests, slept the poll
    interval [N] times and returns the task; no unknown status ends it. *)
Theorem unknown_statuses_keep_polling
    (env : Env) (api : BflAPI) (taskId : string) (o : WaitResultOptions)
    (N fuel : nat) (ready : TaskResult) :
  let req := statusRequest api taskId (pollingUrl o) in
  Js.truthy (apiKey api) = true ->
  Qltb (pollInterval_of o) 0 = false ->
  (forall k, (k < N)%nat ->
     exists data, axios_call env k req = inl data /\ nonTerminal (status data) = true) ->
  axios_call env N req = inl ready ->
  status ready = "Ready" ->
  (forall k, (k <= N)%nat -> timedOut env o (date_now env 0) (S k) = false) ->
  (N < fuel)%nat ->
  exists w',
    waitForResult fuel env api taskId o world0 = (Val (Some ready), w') /\
    axios_calls w' = (N + 1)%nat /\
    trace w' = (waitingTrace req (pollInterval_of o) N ++ [EvRequest req])%list.
Proof.
  intros req Hkey Hp Hw Hr Hs Ht Hf. rewrite waitForResult_unfold.
  destruct (pollLoop_nonterminal_then_ready env api taskId o (date_now env 0) Hkey N
              (mkWorld 1 0 [] []) 0%nat fuel ready) as (w' & E & A & T); auto.
  exists w'. auto.
Qed.

Lemma unknown_statuses_keep_polling_witness :
  exists w',
    waitForResult 3
      (Fixture.scripted Fixture.frozenClock
         [inl (mkTaskResult "task_123" "Task not found" None);
          inl (mkTaskResult "task_123" "" None)]
         (inl Fixture.readyTask))
      Fixture.api "task_123" Fixture.fastOptions world0
      = (Val (Some Fixture.readyTask), w') /\
    axios_calls w' = 3%nat.
Proof.
  destruct (unknown_statuses_keep_polling
              (Fixture.scripted Fixture.frozenClock
                 [inl (mkTaskResult "task_123" "Task not found" None);
                  inl (mkTaskResult "task_123" "" None)]
                 (inl Fixture.readyTask))
              Fixture.api "task_123" Fixture.fastOptions 2 3 Fixture.readyTask)
    as (w' & E & A & _).
  - reflexivity.
  - reflexivity.
  - intros k Hk. destruct k as [|[|k]].
    + eexists. split; reflexivity.
    + eexists. split; reflexivity.
    + lia.
  - reflexivity.
  - reflexivity.
  - intros k _. reflexivity.
  - lia.
  - exists w'. split; [exact E | exact A].
Defined.

(** ** The sleeps of a call *)

Lemma pausesOf_app (a b : list Event) :
  pausesOf (a ++ b) = (pausesOf a ++ pausesOf b)%list.
Proof.
  induction a as [|[r|q] a IH]; simpl; [reflexivity | exact IH | now rewrite IH].
Qed.

Section Sleeps.
Variables (env : Env) (api : BflAPI) (taskId : string) (o : WaitResultOptions).
Variable startTime : Z.

Lemma loopBody_pauses (retries : nat) (w : World)
    (r : Res (TaskResult + nat)) (w' : World) :
  loopBody env api taskId o startTime retries w = (r, w') ->
  exists rest, trace w' = (trace w ++ rest)%list /\
               Forall (allowedSleep o) (pausesOf rest).
Proof.
  intros H. destruct (timedOut env o startTime (now_calls w)) eqn:Ht.
  - rewrite loopBody_timeout in H by exact Ht. injection H as <- <-.
    exists []. split; [now rewrite app_nil_r | constructor].
  - rewrite loopBody_in_time in H by exact Ht.
    set (w0 := mkWorld (S (now_calls w)) (axios_calls w) (trace w) (logs w)) in *.
    unfold bind at 1 in H. unfold try_catch in H.
    destruct (poll_try env api taskId o w0) as [rt w1] eqn:Et.
    assert (P : exists pre, trace w1 = (trace w ++ pre)%list /\ pausesOf pre = []).
    { destruct (poll_try_effects env api taskId o w0 rt w1 Et)
        as (_ & [(_ & T1)|(_ & _ & T1 & _)]); simpl in T1.
      - eexists. split; [exact T1 | reflexivity].
      - exists []. split; [now rewrite app_nil_r | reflexivity]. }
    destruct P as (pre & T1 & P1).
    assert (G : forall post,
               Forall (allowedSleep o) (pausesOf post) ->
               trace w' = (trace w1 ++ post)%list ->
               exists rest, trace w' = (trace w ++ rest)%list /\
                            Forall (allowedSleep o) (pausesOf rest)).
    { intros post F Hw. exists (pre ++ post)%list.
      rewrite Hw, T1, <- app_assoc, pausesOf_app, P1. auto. }
    destruct rt as [[data| |k]|err].
    + injection H as _ <-. apply (G []); [constructor | now rewrite app_nil_r].
    + unfold bind in H.
      destruct (pause env (pollInterval_of o) w1) as [rp wp] eqn:Ep.
      destruct (pause_effects _ _ _ _ _ Ep) as (_ & _ & Tp).
      assert (w' = wp) by (destruct rp; injection H as _ <-; reflexivity). subst wp.
      destruct Tp as [Tp|Tp].
      * apply (G []); [constructor | now rewrite app_nil_r].
      * apply (G [EvPause (pollInterval_of o)]); [|exact Tp].
        constructor; [left; reflexivity | constructor].
    + injection H as _ <-. apply (G []); [constructor | now rewrite app_nil_r].
    + destruct (poll_catch env o retries err w1) as [rc wc] eqn:Ec.
      destruct (poll_catch_effects env o retries err w1 rc wc Ec)
        as (_ & _ & [(-> & ->)|(-> & Tc & _ & _ & L)]).
      * injection H as _ <-. apply (G []); [constructor | now rewrite app_nil_r].
      * injection H as _ <-. apply (G [EvPause (backoff (S retries))]); [|exact Tc].
        constructor; [|constructor]. right. exists (S retries).
        repeat split; [lia | lia].
Qed.

Lemma pollLoop_pauses (fuel : nat) :
  forall (retries : nat) (w : World) (r : Res (option TaskResult)) (w' : World),
  pollLoop fuel env api taskId o startTime retries w = (r, w') ->
  exists rest, trace w' = (trace w ++ rest)%list /\
               Forall (allowedSleep o) (pausesOf rest).
Proof.
  induction fuel as [|fuel IH]; intros retries w r w' H.
  - injection H as _ <-. exists []. split; [now rewrite app_nil_r | constructor].
  - cbn [pollLoop] in H. unfold bind at 1 in H.
    destruct (loopBody env api taskId o startTime retries w) as [rb w1] eqn:Eb.
    destruct (loopBody_pauses retries w rb w1 Eb) as (rest1 & T1 & F1).
    destruct rb as [[res|k]|e].
    + injection H as _ <-. exists rest1. auto.
    + destruct (IH k w1 r w' H) as (rest2 & T2 & F2).
      exists (rest1 ++ rest2)%list. split.
      * rewrite T2, T1, <- app_assoc. reflexivity.
      * rewrite pausesOf_app. apply Forall_app. auto.
    + injection H as _ <-. exists rest1. auto.
Qed.

End Sleeps.

Lemma backoff_le (k : nat) (m : Z) :
  (Z.of_nat k <= m)%Z -> (backoff k <= inject_Z (2 ^ m))%Q.
Proof.
  intros H. unfold backoff, Qle. simpl. rewrite !Z.mul_1_r.
  apply Z.pow_le_mono_r; lia.
Qed.

(** X10. Whatever the server and the clock do and however the call ends,
    [waitForResult] only ever sleeps the poll interval or a back-off of
    [2^k] seconds with [k] from 1 to [maxRetries]: no back-off is longer
    than [2^maxRetries] seconds, and with [maxRetries] at most 0 there is no
    back-off at all. *)
Theorem sleeps_are_poll_interval_or_bounded_backoff
    (env : Env) (api : BflAPI) (taskId : string) (o : WaitResultOptions)
    (fuel : nat) (r : Res (option TaskResult)) (w' : World) :
  waitForResult fuel env api taskId o world0 = (r, w') ->
  Forall (allowedSleep o) (pausesOf (trace w')) /\
  Forall (fun q => q = pollInterval_of o \/
                   (2 <= q /\ q <= inject_Z (2 ^ maxRetries_of o))%Q)
         (pausesOf (trace w')) /\
  ((maxRetries_of o <= 0)%Z ->
   Forall (fun q => q = pollInterval_of o) (pausesOf (trace w'))).
Proof.
  intros H. rewrite waitForResult_unfold in H.
  destruct (pollLoop_pauses env api taskId o (date_now env 0) fuel 0%nat _ r w' H)
    as (rest & T & F).
  simpl in T. rewrite T. split; [exact F|]. split.
  - eapply Forall_impl; [|exact F]. intros q [Hq|(k & K1 & K2 & ->)]; [left; exact Hq|].
    right. split; [|apply backoff_le; exact K2].
    change 2%Q with (inject_Z (2 ^ 1)). unfold backoff, Qle. simpl. rewrite !Z.mul_1_r.
    change 2%Z with (2 ^ 1)%Z at 1. apply Z.pow_le_mono_r; lia.
  - intros M. eapply Forall_impl; [|exact F].
    intros q [Hq|(k & K1 & K2 & _)]; [exact Hq | lia].
Qed.

Lemma sleeps_are_poll_interval_or_bounded_backoff_witness :
  Forall (fun q => q = (1 # 100) \/ (2 <= q /\ q <= 8)%Q)
    (pausesOf (trace (snd (waitForResult 6
       (Fixture.scripted Fixture.frozenClock
          [inl Fixture.pendingTask; inr (Error "503 Service Unavailable");
           inr (Error "read ECONNRESET")]
          (inl Fixture.readyTask))
       Fixture.api "task_123" Fixture.fastOptions world0)))).
Proof.
  apply (sleeps_are_poll_interval_or_bounded_backoff
           (Fixture.scripted Fixture.frozenClock
              [inl Fixture.pendingTask; inr (Error "503 Service Unavailable");
               inr (Error "read ECONNRESET")]
              (inl Fixture.readyTask))
           Fixture.api "task_123" Fixture.fastOptions 6 _ _ (surjective_pairing _)).
Defined.

(** ** The generation methods *)

Section GenerationProperties.
Variable serialize : Payload -> string.
Variables (env : Env) (api : BflAPI).

Lemma submitGeneration_run (modelKey : ModelEndpointKey) (modelLabel : string)
    (payload : Payload) (w : World) :
  exists w',
    _submitGeneration serialize env api modelKey modelLabel payload w =
      (match axios_call env (axios_calls w) (submission serialize api modelKey payload) with
       | inl d => Val d
       | inr e => Throw (rethrown env e)
       end, w') /\
    axios_calls w' = S (axios_calls w) /\
    trace w' = (trace w ++ [EvRequest (submission serialize api modelKey payload)])%list.
Proof.
  destruct (makeRequest_supported env api "POST" (MODEL_ENDPOINTS modelKey)
              (Some (serialize payload)) w (submission serialize api modelKey payload)
              eq_refl) as (w1 & E & _ & A & T).
  unfold _submitGeneration, try_catch, bind at 1. rewrite E.
  destruct (axios_call env (axios_calls w) _); run_monad;
    eexists; repeat split; simpl; assumption.
Qed.

Lemma verifyApiKey_ok (w : World) :
  Js.truthy (apiKey api) = true -> _verifyApiKey api w = (Val tt, w).
Proof. intros H. unfold _verifyApiKey. rewrite H. reflexivity. Qed.

Lemma verifyApiKey_missing (w : World) :
  Js.truthy (apiKey api) = false ->
  _verifyApiKey api w = (Throw (Error apiKeyNotSetMessage), w).
Proof. intros H. unfold _verifyApiKey. rewrite H. reflexivity. Qed.

Lemma require_ok (x : option string) (msg : string) (w : World) :
  Js.truthy_opt x = true -> require x msg w = (Val tt, w).
Proof. intros H. unfold require. rewrite H. reflexivity. Qed.

Lemma require_missing (x : option string) (msg : string) (w : World) :
  Js.truthy_opt x = false -> require x msg w = (Throw (Error msg), w).
Proof. intros H. unfold require. rewrite H. reflexivity. Qed.

Lemma generate_submits (m : GenerationMethod) (p : Params.t) (w : World) :
  Js.truthy (apiKey api) = true ->
  forallb Js.truthy_opt (requiredInputs m p) = true ->
  exists label,
    generate serialize env api m p w =
      _submitGeneration serialize env api (modelKeyOf m) label (payloadOf m p) w.
Proof.
  intros K R.
  destruct m; cbn [requiredInputs forallb] in R;
    repeat match type of R with
           | (_ && _)%bool = true => apply andb_true_iff in R; destruct R as [? R]
           end;
    eexists;
    cbn [generate modelKeyOf payloadOf];
    unfold generateFluxDev, generateFluxPro, generateFluxProUltra, generateFluxProFill,
      generateFluxProFillFinetuned, generateFluxProExpand, generateKontextPro,
      generateKontextMax, generateFlux2Pro, generateFlux2Flex, _generateFlux2;
    repeat (unfold bind at 1;
            first [rewrite verifyApiKey_ok by assumption
                  | rewrite require_ok by assumption]);
    reflexivity.
Qed.

End GenerationProperties.

(** X11. Without an API key none of the ten generation methods issues a
    request or writes a log line: each throws the "API key not set" error
    and leaves the world as it was, whatever the parameters. *)
Theorem generation_needs_api_key
    (serialize : Payload -> string) (env : Env) (api : BflAPI)
    (m : GenerationMethod) (p : Params.t) (w : World) :
  Js.truthy (apiKey api) = false ->
  generate serialize env api m p w = (Throw (Error apiKeyNotSetMessage), w).
Proof.
  intros K.
  destruct m; cbn [generate];
    unfold generateFluxDev, generateFluxPro, generateFluxProUltra, generateFluxProFill,
      generateFluxProFillFinetuned, generateFluxProExpand, generateKontextPro,
      generateKontextMax, generateFlux2Pro, generateFlux2Flex, _generateFlux2;
    unfold bind at 1; rewrite verifyApiKey_missing by assumption; reflexivity.
Qed.

Lemma generation_needs_api_key_witness :
  generate (fun _ => "{}") (Fixture.scripted Fixture.frozenClock [] (inl Fixture.readyTask))
    (mkBflAPI "" BASE_URL) Flux2Pro Params.empty world0
  = (Throw (Error apiKeyNotSetMessage), world0).
Proof.
  apply (generation_needs_api_key (fun _ => "{}")
           (Fixture.scripted Fixture.frozenClock [] (inl Fixture.readyTask))
           (mkBflAPI "" BASE_URL) Flux2Pro Params.empty world0).
  reflexivity.
Defined.

(** X12. The input checks of the generation methods come before any
    request. With a key set: Fill without an image, or with an image and
    without a prompt; Fill finetuned without a finetune id, or with one and
    without an image; Expand without an image; Kontext Pro and Kontext Max
    without an input image: each throws the message that names the missing
    input and leaves the world as it was. An empty string counts as
    missing. *)
Theorem missing_input_is_rejected_before_any_request
    (serialize : Payload -> string) (env : Env) (api : BflAPI)
    (p : Params.t) (w : World) :
  Js.truthy (apiKey api) = true ->
  let run m := generate serialize env api m p w in
  let missing x := Js.truthy_opt x = false in
  let given x := Js.truthy_opt x = true in
  (missing (Params.image p) ->
   run FluxProFill = (Throw (Error "image is required for FLUX.1 Fill [pro]"), w)) /\
  (given (Params.image p) -> missing (Params.prompt p) ->
   run FluxProFill = (Throw (Error "prompt is required for FLUX.1 Fill [pro]"), w)) /\
  (missing (Params.finetune_id p) ->
   run FluxProFillFinetuned
     = (Throw (Error "finetune_id is required for FLUX.1 Fill [pro] finetune"), w)) /\
  (given (Params.finetune_id p) -> missing (Params.image p) ->
   run FluxProFillFinetuned
     = (Throw (Error "image is required for FLUX.1 Fill [pro] finetune"), w)) /\
  (missing (Params.image p) ->
   run FluxProExpand = (Throw (Error "image is required for FLUX.1 Expand [pro]"), w)) /\
  (missing (Params.input_image p) ->
   run KontextPro = (Throw (Error "input_image is required for Kontext Pro"), w)) /\
  (missing (Params.input_image p) ->
   run KontextMax = (Throw (Error "input_image is required for Kontext Max"), w)).
Proof.
  intros K run missing given. subst run missing given. cbn beta.
  repeat split; intros;
    cbn [generate];
    unfold generateFluxProFill, generateFluxProFillFinetuned, generateFluxProExpand,
      generateKontextPro, generateKontextMax;
    unfold bind at 1; rewrite verifyApiKey_ok by assumption;
    repeat (unfold bind at 1;
            first [rewrite require_ok by assumption
                  | rewrite require_missing by assumption]);
    reflexivity.
Qed.

Lemma missing_input_is_rejected_before_any_request_witness :
  generate (fun _ => "{}") (Fixture.scripted Fixture.frozenClock [] (inl Fixture.readyTask))
    Fixture.api FluxProFill
    (Params.mk (Some "a sky") None None None None None None None None None None None None
       (Some "") None None None None None None None None None None None None None None None)
    world0
  = (Throw (Error "image is required for FLUX.1 Fill [pro]"), world0).
Proof.
  apply (missing_input_is_rejected_before_any_request (fun _ => "{}")
           (Fixture.scripted Fixture.frozenClock [] (inl Fixture.readyTask))
           Fixture.api
           (Params.mk (Some "a sky") None None None None None None None None None None
              None None (Some "") None None None None None None None None None None None
              None None None None)
           world0 eq_refl).
  reflexivity.
Defined.

(** X13. With a key set and the inputs it insists on given, each of the ten
    generation methods issues exactly one request: a POST of its own payload
    to its own endpoint under the base URL, with the key in [x-key]. It
    returns the data of the answer; when the request fails it throws what
    [_makeRequest] throws for that failure. No method insists on more than
    its listed inputs: FLUX.1 [dev], for one, posts even without a prompt. *)
Theorem generation_issues_one_post
    (serialize : Payload -> string) (env : Env) (api : BflAPI)
    (m : GenerationMethod) (p : Params.t) (w : World) :
  Js.truthy (apiKey api) = true ->
  forallb Js.truthy_opt (requiredInputs m p) = true ->
  let req := submission serialize api (modelKeyOf m) (payloadOf m p) in
  exists w',
    generate serialize env api m p w =
      (match axios_call env (axios_calls w) req with
       | inl d => Val d
       | inr e => Throw (rethrown env e)
       end, w') /\
    axios_calls w' = S (axios_calls w) /\
    trace w' = (trace w ++ [EvRequest req])%list /\
    req_method req = "POST" /\
    req_url req = baseUrl api ++ MODEL_ENDPOINTS (modelKeyOf m) /\
    req_data req = Some (serialize (payloadOf m p)) /\
    In ("x-key", apiKey api) (req_headers req).
Proof.
  intros K R req.
  destruct (generate_submits serialize env api m p w K R) as (label & E).
  destruct (submitGeneration_run serialize env api (modelKeyOf m) label (payloadOf m p) w)
    as (w' & E' & A & T).
  exists w'. rewrite E, E'. repeat split; try assumption.
  simpl. unfold requestHeaders. simpl. auto.
Qed.

Lemma generation_issues_one_post_witness :
  exists w',
    generate (fun _ => "{}")
      (Fixture.scripted Fixture.frozenClock [] (inl Fixture.pendingTask))
      Fixture.api FluxDev Params.empty world0 = (Val Fixture.pendingTask, w') /\
    axios_calls w' = 1%nat.
Proof.
  destruct (generation_issues_one_post (fun _ => "{}")
              (Fixture.scripted Fixture.frozenClock [] (inl Fixture.pendingTask))
              Fixture.api FluxDev Params.empty world0 eq_refl eq_refl)
    as (w' & E & A & _).
  exists w'. split; [exact E | exact A].
Defined.

(** ** The payloads *)

Lemma payloadGet_cons (k k' : string) (v : JsValue) (rest : Payload) :
  payloadGet k ((k', v) :: rest) = if String.eqb k k' then Some v else payloadGet k rest.
Proof. reflexivity. Qed.

Lemma payloadGet_spreadIf (k : string) (c : bool) (k' : string) (v : JsValue)
    (rest : Payload) :
  payloadGet k (spreadIf c k' v ++ rest)%list
    = if (String.eqb k k' && c)%bool then Some v else payloadGet k rest.
Proof. destruct c; simpl; [destruct (String.eqb k k')|]; try reflexivity.
  rewrite andb_false_r. reflexivity. Qed.

Lemma payloadGet_spreadIf_last (k : string) (c : bool) (k' : string) (v : JsValue) :
  payloadGet k (spreadIf c k' v)
    = if (String.eqb k k' && c)%bool then Some v else None.
Proof. rewrite <- (app_nil_r (spreadIf c k' v)). apply payloadGet_spreadIf. Qed.

Ltac payload_lookup :=
  cbn [app];
  repeat rewrite payloadGet_cons;
  repeat rewrite payloadGet_spreadIf;
  try rewrite payloadGet_spreadIf_last;
  cbn [String.eqb Ascii.eqb Bool.eqb andb].

(** X14. In the payload of every generation method, [seed] and
    [safety_tolerance] are present exactly when the caller supplied them and
    carry the supplied number, 0 included; [output_format] is present
    exactly when the caller supplied a non-empty string. *)
Theorem optional_properties_are_sent_as_given (m : GenerationMethod) (p : Params.t) :
  payloadGet "seed" (payloadOf m p) = option_map JNum (Params.seed p) /\
  payloadGet "safety_tolerance" (payloadOf m p)
    = option_map JNum (Params.safety_tolerance p) /\
  payloadGet "output_format" (payloadOf m p)
    = match Params.output_format p with
      | Some s => if Js.truthy s then Some (JStr s) else None
      | None => None
      end.
Proof.
  destruct m; cbn [payloadOf];
    unfold fluxDevPayload, fluxProPayload, fluxProUltraPayload, fluxProFillPayload,
      fluxProFillFinetunedPayload, fluxProExpandPayload, kontextPayload, flux2Payload;
    try destruct (defined (Params.prompt_upsampling p));
    (split; [|split]); payload_lookup;
    solve [ destruct (Params.seed p); reflexivity
          | destruct (Params.safety_tolerance p); reflexivity
          | destruct (Params.output_format p) as [s|]; cbn [Js.truthy_opt ofStr];
            [destruct (Js.truthy s)|]; reflexivity ].
Qed.

(** X15. FLUX.1 [dev] and FLUX 1.1 [pro] never send a zero size: [width]
    and [height] (for [dev] also [steps] and [guidance]) are always in the
    payload, with the supplied number when it is neither 0 nor [NaN] and
    with the default (1024, 768, 28, 3) when it is 0, [NaN] or missing.
    FLUX.2 has no such default: it sends [width] and [height] exactly when
    supplied, 0 included. *)
Theorem zero_sizes_fall_back_to_defaults (p : Params.t) :
  let sent (payload : Payload) (k : string) (given : option JsNumber) (d : Q) :=
    exists x, payloadGet k payload = Some (JNum x) /\
              x <> NaN /\ (forall q, x = Finite q -> ~ (q == 0)%Q) /\
              (truthy_num given = true -> given = Some x) /\
              (truthy_num given = false -> x = Finite d) in
  sent (fluxDevPayload p) "width" (Params.width p) 1024 /\
  sent (fluxDevPayload p) "height" (Params.height p) 768 /\
  sent (fluxDevPayload p) "steps" (Params.steps p) 28 /\
  sent (fluxDevPayload p) "guidance" (Params.guidance p) 3 /\
  sent (fluxProPayload p) "width" (Params.width p) 1024 /\
  sent (fluxProPayload p) "height" (Params.height p) 768 /\
  payloadGet "width" (flux2Payload p) = option_map JNum (Params.width p) /\
  payloadGet "height" (flux2Payload p) = option_map JNum (Params.height p).
Proof.
  assert (N : forall (o : option JsNumber) (d : Q), ~ (d == 0)%Q ->
            exists x, numOr o d = JNum x /\
                      x <> NaN /\ (forall q, x = Finite q -> ~ (q == 0)%Q) /\
                      (truthy_num o = true -> o = Some x) /\
                      (truthy_num o = false -> x = Finite d)).
  { intros o d Hd. unfold numOr. destruct (truthy_num o) eqn:E.
    - destruct o as [x|]; [|discriminate]. exists x. cbn [ofNum].
      repeat split; auto; [| |discriminate].
      + intros ->. discriminate E.
      + intros q -> Hq. apply Qeq_bool_iff in Hq. simpl in E. rewrite Hq in E.
        discriminate.
    - exists (Finite d). repeat split; auto; [discriminate | | discriminate].
      intros q [= <-]. exact Hd. }
  cbv zeta.
  unfold fluxDevPayload, fluxProPayload, flux2Payload.
  split; [|split; [|split; [|split; [|split; [|split; [|split]]]]]].
  1-6: payload_lookup;
    match goal with
    | |- exists x, Some (numOr ?o ?d) = _ /\ _ =>
        destruct (N o d) as (x & -> & H0 & H1 & H2 & H3); [discriminate|];
        exists x; repeat split; assumption
    end.
  all: destruct (defined (Params.prompt_upsampling p)); payload_lookup;
    solve [ destruct (Params.width p); reflexivity
          | destruct (Params.height p); reflexivity ].
Qed.

(** X16. A FLUX.2 payload always states [prompt_upsampling]: [true] unless
    the caller passed [false]. The FLUX.1 methods that take the option state
    it only when the caller did. *)
Theorem flux2_upsamples_unless_told_not_to (p : Params.t) :
  (forall m, m = Flux2Pro \/ m = Flux2Flex ->
     payloadGet "prompt_upsampling" (payloadOf m p)
       = Some (JBool (match Params.prompt_upsampling p with
                      | Some b => b
                      | None => true
                      end))) /\
  (forall m, In m [FluxDev; FluxPro; FluxProFill; FluxProFillFinetuned; FluxProExpand] ->
     payloadGet "prompt_upsampling" (payloadOf m p)
       = option_map JBool (Params.prompt_upsampling p)).
Proof.
  split.
  - intros m [-> | ->]; cbn [payloadOf]; unfold flux2Payload;
      destruct (Params.prompt_upsampling p); reflexivity.
  - intros m H. cbn [In] in H.
    destruct H as [<-|[<-|[<-|[<-|[<-|[]]]]]]; cbn [payloadOf];
      unfold fluxDevPayload, fluxProPayload, fluxProFillPayload,
        fluxProFillFinetunedPayload, fluxProExpandPayload;
      payload_lookup; destruct (Params.prompt_upsampling p); reflexivity.
Qed.

(** ** [promptToFilename] *)

Lemma allChars_removeOthers (s : string) :
  allChars (fun c => isLowerAlnum c || isSpace c || Ascii.eqb c "-") (removeOthers s) = true.
Proof.
  induction s as [|c s IH]; simpl; [reflexivity|].
  destruct (isLowerAlnum c || isSpace c || Ascii.eqb c "-") eqn:E; [|exact IH].
  simpl. rewrite E, IH. reflexivity.
Qed.

Lemma allChars_replaceRuns (P Q cls : ascii -> bool) (r : ascii) (s : string) :
  (forall c, P c = true -> cls c = false -> Q c = true) ->
  Q r = true ->
  allChars P s = true ->
  forall inRun, allChars Q (replaceRuns cls r inRun s) = true.
Proof.
  intros PQ Qr. induction s as [|c s IH]; intros H inRun; simpl in *; [reflexivity|].
  apply andb_true_iff in H. destruct H as [Hc Hs].
  destruct (cls c) eqn:E.
  - destruct inRun; simpl; [|rewrite Qr]; apply IH; exact Hs.
  - simpl. rewrite (PQ c Hc E). apply IH. exact Hs.
Qed.

Lemma allChars_stripLeading (P : ascii -> bool) (c : ascii) (s : string) :
  allChars P s = true -> allChars P (stripLeading c s) = true.
Proof.
  induction s as [|x s IH]; simpl; [reflexivity|]. intros H.
  destruct (Ascii.eqb x c); [|exact H].
  apply andb_true_iff in H. apply IH, H.
Qed.

Lemma allChars_stripTrailing (P : ascii -> bool) (c : ascii) (s : string) :
  allChars P s = true -> allChars P (stripTrailing c s) = true.
Proof.
  induction s as [|x s IH]; simpl; [reflexivity|]. intros H.
  apply andb_true_iff in H. destruct H as [Hx Hs]. specialize (IH Hs).
  destruct (stripTrailing c s) as [|y t].
  - destruct (Ascii.eqb x c); simpl; [reflexivity | now rewrite Hx].
  - change (allChars P (String x (String y t))) with (P x && allChars P (String y t)).
    rewrite Hx, IH. reflexivity.
Qed.

Lemma allChars_substring (P : ascii -> bool) (s : string) :
  allChars P s = true -> forall n m, allChars P (substring n m s) = true.
Proof.
  induction s as [|x s IH]; intros H n m; simpl in *.
  - destruct n, m; reflexivity.
  - apply andb_true_iff in H. destruct H as [Hx Hs].
    destruct n; [destruct m; simpl; [reflexivity | rewrite Hx; now apply IH] | now apply IH].
Qed.

Lemma allChars_sanitizePrompt (prompt : string) :
  allChars isFilenameChar (sanitizePrompt prompt) = true.
Proof.
  unfold sanitizePrompt.
  apply allChars_stripTrailing, allChars_stripLeading.
  apply (allChars_replaceRuns (fun c => isLowerAlnum c || Ascii.eqb c "-" || Ascii.eqb c "_")).
  - intros c H E. unfold isFilenameChar. rewrite E, orb_false_r in H. exact H.
  - reflexivity.
  - apply (allChars_replaceRuns (fun c => isLowerAlnum c || isSpace c || Ascii.eqb c "-")).
    + intros c H E. rewrite E, orb_false_r in H. rewrite H. reflexivity.
    + reflexivity.
    + apply allChars_removeOthers.
Qed.

Lemma length_substring_le (s : string) :
  forall n m, (String.length (substring n m s) <= m)%nat.
Proof.
  induction s as [|x s IH]; intros n m; simpl.
  - destruct n, m; simpl; lia.
  - destruct n; [destruct m; simpl; [lia | specialize (IH 0%nat m); lia] | apply IH].
Qed.

(** X17. [promptToFilename] never returns an empty name: the name is made
    of lower-case letters, digits and underscores only, and it is either
    the default "image" or at most [maxLength] characters long (50 when no
    limit is given). *)
Theorem promptToFilename_is_a_safe_name (prompt : string) (maxLength : option nat) :
  let name := promptToFilename prompt maxLength in
  let limit := match maxLength with Some m => m | None => 50%nat end in
  name <> "" /\
  allChars isFilenameChar name = true /\
  (name = "image" \/ (String.length name <= limit)%nat).
Proof.
  cbv zeta. unfold promptToFilename.
  set (limit := match maxLength with Some m => m | None => 50%nat end).
  set (cut := if (limit <? String.length (sanitizePrompt prompt))%nat
              then substring 0 limit (sanitizePrompt prompt)
              else sanitizePrompt prompt).
  assert (A : allChars isFilenameChar cut = true).
  { subst cut. destruct (limit <? _)%nat;
      [apply allChars_substring|]; apply allChars_sanitizePrompt. }
  assert (L : (String.length cut <= limit)%nat).
  { subst cut. destruct (Nat.ltb_spec limit (String.length (sanitizePrompt prompt)));
      [apply length_substring_le | assumption]. }
  destruct cut as [|c cut']; cbn [Js.truthy negb].
  - repeat split; [discriminate | left; reflexivity].
  - repeat split; [discriminate | exact A | right; exact L].
Qed.

Lemma firstChar_stripLeading (c : ascii) (s : string) :
  firstChar (stripLeading c s) <> Some c.
Proof.
  induction s as [|x s IH]; simpl; [discriminate|].
  destruct (Ascii.eqb_spec x c) as [|N]; [exact IH|].
  simpl. intros H. injection H as H. contradiction.
Qed.

Lemma firstChar_stripTrailing (c : ascii) (s : string) :
  stripTrailing c s = "" \/ firstChar (stripTrailing c s) = firstChar s.
Proof.
  destruct s as [|x s]; simpl; [left; reflexivity|].
  destruct (stripTrailing c s); [destruct (Ascii.eqb x c)|]; auto.
Qed.

Lemma lastChar_stripTrailing (c : ascii) (s : string) :
  lastChar (stripTrailing c s) <> Some c.
Proof.
  induction s as [|x s IH]; simpl; [discriminate|].
  destruct (stripTrailing c s) as [|y t].
  - destruct (Ascii.eqb_spec x c) as [|N]; simpl; [discriminate|].
    intros H. injection H as H. contradiction.
  - exact IH.
Qed.

Lemma firstChar_substring (s : string) (m : nat) :
  substring 0 m s = "" \/ firstChar (substring 0 m s) = firstChar s.
Proof. destruct s, m; simpl; auto. Qed.

Lemma substring_zero_short (s : string) (m : nat) :
  (String.length s <= m)%nat -> substring 0 m s = s.
Proof.
  revert m. induction s as [|x s IH]; intros m H; simpl in *.
  - destruct m; reflexivity.
  - destruct m; [lia|]. rewrite IH by lia. reflexivity.
Qed.

(** X18. The name that [promptToFilename] returns never starts with an
    underscore. It can end with one only where the cut at [maxLength] fell:
    then the name is exactly [maxLength] long and the sanitised prompt was
    longer. *)
Theorem promptToFilename_underscores_at_the_ends
    (prompt : string) (maxLength : option nat) :
  let name := promptToFilename prompt maxLength in
  let limit := match maxLength with Some m => m | None => 50%nat end in
  firstChar name <> Some "_"%char /\
  (lastChar name = Some "_"%char ->
   String.length name = limit /\ (limit < String.length (sanitizePrompt prompt))%nat).
Proof.
  cbv zeta. unfold promptToFilename.
  set (limit := match maxLength with Some m => m | None => 50%nat end).
  assert (F : firstChar (sanitizePrompt prompt) <> Some "_"%char).
  { unfold sanitizePrompt.
    destruct (firstChar_stripTrailing "_"
                (stripLeading "_"
                   (replaceRuns (fun c => Ascii.eqb c "-") "_" false
                      (replaceRuns isSpace "_" false
                         (removeOthers (Js.toLowerCase prompt)))))) as [-> | ->];
      [discriminate | apply firstChar_stripLeading]. }
  assert (T : lastChar (sanitizePrompt prompt) <> Some "_"%char)
    by apply lastChar_stripTrailing.
  split.
  - destruct (limit <? String.length (sanitizePrompt prompt))%nat.
    + destruct (firstChar_substring (sanitizePrompt prompt) limit) as [E | E].
      * rewrite E. discriminate.
      * destruct (substring 0 limit (sanitizePrompt prompt)) eqn:S;
          [discriminate|]. cbn [Js.truthy negb]. rewrite E. exact F.
    + destruct (sanitizePrompt prompt); [discriminate | exact F].
  - destruct (Nat.ltb_spec limit (String.length (sanitizePrompt prompt))) as [Lt|Ge].
    + destruct (substring 0 limit (sanitizePrompt prompt)) eqn:S;
        cbn [Js.truthy negb]; [discriminate|].
      intros _. split; [|exact Lt]. rewrite <- S. apply length_substring.
      simpl. lia.
    + destruct (sanitizePrompt prompt) eqn:S; cbn [Js.truthy negb]; [discriminate|].
      intros H. contradiction.
Qed.

Lemma promptToFilename_underscores_at_the_ends_witness :
  lastChar (promptToFilename "one two" (Some 4%nat)) = Some "_"%char /\
  String.length (promptToFilename "one two" (Some 4%nat)) = 4%nat.
Proof.
  split; [reflexivity|].
  apply (promptToFilename_underscores_at_the_ends "one two" (Some 4%nat)).
  reflexivity.
Defined.

Lemma removeOthers_app (a b : string) :
  removeOthers (a ++ b) = removeOthers a ++ removeOthers b.
Proof.
  induction a as [|x a IH]; simpl; [reflexivity|].
  destruct (isLowerAlnum x || isSpace x || Ascii.eqb x "-"); simpl; now rewrite IH.
Qed.

Lemma lower_upper_ascii (c : ascii) :
  Js.lower_ascii (Js.upper_ascii c) = Js.lower_ascii c.
Proof. destruct c as [[] [] [] [] [] [] [] []]; reflexivity. Qed.

Lemma toLowerCase_toUpperCase (s : string) :
  Js.toLowerCase (Js.toUpperCase s) = Js.toLowerCase s.
Proof.
  induction s as [|x s IH]; simpl; [reflexivity|].
  now rewrite lower_upper_ascii, IH.
Qed.

(** X19. A character that is not a letter, a digit, white space or a dash
    (an underscore, for one) leaves no mark in the name: the prompt with the
    character and the prompt without it give the same name. Nor does the
    letter case of a prompt of ASCII characters: such a prompt in upper case
    gives the same name. *)
Theorem promptToFilename_ignores_case_and_punctuation
    (before after : string) (c : ascii) (maxLength : option nat) :
  (isLowerAlnum (Js.lower_ascii c) || isSpace (Js.lower_ascii c)
   || Ascii.eqb (Js.lower_ascii c) "-") = false ->
  promptToFilename (before ++ String c after) maxLength
    = promptToFilename (before ++ after) maxLength /\
  (allChars isAscii (before ++ after) = true ->
   promptToFilename (Js.toUpperCase (before ++ after)) maxLength
     = promptToFilename (before ++ after) maxLength).
Proof.
  intros H. unfold promptToFilename, sanitizePrompt.
  rewrite toLowerCase_toUpperCase, !toLowerCase_app, !removeOthers_app.
  cbn [Js.toLowerCase removeOthers]. rewrite H. split; [|intros _]; reflexivity.
Qed.

Lemma promptToFilename_ignores_case_and_punctuation_witness :
  promptToFilename "my_file" None = promptToFilename "myfile" None /\
  promptToFilename "MYFILE" None = promptToFilename "myfile" None.
Proof.
  destruct (promptToFilename_ignores_case_and_punctuation "my" "file" "_"%char None
              eq_refl) as [P C].
  split; [exact P | exact (C eq_refl)].
Defined.

(** Words and the runs between them. *)

Lemma replaceRuns_word (cls : ascii -> bool) (r : ascii) (a s : string) (inRun : bool) :
  allChars (fun c => negb (cls c)) a = true ->
  replaceRuns cls r inRun (a ++ s)
    = a ++ replaceRuns cls r (match a with EmptyString => inRun | _ => false end) s.
Proof.
  revert inRun. induction a as [|x a IH]; intros inRun H; simpl in *; [reflexivity|].
  apply andb_true_iff in H. destruct H as [Hx Ha]. apply negb_true_iff in Hx.
  rewrite Hx, (IH false Ha). destruct a; reflexivity.
Qed.

Lemma replaceRuns_run (cls : ascii -> bool) (r : ascii) (l s : string) :
  allChars cls l = true ->
  replaceRuns cls r true (l ++ s) = replaceRuns cls r true s /\
  replaceRuns cls r false (l ++ s)
    = match l with
      | EmptyString => replaceRuns cls r false s
      | _ => String r (replaceRuns cls r true s)
      end.
Proof.
  intros H.
  assert (T : forall l, allChars cls l = true ->
              replaceRuns cls r true (l ++ s) = replaceRuns cls r true s).
  { clear. induction l as [|x l IH]; intros H; simpl in *; [reflexivity|].
    apply andb_true_iff in H. destruct H as [Hx Hl]. rewrite Hx. apply IH, Hl. }
  split; [apply T, H|].
  destruct l as [|x l]; [reflexivity|]. simpl in *.
  apply andb_true_iff in H. destruct H as [Hx Hl]. rewrite Hx, (T l Hl). reflexivity.
Qed.

Lemma toLowerCase_fixed (P : ascii -> bool) (s : string) :
  (forall c, P c = true -> Js.lower_ascii c = c) ->
  allChars P s = true -> Js.toLowerCase s = s.
Proof.
  intros F. induction s as [|x s IH]; simpl; [reflexivity|]. intros H.
  apply andb_true_iff in H. destruct H as [Hx Hs]. now rewrite (F x Hx), IH.
Qed.

Lemma removeOthers_fixed (s : string) :
  allChars (fun c => isLowerAlnum c || isSpace c || Ascii.eqb c "-") s = true ->
  removeOthers s = s.
Proof.
  induction s as [|x s IH]; simpl; [reflexivity|]. intros H.
  apply andb_true_iff in H. destruct H as [Hx Hs]. now rewrite Hx, IH.
Qed.

Lemma lower_ascii_space (c : ascii) : isSpace c = true -> Js.lower_ascii c = c.
Proof. destruct c as [[] [] [] [] [] [] [] []]; intros H; first [reflexivity | discriminate H]. Qed.

Lemma lower_ascii_idem (c : ascii) : Js.lower_ascii (Js.lower_ascii c) = Js.lower_ascii c.
Proof. destruct c as [[] [] [] [] [] [] [] []]; reflexivity. Qed.

Lemma isLowerAlnum_class (c : ascii) :
  isLowerAlnum c = true ->
  isSpace c = false /\ Ascii.eqb c "-" = false /\ Ascii.eqb c "_" = false.
Proof.
  destruct c as [[] [] [] [] [] [] [] []]; intros H;
    first [discriminate H | repeat split].
Qed.

Lemma isSpace_class (c : ascii) :
  isSpace c = true -> Ascii.eqb c "-" = false.
Proof.
  destruct c as [[] [] [] [] [] [] [] []]; intros H;
    first [discriminate H | reflexivity].
Qed.

Lemma stripTrailing_snoc (c : ascii) (y : string) :
  stripTrailing c (y ++ String c "") = stripTrailing c y.
Proof.
  induction y as [|x y IH]; simpl.
  - rewrite Ascii.eqb_refl. reflexivity.
  - rewrite IH. reflexivity.
Qed.

Lemma stripTrailing_fixed (c x : ascii) (y : string) :
  lastChar y = Some x -> x <> c -> stripTrailing c y = y.
Proof.
  intros L N. induction y as [|z y IH]; [discriminate|].
  destruct y as [|z' y'].
  - simpl in *. injection L as ->.
    destruct (Ascii.eqb_spec x c); [contradiction | reflexivity].
  - change (lastChar (String z (String z' y'))) with (lastChar (String z' y')) in L.
    specialize (IH L).
    change (stripTrailing c (String z (String z' y')))
      with (match stripTrailing c (String z' y') with
            | EmptyString => if Ascii.eqb z c then EmptyString else String z EmptyString
            | t => String z t
            end).
    rewrite IH. reflexivity.
Qed.

Lemma lastChar_app (a b : string) :
  b <> "" -> lastChar (a ++ b) = lastChar b.
Proof.
  intros N. induction a as [|x a IH]; [reflexivity|].
  simpl. destruct (a ++ b) eqn:E; [|exact IH].
  destruct a; simpl in E; [contradiction | discriminate].
Qed.

Lemma lastChar_allChars (P : ascii -> bool) (b : string) :
  b <> "" -> allChars P b = true -> exists x, lastChar b = Some x /\ P x = true.
Proof.
  induction b as [|x b IH]; intros N H; [contradiction|].
  simpl in H. apply andb_true_iff in H. destruct H as [Hx Hb].
  destruct b as [|y b'].
  - exists x. auto.
  - destruct IH as (z & L & Pz); [discriminate | exact Hb |].
    exists z. auto.
Qed.

Lemma append_nil_r (s : string) : s ++ "" = s.
Proof. induction s as [|x s IH]; simpl; [reflexivity | now rewrite IH]. Qed.

(** X20. Two words of letters and digits, separated by any white space and
    surrounded by any, give the two words in lower case joined by one
    underscore, when that fits within [maxLength]. *)
Theorem promptToFilename_joins_words
    (lead a sep b trail : string) (maxLength : option nat) :
  let limit := match maxLength with Some m => m | None => 50%nat end in
  allChars isSpace lead = true ->
  allChars isSpace sep = true ->
  allChars isSpace trail = true ->
  allChars isLowerAlnum (Js.toLowerCase a) = true ->
  allChars isLowerAlnum (Js.toLowerCase b) = true ->
  a <> "" -> sep <> "" -> b <> "" ->
  (String.length a + 1 + String.length b <= limit)%nat ->
  promptToFilename (lead ++ a ++ sep ++ b ++ trail) maxLength
    = Js.toLowerCase a ++ "_" ++ Js.toLowerCase b.
Proof.
  intros limit Hl Hs Ht Ha Hb Na Ns Nb Len.
  set (a' := Js.toLowerCase a) in *. set (b' := Js.toLowerCase b) in *.
  assert (Na' : a' <> "") by (subst a'; destruct a; [contradiction | discriminate]).
  assert (Nb' : b' <> "") by (subst b'; destruct b; [contradiction | discriminate]).
  assert (S : sanitizePrompt (lead ++ a ++ sep ++ b ++ trail) = a' ++ "_" ++ b').
  { unfold sanitizePrompt.
    rewrite !toLowerCase_app. fold a' b'.
    rewrite (toLowerCase_fixed isSpace lead lower_ascii_space Hl),
            (toLowerCase_fixed isSpace sep lower_ascii_space Hs),
            (toLowerCase_fixed isSpace trail lower_ascii_space Ht).
    assert (KS : forall s, allChars isSpace s = true ->
                 allChars (fun c => isLowerAlnum c || isSpace c || Ascii.eqb c "-") s = true).
    { intros s H. apply (allChars_impl isSpace); [|exact H].
      intros c Hc. rewrite Hc, orb_true_r. reflexivity. }
    assert (KA : forall s, allChars isLowerAlnum s = true ->
                 allChars (fun c => isLowerAlnum c || isSpace c || Ascii.eqb c "-") s = true).
    { intros s H. apply (allChars_impl isLowerAlnum); [|exact H].
      intros c Hc. rewrite Hc. reflexivity. }
    rewrite removeOthers_fixed
      by (rewrite !allChars_app, (KS lead Hl), (KS sep Hs), (KS trail Ht),
            (KA a' Ha), (KA b' Hb); reflexivity).
    (* the runs of white space *)
    assert (Wa : allChars (fun c => negb (isSpace c)) a' = true).
    { apply (allChars_impl isLowerAlnum); [|exact Ha].
      intros c Hc. apply isLowerAlnum_class in Hc. destruct Hc as (-> & _). reflexivity. }
    assert (Wb : allChars (fun c => negb (isSpace c)) b' = true).
    { apply (allChars_impl isLowerAlnum); [|exact Hb].
      intros c Hc. apply isLowerAlnum_class in Hc. destruct Hc as (-> & _). reflexivity. }
    assert (R1 : replaceRuns isSpace "_" false (lead ++ a' ++ sep ++ b' ++ trail)
                 = (match lead with EmptyString => "" | _ => "_" end)
                   ++ a' ++ "_" ++ b'
                   ++ (match trail with EmptyString => "" | _ => "_" end)).
    { assert (Rb : forall inRun, replaceRuns isSpace "_" inRun (b' ++ trail)
                     = b' ++ match trail with EmptyString => "" | _ => "_" end).
      { intros inRun. rewrite (replaceRuns_word isSpace "_" b' trail inRun Wb).
        destruct b' as [|? ?]; [contradiction|].
        rewrite <- (append_nil_r trail) at 1.
        destruct (replaceRuns_run isSpace "_" trail "" Ht) as (_ & ->).
        destruct trail; reflexivity. }
      assert (Rs : replaceRuns isSpace "_" false (sep ++ b' ++ trail)
                   = "_" ++ b' ++ match trail with EmptyString => "" | _ => "_" end).
      { destruct (replaceRuns_run isSpace "_" sep (b' ++ trail) Hs) as (_ & ->).
        destruct sep; [contradiction|]. rewrite Rb. reflexivity. }
      assert (Ra : forall inRun, replaceRuns isSpace "_" inRun (a' ++ sep ++ b' ++ trail)
                     = a' ++ "_" ++ b' ++ match trail with EmptyString => "" | _ => "_" end).
      { intros inRun. rewrite (replaceRuns_word isSpace "_" a' _ inRun Wa).
        destruct a' as [|? ?]; [contradiction|]. rewrite Rs. reflexivity. }
      destruct (replaceRuns_run isSpace "_" lead (a' ++ sep ++ b' ++ trail) Hl) as (_ & ->).
      destruct lead; rewrite Ra; reflexivity. }
    rewrite R1.
    (* no dash is left *)
    assert (D : forall u v : string,
              allChars (fun c => negb (Ascii.eqb c "-")) (u ++ a' ++ "_" ++ b' ++ v) = true ->
              replaceRuns (fun c => Ascii.eqb c "-") "_" false (u ++ a' ++ "_" ++ b' ++ v)
                = u ++ a' ++ "_" ++ b' ++ v).
    { intros u v H.
      rewrite <- (append_nil_r (u ++ a' ++ "_" ++ b' ++ v)) at 1.
      rewrite (replaceRuns_word _ "_" _ "" false H). simpl.
      apply append_nil_r. }
    rewrite D.
    2:{ rewrite !allChars_app.
        assert (Da : allChars (fun c => negb (Ascii.eqb c "-")) a' = true).
        { apply (allChars_impl isLowerAlnum); [|exact Ha].
          intros c Hc. apply isLowerAlnum_class in Hc. destruct Hc as (_ & -> & _).
          reflexivity. }
        assert (Db : allChars (fun c => negb (Ascii.eqb c "-")) b' = true).
        { apply (allChars_impl isLowerAlnum); [|exact Hb].
          intros c Hc. apply isLowerAlnum_class in Hc. destruct Hc as (_ & -> & _).
          reflexivity. }
        rewrite Da, Db. destruct lead, trail; reflexivity. }
    (* the underscores at the ends *)
    assert (SL : stripLeading "_" ((match lead with EmptyString => "" | _ => "_" end)
                                   ++ a' ++ "_" ++ b'
                                   ++ (match trail with EmptyString => "" | _ => "_" end))
                 = a' ++ "_" ++ b' ++ (match trail with EmptyString => "" | _ => "_" end)).
    { destruct a' as [|x a'']; [contradiction|].
      simpl in Ha. apply andb_true_iff in Ha. destruct Ha as [Hx _].
      apply isLowerAlnum_class in Hx. destruct Hx as (_ & _ & Hx).
      destruct lead; simpl; rewrite Hx; reflexivity. }
    rewrite SL.
    destruct (lastChar_allChars isLowerAlnum b' Nb' Hb) as (x & Lx & Px).
    assert (Nx : x <> "_"%char).
    { intros ->. discriminate Px. }
    assert (ST : stripTrailing "_" (a' ++ "_" ++ b') = a' ++ "_" ++ b').
    { apply (stripTrailing_fixed "_" x); [|exact Nx].
      rewrite lastChar_app by (destruct b'; [contradiction | discriminate]).
      rewrite lastChar_app by exact Nb'. exact Lx. }
    destruct trail.
    - rewrite append_nil_r. exact ST.
    - replace (a' ++ "_" ++ b' ++ "_") with ((a' ++ "_" ++ b') ++ "_")
        by (rewrite !append_assoc; reflexivity).
      rewrite stripTrailing_snoc. exact ST. }
  unfold promptToFilename. fold limit. rewrite S.
  assert (L : String.length (a' ++ "_" ++ b') = (String.length a + 1 + String.length b)%nat).
  { rewrite !length_app. subst a' b'. rewrite !toLowerCase_length. simpl. lia. }
  rewrite L. destruct (Nat.ltb_spec limit (String.length a + 1 + String.length b)); [lia|].
  destruct a'; [contradiction | reflexivity].
Qed.

Lemma promptToFilename_joins_words_witness :
  promptToFilename "  Red   Fox " None = "red_fox".
Proof.
  apply (promptToFilename_joins_words "  " "Red" "   " "Fox" " " None);
    first [reflexivity | discriminate | simpl; lia].
Defined.

(** ** Instances and keys *)

(** X21. Every instance that the constructor builds has a non-empty key and
    a base URL that is empty or starts with [https://]; the key is the
    option [apiKey] when that is a non-empty string and the environment
    variable otherwise. Building it issues no request. On such an instance
    [_verifyApiKey] never throws. *)
Theorem constructed_instance_invariant
    (env : Env) (opts : BflApiOptions) (w w' : World) (api : BflAPI) :
  BflAPI_constructor env opts w = (Val api, w') ->
  Js.truthy (apiKey api) = true /\
  (baseUrl api = "" \/ Js.startsWith (baseUrl api) "https://" = true) /\
  Some (apiKey api) = Js.or_else (opt_apiKey opts) (env_BFL_API_KEY env) /\
  trace w' = trace w /\ axios_calls w' = axios_calls w /\
  (forall w2, _verifyApiKey api w2 = (Val tt, w2)).
Proof.
  unfold BflAPI_constructor. intros H.
  set (url := match opt_baseUrl opts with Some u => u | None => BASE_URL end) in *.
  destruct (Js.truthy url && negb (Js.startsWith url "https://")) eqn:U;
    [discriminate H|].
  assert (HU : url = "" \/ Js.startsWith url "https://" = true).
  { destruct url as [|c u]; [left; reflexivity|]. right.
    cbn [Js.truthy andb] in U. apply negb_false_iff in U. exact U. }
  unfold bind at 1 in H. unfold Js.or_else.
  destruct (Js.truthy_opt (opt_apiKey opts)) eqn:K.
  - destruct (opt_apiKey opts) as [k|]; [|discriminate K].
    run_monad. injection H as <- <-. cbn [apiKey baseUrl trace axios_calls].
    assert (T : Js.truthy k = true) by exact K.
    repeat split; auto. intros w2. unfold _verifyApiKey. cbn [apiKey]. rewrite T.
    reflexivity.
  - unfold getBflApiKey, Js.or_else in H. cbn [Js.truthy_opt] in H.
    destruct (env_BFL_API_KEY env) as [k|]; [|run_monad; discriminate H].
    destruct (Js.truthy k) eqn:T; run_monad; [|discriminate H].
    injection H as <- <-. cbn [apiKey baseUrl trace axios_calls].
    repeat split; auto. intros w2. unfold _verifyApiKey. cbn [apiKey]. rewrite T.
    reflexivity.
Qed.

Lemma constructed_instance_invariant_witness :
  let env := mkEnv Fixture.frozenClock (fun _ _ => inl Fixture.readyTask) false
               (Some "key_from_environment") (fun _ => "") in
  let opts := mkBflApiOptions (Some "") None None in
  let api := mkBflAPI "key_from_environment" "https://api.bfl.ai" in
  fst (BflAPI_constructor env opts world0) = Val api /\
  Js.truthy (apiKey api) = true /\
  (baseUrl api = "" \/ Js.startsWith (baseUrl api) "https://" = true) /\
  Some (apiKey api) = Js.or_else (opt_apiKey opts) (env_BFL_API_KEY env) /\
  (forall w2, _verifyApiKey api w2 = (Val tt, w2)).
Proof.
  intros env opts api. split; [reflexivity|].
  destruct (constructed_instance_invariant env opts world0
              (snd (BflAPI_constructor env opts world0)) api eq_refl)
    as (T & U & K & _ & _ & V).
  repeat split; assumption.
Defined.

(** X22. [getBflApiKey] never returns an empty key and never touches the
    world. It returns the CLI key when that is a non-empty string, else the
    environment variable when that is one; it throws the "BFL_API_KEY not
    found" error exactly when neither is. *)
Theorem getBflApiKey_resolution
    (env : Env) (cliApiKey : option string) (w w' : World) (r : Res string) :
  getBflApiKey env cliApiKey w = (r, w') ->
  w' = w /\
  match r with
  | Val k =>
      Js.truthy k = true /\
      (Js.truthy_opt cliApiKey = true -> cliApiKey = Some k) /\
      (Js.truthy_opt cliApiKey = false -> env_BFL_API_KEY env = Some k)
  | Throw e =>
      e = Error apiKeyNotFoundMessage /\
      Js.truthy_opt cliApiKey = false /\ Js.truthy_opt (env_BFL_API_KEY env) = false
  end.
Proof.
  unfold getBflApiKey, Js.or_else. intros H.
  destruct (Js.truthy_opt cliApiKey) eqn:C.
  - destruct cliApiKey as [k|]; [|discriminate C]. cbn [Js.truthy_opt] in C.
    rewrite C in H. injection H as <- <-.
    repeat split; [exact C | discriminate].
  - destruct (env_BFL_API_KEY env) as [k|].
    + destruct (Js.truthy k) eqn:T; injection H as <- <-.
      * repeat split; [exact T | discriminate].
      * repeat split. exact T.
    + injection H as <- <-. repeat split.
Qed.

Lemma getBflApiKey_resolution_witness :
  let env := mkEnv Fixture.frozenClock (fun _ _ => inl Fixture.readyTask) false
               (Some "key_from_environment") (fun _ => "") in
  fst (getBflApiKey env (Some "key_from_flag") world0) = Val "key_from_flag" /\
  snd (getBflApiKey env (Some "key_from_flag") world0) = world0.
Proof.
  intros env. split; [reflexivity|].
  apply (getBflApiKey_resolution env (Some "key_from_flag") world0 _ _
           (surjective_pairing _)).
Defined.

(** X23. When the base URL passes the HTTPS check and neither the option
    [apiKey] nor the environment variable is a non-empty string, the
    constructor throws the "BFL_API_KEY not found" error: no instance is
    built and nothing is logged or requested. *)
Theorem constructor_without_key_fails
    (env : Env) (opts : BflApiOptions) (w : World) :
  let url := match opt_baseUrl opts with Some u => u | None => BASE_URL end in
  url = "" \/ Js.startsWith url "https://" = true ->
  Js.truthy_opt (opt_apiKey opts) = false ->
  Js.truthy_opt (env_BFL_API_KEY env) = false ->
  BflAPI_constructor env opts w = (Throw (Error apiKeyNotFoundMessage), w).
Proof.
  intros url U K E. unfold BflAPI_constructor. fold url.
  assert (C : Js.truthy url && negb (Js.startsWith url "https://") = false).
  { destruct U as [-> | ->]; [reflexivity | apply andb_false_r]. }
  rewrite C, K. unfold bind at 1. unfold getBflApiKey, Js.or_else.
  cbn [Js.truthy_opt].
  destruct (env_BFL_API_KEY env) as [k|]; [|reflexivity].
  cbn [Js.truthy_opt] in E. rewrite E. reflexivity.
Qed.

Lemma constructor_without_key_fails_witness :
  BflAPI_constructor
    (mkEnv Fixture.frozenClock (fun _ _ => inl Fixture.readyTask) false (Some "")
       (fun _ => ""))
    (mkBflApiOptions None None None) world0
  = (Throw (Error apiKeyNotFoundMessage), world0).
Proof.
  apply (constructor_without_key_fails
           (mkEnv Fixture.frozenClock (fun _ _ => inl Fixture.readyTask) false (Some "")
              (fun _ => ""))
           (mkBflApiOptions None None None) world0).
  - right. reflexivity.
  - reflexivity.
  - reflexivity.
Defined.

(** ** [validateModelParams] *)

Lemma outOfRange_false (v : JsNumber) (c : Constraints.Range) :
  outOfRange v c = false <->
  v = NaN \/ exists q, v = Finite q /\ (Constraints.min c <= q /\ q <= Constraints.max c)%Q.
Proof.
  unfold outOfRange. destruct v as [q| | |]; cbn [ltNum gtNum orb].
  - unfold Qltb. rewrite orb_false_iff, !negb_false_iff, !Qle_bool_iff. split.
    + intros H. right. exists q. split; [reflexivity | exact H].
    + intros [H | (q' & [= <-] & H)]; [discriminate H | exact H].
  - split; [intros _; left; reflexivity | reflexivity].
  - split; [discriminate | intros [H | (q' & H & _)]; discriminate H].
  - split; [discriminate | intros [H | (q' & H & _)]; discriminate H].
Qed.

Lemma remIsZero_true (x : Q) (d : Z) :
  remIsZero x d = true <-> d <> 0%Z /\ exists k, (x == inject_Z (k * d))%Q.
Proof.
  unfold remIsZero. rewrite andb_true_iff, negb_true_iff, Z.eqb_neq, Z.eqb_eq.
  split; intros [Hd H]; (split; [exact Hd|]).
  - apply Z.rem_divide in H; [|lia]. destruct H as [k H]. exists k.
    unfold Qeq. simpl. rewrite H. ring.
  - destruct H as [k H]. unfold Qeq in H. simpl in H.
    apply Z.rem_divide; [lia|]. exists k. lia.
Qed.

Section Checks.
Variables (env : Env) (model : string).

Lemma rangeCheck_nil (label : string) (x : option JsNumber) (r : option Constraints.Range) :
  rangeCheck env model label x r = [] <-> inRange x r.
Proof.
  unfold rangeCheck, inRange. destruct x as [v|], r as [c|];
    try (split; [intros _ ? ? ? ?; discriminate | reflexivity]).
  destruct (outOfRange v c) eqn:E.
  - split; [discriminate|]. intros H. specialize (H v c eq_refl eq_refl).
    apply outOfRange_false in H. congruence.
  - split; [|reflexivity]. intros _ v' c' [= <-] [= <-]. apply outOfRange_false, E.
Qed.

Lemma sizeCheck_nil (label : string) (x : option JsNumber) (r : option Constraints.Range) :
  sizeCheck env model label x r = [] <-> inRange x r /\ multipleOfDivisor x r.
Proof.
  unfold sizeCheck, inRange, multipleOfDivisor. destruct x as [v|], r as [c|];
    try (split; [intros _; split; intros ? ? ? ?; discriminate | reflexivity]).
  split.
  - intros H. apply app_eq_nil in H. destruct H as [H1 H2].
    destruct (outOfRange v c) eqn:E; [discriminate H1|].
    destruct (notDivisible v (Constraints.divisibleBy c)) eqn:D; [discriminate H2|].
    split; intros v' c' [= <-] [= <-]; [apply outOfRange_false, E|].
    unfold notDivisible in D. destruct v as [q| | |]; try discriminate D.
    destruct (Constraints.divisibleBy c) as [d|]; [|discriminate].
    apply negb_false_iff, remIsZero_true in D. destruct D as (Hd & k & Hk).
    exists q, d, k. auto.
  - intros [H1 H2]. specialize (H1 v c eq_refl eq_refl).
    destruct (H2 v c eq_refl eq_refl) as (q & d & k & -> & Hd & Nd & Hk).
    apply outOfRange_false in H1. rewrite H1, Hd. unfold notDivisible.
    assert (R : remIsZero q d = true) by (apply remIsZero_true; eauto).
    rewrite R. reflexivity.
Qed.

Lemma listCheck_nil (name plural : string) (x : option string) (l : option (list string)) :
  listCheck model name plural x l = [] <-> oneOf x l.
Proof.
  unfold listCheck, oneOf. destruct x as [s|], l as [allowed|];
    try (split; [intros _ ? ? ? ? ?; discriminate | reflexivity]).
  assert (I : existsb (String.eqb s) allowed = true <-> In s allowed).
  { rewrite existsb_exists. split.
    - intros (y & Hy & E). apply String.eqb_eq in E. now subst.
    - intros H. exists s. split; [exact H | apply String.eqb_refl]. }
  destruct s as [|a s']; cbn [Js.truthy andb].
  - split; [|reflexivity]. intros _ s0 al [= <-] N. contradiction.
  - destruct (existsb (String.eqb (String a s')) allowed) eqn:E; cbn [negb].
    + split; [|reflexivity]. intros _ s0 al [= <-] _ [= <-]. apply I. reflexivity.
    + split; [discriminate|]. intros H.
      assert (In (String a s') allowed) by (apply (H _ _ eq_refl); [discriminate | reflexivity]).
      apply I in H0. discriminate.
Qed.

Lemma promptCheck_nil (p : Params.t) (c : Constraints.t) :
  promptCheck model p c = [] <->
  promptFits (Params.prompt p) (Constraints.promptMaxLength c).
Proof.
  unfold promptCheck, promptFits.
  destruct (Params.prompt p) as [s|], (Constraints.promptMaxLength c) as [n|];
    try (split; [intros _ ? ? ? ? ?; discriminate | reflexivity]).
  destruct s as [|a s']; cbn [Js.truthy andb].
  - split; [|reflexivity]. intros _ s0 m [= <-] N. contradiction.
  - destruct (Z.ltb_spec n (Z.of_nat (String.length (String a s')))).
    + split; [discriminate|]. intros H'.
      assert ((Z.of_nat (String.length (String a s')) <= n)%Z)
        by (apply (H' _ _ eq_refl); [discriminate | reflexivity]).
      lia.
    + split; [|reflexivity]. intros _ s0 m [= <-] _ [= <-]. exact H.
Qed.

End Checks.

Lemma spreadKey_length {A : Type} (k : string) (x : option A) :
  (List.length (spreadKey k x) <= 1)%nat.
Proof. destruct x; simpl; lia. Qed.

Lemma imageKeys_length (p : Params.t) : (List.length (imageKeys p) <= 8)%nat.
Proof.
  unfold imageKeys. rewrite !List.length_app.
  pose proof (spreadKey_length "input_image" (Params.input_image p)).
  pose proof (spreadKey_length "input_image_2" (Params.input_image_2 p)).
  pose proof (spreadKey_length "input_image_3" (Params.input_image_3 p)).
  pose proof (spreadKey_length "input_image_4" (Params.input_image_4 p)).
  pose proof (spreadKey_length "input_image_5" (Params.input_image_5 p)).
  pose proof (spreadKey_length "input_image_6" (Params.input_image_6 p)).
  pose proof (spreadKey_length "input_image_7" (Params.input_image_7 p)).
  pose proof (spreadKey_length "input_image_8" (Params.input_image_8 p)).
  lia.
Qed.

(** What the table holds for [raw] and [maxInputImages]. *)
Lemma table_raw_and_images (model : string) (c : Constraints.t) :
  MODEL_CONSTRAINTS model = Some c ->
  (Constraints.raw c = None \/ Constraints.raw c = Some [true; false]) /\
  (Constraints.maxInputImages c = None \/ Constraints.maxInputImages c = Some 8%Z).
Proof.
  unfold MODEL_CONSTRAINTS.
  repeat match goal with
         | |- (if ?b then _ else _) = _ -> _ =>
             destruct b; [intros [= <-]; cbn; auto|]
         end.
  discriminate.
Qed.

Lemma rawCheck_nil (model : string) (p : Params.t) (c : Constraints.t) :
  MODEL_CONSTRAINTS model = Some c -> rawCheck model p c = [].
Proof.
  intros H. destruct (table_raw_and_images model c H) as ([R|R] & _);
    unfold rawCheck; rewrite R; destruct (Params.raw p) as [[]|]; reflexivity.
Qed.

Lemma inputImagesCheck_nil (model : string) (p : Params.t) (c : Constraints.t) :
  MODEL_CONSTRAINTS model = Some c -> inputImagesCheck model p c = [].
Proof.
  intros H. destruct (table_raw_and_images model c H) as (_ & [R|R]);
    unfold inputImagesCheck; rewrite R; [reflexivity|].
  pose proof (imageKeys_length p).
  destruct (Z.ltb_spec 8 (Z.of_nat (List.length (imageKeys p)))); [lia | reflexivity].
Qed.

Lemma app_nil_iff {A : Type} (l l' : list A) :
  (l ++ l')%list = [] <-> l = [] /\ l' = [].
Proof.
  split; [apply app_eq_nil | intros [-> ->]; reflexivity].
Qed.

Lemma length_zero_nil {A : Type} (l : list A) : (List.length l =? 0)%nat = true <-> l = [].
Proof. destruct l; simpl; split; congruence. Qed.

Lemma valid_accepts (env : Env) (model : string) (p : Params.t) (c : Constraints.t) :
  MODEL_CONSTRAINTS model = Some c ->
  (valid (validateModelParams env model p) = true <-> accepts c p).
Proof.
  intros H. unfold validateModelParams. rewrite H. cbn [valid].
  rewrite length_zero_nil. unfold collectedErrors, accepts.
  rewrite (rawCheck_nil model p c H), (inputImagesCheck_nil model p c H).
  rewrite app_nil_r. cbn [app].
  rewrite !app_nil_iff.
  rewrite promptCheck_nil, !sizeCheck_nil, !rangeCheck_nil, !listCheck_nil.
  tauto.
Qed.

(** X24. For a name that [MODEL_CONSTRAINTS] knows, [validateModelParams]
    answers [valid: true] exactly when the parameters satisfy the model's
    constraints: every supplied number is [NaN] or within the range the
    model has for it (the comparisons [x < min] and [x > max] are both false
    for [NaN]; an infinity is out of range), a supplied width or height is
    a finite integer multiple of its divisor, a supplied non-empty aspect
    ratio or output format is in the model's list, a non-empty prompt is
    within the maximum length. A parameter the model has no constraint for
    is not checked. And [valid] is [true] exactly when [errors] is empty. *)
Theorem valid_exactly_when_constraints_hold
    (env : Env) (model : string) (p : Params.t) (c : Constraints.t) :
  MODEL_CONSTRAINTS model = Some c ->
  (valid (validateModelParams env model p) = true <-> accepts c p) /\
  (valid (validateModelParams env model p) = true <->
   errors (validateModelParams env model p) = []).
Proof.
  intros H. split; [apply valid_accepts, H|].
  unfold validateModelParams. rewrite H. cbn [valid errors]. apply length_zero_nil.
Qed.

Lemma valid_exactly_when_constraints_hold_witness :
  let env := mkEnv Fixture.frozenClock (fun _ _ => inl Fixture.readyTask) false None
               (fun _ => "") in
  let p := Params.mk (Some "a fox") None (Some NaN) (Some "png") (Some (Finite 1024))
             (Some (Finite 768))
             None None None None None None None None None None None None None None None
             None None None None None None None None in
  valid (validateModelParams env "flux-2-pro" p) = true /\
  inRange (Params.safety_tolerance p) (range 0 5) /\
  multipleOfDivisor (Params.width p) (size 64 2048 16).
Proof.
  intros env p. split; [reflexivity|].
  destruct (valid_exactly_when_constraints_hold env "flux-2-pro" p _ eq_refl) as [[V _] _].
  destruct (V eq_refl) as (_ & (_ & W) & _ & _ & _ & _ & _ & T & _).
  split; [exact T | exact W].
Defined.

(** X25. The input images never count against a parameter object: at most
    eight keys can match [input_image] and [input_image_2] to
    [input_image_8], the only limit in the table is 8, so the "Maximum ...
    input images" error is never produced and the result is the same with
    and without the input images. *)
Theorem input_images_are_never_counted_out
    (env : Env) (model : string) (p : Params.t) :
  validateModelParams env model p = validateModelParams env model (withoutInputImages p) /\
  (List.length (imageKeys p) <= 8)%nat.
Proof.
  split; [|apply imageKeys_length].
  unfold validateModelParams. destruct (MODEL_CONSTRAINTS model) as [c|] eqn:H;
    [|reflexivity].
  unfold collectedErrors.
  rewrite (inputImagesCheck_nil model p c H),
          (inputImagesCheck_nil model (withoutInputImages p) c H).
  reflexivity.
Qed.

Section NoConstraints.
Variables (env : Env) (model : string) (p : Params.t).

Lemma collectedErrors_none : collectedErrors env model p Constraints.none = [].
Proof.
  unfold collectedErrors, promptCheck, sizeCheck, rangeCheck, listCheck, rawCheck,
    inputImagesCheck. cbn.
  destruct (Params.prompt p), (Params.width p), (Params.height p), (Params.steps p),
    (Params.guidance p), (Params.aspect_ratio p), (Params.raw p); cbn;
  destruct (Params.image_prompt_strength p), (Params.safety_tolerance p),
    (Params.finetune_strength p), (Params.output_format p); cbn;
  destruct (Params.top p), (Params.bottom p), (Params.left p), (Params.right p);
  reflexivity.
Qed.

End NoConstraints.

(** X26. A model name that [Object.prototype] defines ([constructor],
    [toString], ...) is found by the lookup [MODEL_CONSTRAINTS[model]]: it
    is not reported as unknown, and every parameter object is valid for it.
    A name that is neither such a name nor one of the ten keys of the table
    gives exactly the error "Unknown model: <name>", whatever the
    parameters. *)
Theorem model_names_found_on_the_prototype
    (env : Env) (model : string) (p : Params.t) :
  (In model objectPrototypeNames ->
   validateModelParams env model p = mkValidationResult true []) /\
  (~ In model modelNames -> ~ In model objectPrototypeNames ->
   validateModelParams env model p
     = mkValidationResult false ["Unknown model: " ++ model]).
Proof.
  split.
  - intros H. cbn [In objectPrototypeNames] in H.
    assert (E : MODEL_CONSTRAINTS model = Some Constraints.none).
    { repeat (destruct H as [<- | H]; [reflexivity|]). contradiction. }
    unfold validateModelParams. rewrite E, collectedErrors_none. reflexivity.
  - intros N1 N2.
    assert (E : MODEL_CONSTRAINTS model = None).
    { unfold MODEL_CONSTRAINTS.
      repeat match goal with
             | |- (if String.eqb model ?k then _ else _) = _ =>
                 destruct (String.eqb_spec model k) as [->|_];
                   [exfalso; apply N1; cbn; tauto|]
             end.
      destruct (existsb (String.eqb model) objectPrototypeNames) eqn:X; [|reflexivity].
      apply existsb_exists in X. destruct X as (y & Hy & Ey).
      apply String.eqb_eq in Ey. subst y. contradiction. }
    unfold validateModelParams. rewrite E. reflexivity.
Qed.

Lemma model_names_found_on_the_prototype_witness :
  let env := mkEnv Fixture.frozenClock (fun _ _ => inl Fixture.readyTask) false None
               (fun _ => "") in
  let p := Params.mk None None (Some (Finite 99)) (Some "gif") (Some (Finite 1))
             (Some Infinity) (Some (Finite 0)) None None
             None (Some "2:1") None None None None None None None None None None
             None None None None None None None None in
  validateModelParams env "constructor" p = mkValidationResult true [] /\
  validateModelParams env "flux-3" p = mkValidationResult false ["Unknown model: flux-3"].
Proof.
  intros env p. split.
  - apply (model_names_found_on_the_prototype env "constructor" p). cbn. tauto.
  - apply (model_names_found_on_the_prototype env "flux-3" p).
    + cbn. intros H. repeat (destruct H as [H|H]; [discriminate H|]). exact H.
    + cbn. intros H. repeat (destruct H as [H|H]; [discriminate H|]). exact H.
Defined.

Lemma numOr_validated (o : option JsNumber) (d : Q) (r : Constraints.Range) :
  inRange o (Some r) ->
  (0 < Constraints.min r)%Q ->
  (Constraints.min r <= d /\ d <= Constraints.max r)%Q ->
  exists q, numOr o d = JNum (Finite q) /\
            (Constraints.min r <= q /\ q <= Constraints.max r)%Q /\
            (o = Some (Finite q) \/ q = d).
Proof.
  intros R P D. unfold numOr. destruct o as [v|]; cbn [truthy_num ofNum].
  - destruct (R v r eq_refl eq_refl) as [-> | (q & -> & R')].
    + exists d. auto.
    + destruct (Qeq_bool q 0) eqn:E; cbn [negb].
      * apply Qeq_bool_iff in E. exfalso. destruct R' as [R' _]. rewrite E in R'.
        apply (Qlt_irrefl 0). eapply Qlt_le_trans; eassumption.
      * exists q. auto.
  - exists d. auto.
Qed.

(** X27. Validation and the defaults of the generation methods agree: when
    the parameters are valid for [flux-dev], the [width], [height], [steps]
    and [guidance] that [generateFluxDev] sends, defaults included, are
    within the model's ranges and the sizes are multiples of 32; the same
    holds for the sizes of [flux-pro]; and when they are valid for
    [flux-ultra], the aspect ratio that [generateFluxProUltra] sends is one
    of the model's list. *)
Theorem validated_parameters_give_a_payload_in_range (env : Env) (p : Params.t) :
  let sent (payload : Payload) (k : string) (lo hi : Q) :=
    exists q, payloadGet k payload = Some (JNum (Finite q)) /\ (lo <= q /\ q <= hi)%Q in
  let multiple (payload : Payload) (k : string) (d : Z) :=
    exists q n, payloadGet k payload = Some (JNum (Finite q)) /\
                (q == inject_Z (n * d))%Q in
  (valid (validateModelParams env "flux-dev" p) = true ->
   sent (fluxDevPayload p) "width" 256 1440 /\ multiple (fluxDevPayload p) "width" 32%Z /\
   sent (fluxDevPayload p) "height" 256 1440 /\ multiple (fluxDevPayload p) "height" 32%Z /\
   sent (fluxDevPayload p) "steps" 1 50 /\
   sent (fluxDevPayload p) "guidance" (3 # 2) 5) /\
  (valid (validateModelParams env "flux-pro" p) = true ->
   sent (fluxProPayload p) "width" 256 1440 /\ multiple (fluxProPayload p) "width" 32%Z /\
   sent (fluxProPayload p) "height" 256 1440 /\ multiple (fluxProPayload p) "height" 32%Z) /\
  (valid (validateModelParams env "flux-ultra" p) = true ->
   exists a, payloadGet "aspect_ratio" (fluxProUltraPayload p) = Some (JStr a) /\
             In a aspectRatioList).
Proof.
  cbv zeta.
  assert (M : forall (o : option JsNumber) (d : Q) (r : Constraints.Range) (dv n0 : Z),
            inRange o (Some r) -> multipleOfDivisor o (Some r) ->
            Constraints.divisibleBy r = Some dv ->
            (0 < Constraints.min r)%Q ->
            (Constraints.min r <= d /\ d <= Constraints.max r)%Q ->
            (d == inject_Z (n0 * dv))%Q ->
            exists q n, numOr o d = JNum (Finite q) /\ (q == inject_Z (n * dv))%Q).
  { intros o d r dv n0 R Mu Dv P D Dd.
    destruct (numOr_validated o d r R P D) as (q & E & _ & [-> | ->]).
    - destruct (Mu (Finite q) r eq_refl eq_refl) as (q' & d' & k & [= <-] & Hd & _ & Hk).
      rewrite Dv in Hd. injection Hd as <-. exists q, k. auto.
    - exists d, n0. auto. }
  split; [|split].
  - intros V. apply (valid_accepts env "flux-dev" p _ eq_refl) in V.
    destruct V as (_ & (W1 & W2) & (H1 & H2) & S & G & _).
    cbn [Constraints.width Constraints.height Constraints.steps Constraints.guidance
         size range] in *.
    unfold fluxDevPayload.
    repeat split.
    + destruct (numOr_validated (Params.width p) 1024 _ W1) as (q & E & R & _);
        [reflexivity | split; discriminate |].
      exists q. rewrite <- E. auto.
    + destruct (M (Params.width p) 1024%Q _ 32%Z 32%Z W1 W2 eq_refl) as (q & n & E & D);
        [reflexivity | split; discriminate | reflexivity |].
      exists q, n. rewrite <- E. auto.
    + destruct (numOr_validated (Params.height p) 768 _ H1) as (q & E & R & _);
        [reflexivity | split; discriminate |].
      exists q. rewrite <- E. auto.
    + destruct (M (Params.height p) 768%Q _ 32%Z 24%Z H1 H2 eq_refl) as (q & n & E & D);
        [reflexivity | split; discriminate | reflexivity |].
      exists q, n. rewrite <- E. auto.
    + destruct (numOr_validated (Params.steps p) 28 _ S) as (q & E & R & _);
        [reflexivity | split; discriminate |].
      exists q. rewrite <- E. auto.
    + destruct (numOr_validated (Params.guidance p) 3 _ G) as (q & E & R & _);
        [reflexivity | split; discriminate |].
      exists q. rewrite <- E. auto.
  - intros V. apply (valid_accepts env "flux-pro" p _ eq_refl) in V.
    destruct V as (_ & (W1 & W2) & (H1 & H2) & _).
    cbn [Constraints.width Constraints.height size] in *.
    unfold fluxProPayload.
    repeat split.
    + destruct (numOr_validated (Params.width p) 1024 _ W1) as (q & E & R & _);
        [reflexivity | split; discriminate |].
      exists q. rewrite <- E. auto.
    + destruct (M (Params.width p) 1024%Q _ 32%Z 32%Z W1 W2 eq_refl) as (q & n & E & D);
        [reflexivity | split; discriminate | reflexivity |].
      exists q, n. rewrite <- E. auto.
    + destruct (numOr_validated (Params.height p) 768 _ H1) as (q & E & R & _);
        [reflexivity | split; discriminate |].
      exists q. rewrite <- E. auto.
    + destruct (M (Params.height p) 768%Q _ 32%Z 24%Z H1 H2 eq_refl) as (q & n & E & D);
        [reflexivity | split; discriminate | reflexivity |].
      exists q, n. rewrite <- E. auto.
  - intros V. apply (valid_accepts env "flux-ultra" p _ eq_refl) in V.
    destruct V as (_ & _ & _ & _ & _ & A & _).
    cbn [Constraints.aspectRatios] in A.
    unfold fluxProUltraPayload, strOr. cbn [app payloadGet String.eqb Ascii.eqb Bool.eqb].
    destruct (Params.aspect_ratio p) as [[|c s]|]; cbn [Js.truthy_opt Js.truthy ofStr].
    + exists "16:9". split; [reflexivity | cbn; tauto].
    + exists (String c s). split; [reflexivity|].
      apply (A _ _ eq_refl); [discriminate | reflexivity].
    + exists "16:9". split; [reflexivity | cbn; tauto].
Qed.

Lemma validated_parameters_give_a_payload_in_range_witness :
  let env := mkEnv Fixture.frozenClock (fun _ _ => inl Fixture.readyTask) false None
               (fun _ => "") in
  let p := Params.mk (Some "a fox") None None None (Some (Finite 512)) None (Some NaN)
             None None None
             None None None None None None None None None None None
             None None None None None None None None in
  (exists q, payloadGet "height" (fluxDevPayload p) = Some (JNum (Finite q)) /\
             (256 <= q /\ q <= 1440)%Q) /\
  (exists q, payloadGet "steps" (fluxDevPayload p) = Some (JNum (Finite q)) /\
             (1 <= q /\ q <= 50)%Q).
Proof.
  intros env p.
  destruct (validated_parameters_give_a_payload_in_range env p) as [D _].
  destruct (D eq_refl) as (_ & _ & H & _ & S & _). split; [exact H | exact S].
Defined.

(** ** The retry counter *)

Section Alternating.
Variables (env : Env) (api : BflAPI) (taskId : string) (o : WaitResultOptions).
Variable startTime : Z.
Hypothesis key_set : Js.truthy (apiKey api) = true.
Hypothesis interval_ok : Qltb (pollInterval_of o) 0 = false.
Hypothesis one_retry : (1 <= maxRetries_of o)%Z.

Let req := statusRequest api taskId (pollingUrl o).

Lemma pollLoop_alternating_then_ready (n : nat) :
  forall (w : World) (fuel : nat) (ready : TaskResult),
  (forall k, (k < n)%nat ->
     (exists e, axios_call env (axios_calls w + 2 * k) req = inr e /\
                transientFailure env o e = true) /\
     (exists data, axios_call env (axios_calls w + 2 * k + 1) req = inl data /\
                   nonTerminal (status data) = true)) ->
  axios_call env (axios_calls w + 2 * n) req = inl ready ->
  status ready = "Ready" ->
  (forall k, (k <= 2 * n)%nat -> timedOut env o startTime (now_calls w + k) = false) ->
  (2 * n < fuel)%nat ->
  exists w',
    pollLoop fuel env api taskId o startTime 0 w = (Val (Some ready), w') /\
    axios_calls w' = (axios_calls w + 2 * n + 1)%nat /\
    trace w' = (trace w ++ alternatingTrace req (pollInterval_of o) n
                        ++ [EvRequest req])%list.
Proof.
  induction n as [|n IH]; intros w fuel ready Hw Hr Hs Ht Hf.
  - destruct fuel as [|fuel]; [lia|].
    replace (axios_calls w + 2 * 0)%nat with (axios_calls w) in Hr by lia.
    destruct (loopBody_ready env api taskId o startTime key_set 0 w ready)
      as (w' & E & N & A & T); auto.
    { rewrite <- (Nat.add_0_r (now_calls w)). apply Ht. lia. }
    exists w'. cbn [pollLoop]. unfold bind. rewrite E. unfold ret.
    repeat split; [lia | exact T].
  - destruct fuel as [|[|fuel]]; [lia | lia |].
    destruct (Hw 0%nat) as ((e & He & Te) & (data & Hd & Nd)); [lia|].
    replace (axios_calls w + 2 * 0)%nat with (axios_calls w) in He by lia.
    replace (axios_calls w + 2 * 0 + 1)%nat with (S (axios_calls w)) in Hd by lia.
    destruct (loopBody_retry env api taskId o startTime key_set 0 w e)
      as (w1 & E1 & N1 & A1 & T1); auto.
    { rewrite <- (Nat.add_0_r (now_calls w)). apply Ht. lia. }
    { simpl. lia. }
    unfold nonTerminal in Nd. apply andb_true_iff in Nd. destruct Nd as [Nd K3].
    apply andb_true_iff in Nd. destruct Nd as [K1 K2].
    apply negb_true_iff in K1, K2, K3.
    destruct (loopBody_waiting env api taskId o startTime key_set 1 w1 data)
      as (w2 & E2 & N2 & A2 & T2); auto.
    { rewrite N1. replace (S (now_calls w)) with (now_calls w + 1)%nat by lia.
      apply Ht. lia. }
    { rewrite A1. exact Hd. }
    destruct (IH w2 fuel ready) as (w' & E' & A' & T').
    { intros k Hk. rewrite A2, A1.
      replace (S (S (axios_calls w)) + 2 * k)%nat
        with (axios_calls w + 2 * S k)%nat by lia.
      apply Hw. lia. }
    { rewrite A2, A1.
      replace (S (S (axios_calls w)) + 2 * n)%nat
        with (axios_calls w + 2 * S n)%nat by lia. exact Hr. }
    { exact Hs. }
    { intros k Hk. rewrite N2, N1.
      replace (S (S (now_calls w)) + k)%nat with (now_calls w + (2 + k))%nat by lia.
      apply Ht. lia. }
    { lia. }
    exists w'. cbn [pollLoop]. unfold bind at 1. rewrite E1.
    unfold bind at 1. rewrite E2.
    repeat split; [exact E' | lia |].
    rewrite T', T2, T1. cbn [alternatingTrace]. rewrite <- !app_assoc. reflexivity.
Qed.

End Alternating.

(** X28. The retry budget counts failures in a row, not in total: a fetch
    that is answered resets the counter. With [maxRetries] at least 1, any
    number [N] of rounds of one transient failure followed by one answer to
    wait on, then [Ready], ends with the task after [2N + 1] requests; every
    back-off in it is the first one, 2 seconds. *)
Theorem retry_budget_counts_failures_in_a_row
    (env : Env) (api : BflAPI) (taskId : string) (o : WaitResultOptions)
    (N fuel : nat) (ready : TaskResult) :
  let req := statusRequest api taskId (pollingUrl o) in
  Js.truthy (apiKey api) = true ->
  Qltb (pollInterval_of o) 0 = false ->
  (1 <= maxRetries_of o)%Z ->
  (forall k, (k < N)%nat ->
     (exists e, axios_call env (2 * k) req = inr e /\ transientFailure env o e = true) /\
     (exists data, axios_call env (2 * k + 1) req = inl data /\
                   nonTerminal (status data) = true)) ->
  axios_call env (2 * N) req = inl ready ->
  status ready = "Ready" ->
  (forall k, (k <= 2 * N)%nat -> timedOut env o (date_now env 0) (S k) = false) ->
  (2 * N < fuel)%nat ->
  exists w',
    waitForResult fuel env api taskId o world0 = (Val (Some ready), w') /\
    axios_calls w' = (2 * N + 1)%nat /\
    trace w' = (alternatingTrace req (pollInterval_of o) N ++ [EvRequest req])%list /\
    Forall (fun q => q = pollInterval_of o \/ q = backoff 1) (pausesOf (trace w')).
Proof.
  intros req Hkey Hp Hm Hw Hr Hs Ht Hf. rewrite waitForResult_unfold.
  destruct (pollLoop_alternating_then_ready env api taskId o (date_now env 0) Hkey Hp Hm N
              (mkWorld 1 0 [] []) fuel ready) as (w' & E & A & T); auto.
  exists w'. repeat split; [exact E | exact A | exact T |].
  rewrite T. cbn [trace app]. clear. induction N as [|N IH]; cbn; [constructor|].
  constructor; [right; reflexivity|]. constructor; [left; reflexivity | exact IH].
Qed.

Lemma retry_budget_counts_failures_in_a_row_witness :
  exists w',
    waitForResult 6
      (Fixture.scripted Fixture.frozenClock
         [inr (Error "read ECONNRESET"); inl Fixture.pendingTask;
          inr (Error "read ECONNRESET"); inl Fixture.pendingTask]
         (inl Fixture.readyTask))
      Fixture.api "task_123"
      (mkWaitResultOptions None None (Some (1 # 100)) (Some 1%Z) (Some false)) world0
      = (Val (Some Fixture.readyTask), w') /\
    axios_calls w' = 5%nat.
Proof.
  destruct (retry_budget_counts_failures_in_a_row
              (Fixture.scripted Fixture.frozenClock
                 [inr (Error "read ECONNRESET"); inl Fixture.pendingTask;
                  inr (Error "read ECONNRESET"); inl Fixture.pendingTask]
                 (inl Fixture.readyTask))
              Fixture.api "task_123"
              (mkWaitResultOptions None None (Some (1 # 100)) (Some 1%Z) (Some false))
              2 6 Fixture.readyTask)
    as (w' & E & A & _).
  - reflexivity.
  - reflexivity.
  - vm_compute. intros H. discriminate H.
  - intros k Hk. destruct k as [|[|k]]; [| |lia];
      (split; eexists; split; reflexivity).
  - reflexivity.
  - reflexivity.
  - intros k _. reflexivity.
  - lia.
  - exists w'. split; [exact E | exact A].
Defined.
